(** * The Summarizer coordinator of the container runtime

    A shallow embedding of [class Summarizer] (with [SummarizingWarning])
    and a verification of its lifecycle contracts: the write-once stop
    request, [dispose], [run]/[runCore], [start], the on-demand and
    enqueue entry points and the summary-ack loop.

    The class is single threaded and event driven.  Every [async] method
    is embedded as a function that is given, for each of its suspension
    points, what the environment does there: the calls the host makes on
    the coordinator while the method is suspended, and how the awaited
    promise settles.  The calls the coordinator makes on its collaborators
    (executor, cancellation token, event emitters, ack source, refresh
    callback) are appended, in program order, to an effect trace carried
    in the state; the events given to [sendErrorEvent] go to a log of
    their own.  Informational telemetry ([sendTelemetryEvent], and the
    logging done inside [wrapErrorAndLog]) is not recorded. *)

From Stdlib Require Import String List ZArith Bool.
From Stdlib Require Import Lia.
Import ListNotations.
Open Scope string_scope.
Open Scope Z_scope.

(** ** Basic values *)

(** [SummarizerStopReason] is a union of string literals in
    summarizerTypes; callers may supply any of them. *)
Definition SummarizerStopReason := string.

(** A JavaScript [Error], identified by its message. *)
Record Error := mkError { message : string }.

Definition summarizingError : string := "summarizingError".

(** [class SummarizingWarning]: the three fields the constructor is
    given, and the two readonly fields [errorType] and [canRetry]. *)
Record SummarizingWarning := mkSummarizingWarning {
  errorMessage : string;
  fluidErrorCode : string;
  logged : bool;
  errorType : string;
  canRetry : bool
}.

(** [new SummarizingWarning(errorMessage, fluidErrorCode, logged)]: the
    field initialisers set [errorType] and [canRetry]. *)
Definition newSummarizingWarning (errorMessage fluidErrorCode : string)
    (logged : bool) : SummarizingWarning :=
  {| errorMessage := errorMessage;
     fluidErrorCode := fluidErrorCode;
     logged := logged;
     errorType := summarizingError;
     canRetry := true |}.

(** Modelled from the spec: [wrapErrorAndLog] lives in telemetry-utils,
    which is not among the files embedded here.  The spec says the error is "wrapped as a
    retryable warning event": the wrapper is built by the constructor
    function it is handed, from the message of the original error. *)
Definition wrapErrorAndLog (error : Error)
    (newErrorFn : string -> SummarizingWarning) : SummarizingWarning :=
  newErrorFn (message error).

(** [SummarizingWarning.wrap] *)
Definition SummarizingWarning_wrap (error : Error) (errorCode : string)
    (logged : bool) : SummarizingWarning :=
  let newErrorFn := fun errMsg => newSummarizingWarning errMsg errorCode logged in
  wrapErrorAndLog error newErrorFn.

Definition createSummarizingWarning (errorCode : string) (logged : bool)
    : SummarizingWarning :=
  newSummarizingWarning errorCode errorCode logged.

(** ** Promises *)

(** How an [async] call ends: with a value, with an exception, or not at
    all within the environment that was supplied. *)
Inductive Outcome (E A : Type) : Type :=
| Returned (a : A)
| Threw (e : E)
| Pending.
Arguments Returned {E A} a.
Arguments Threw {E A} e.
Arguments Pending {E A}.

(** How an awaited promise of a collaborator settles. *)
Inductive Settled (A : Type) : Type :=
| Resolves (a : A)
| Rejects (e : Error).
Arguments Resolves {A} a.
Arguments Rejects {A} e.

Module Deferred.
(** Modelled from the spec: [Deferred<T>] lives in common-utils, which is
    not among the files embedded here.  The spec describes the stop
    request as "a single-resolution future (write-once) ... resolved at
    most once, later resolutions are no-ops". *)
Definition t (A : Type) : Type := option A.

Definition create {A : Type} : t A := None.

Definition isCompleted {A : Type} (d : t A) : bool :=
  match d with Some _ => true | None => false end.

(** Modelled from the spec: [Deferred.resolve], write-once, which is what
    a JavaScript promise does with a second call of its resolve
    function. *)
Definition resolve {A : Type} (d : t A) (value : A) : t A :=
  match d with
  | Some _ => d
  | None => Some value
  end.

(** [Promise.race([a, b])] seen at one instant: of two promises already
    settled the one listed first wins, because its reaction is queued
    first. *)
Definition race {A : Type} (a b : t A) : t A :=
  match a with
  | Some _ => a
  | None => b
  end.
End Deferred.

(** Modelled from the spec: [ICancellableSummarizerController] lives in
    runWhileConnectedCoordinator, which is not among the files embedded
    here.  The spec gives the cancellation token "a future that resolves with a stop
    reason when an external event occurs, a boolean already-cancelled
    flag, and a method to force-resolve it with a given reason". *)
Record ICancellableSummarizerController := mkController {
  waitCancelled : Deferred.t SummarizerStopReason
}.

Definition cancelled (c : ICancellableSummarizerController) : bool :=
  Deferred.isCompleted (waitCancelled c).

Definition controller_stop (reason : SummarizerStopReason)
    (c : ICancellableSummarizerController) : ICancellableSummarizerController :=
  {| waitCancelled := Deferred.resolve (waitCancelled c) reason |}.

(** ** Collaborators *)

(** The executor as the coordinator sees it: an identity and the
    [disposed] getter. *)
Record RunningSummarizer := mkRunningSummarizer {
  rs_id : nat;
  disposed : bool
}.

(** [Partial<ISummarizerOptions>] *)
Record ISummarizerOptions := mkOptions {
  disableHeuristics : option bool
}.

(** [new SummarizeHeuristicData(lastOpSequenceNumber, attemptBaseline)] *)
Record SummarizeHeuristicData := mkHeuristicData {
  lastOpSequenceNumber : Z;
  refSequenceNumber : Z;
  summaryTime : Z
}.

(** The two closures [start] registers; each captures the executor. *)
Inductive Listener :=
| SystemOpListener (target : nat)
| OpListener (target : nat).

(** The ack that [waitSummaryAck] resolves with. *)
Record IAckedSummary := mkAck {
  summaryOp_referenceSequenceNumber : Z;
  summaryOp_handle : string;
  summaryAck_handle : string
}.

(** An event given to [sendErrorEvent].  [viaLogger] is the sequence
    number for which the correlated logger was asked. *)
Record ErrorEvent := mkErrorEvent {
  eventName : string;
  referenceSequenceNumber : option Z;
  viaLogger : option Z;
  error : Error
}.

(** One stage of a result builder. *)
Inductive StageResult :=
| StageSuccess
| StageFailure (msg : string) (reason : Error).

(** Modelled from the spec: [OnDemandSummarizeResultBuilder] lives in
    summaryGenerator, which is not among the files embedded here.  The
    spec gives
    it "two independently-settleable outcomes: summarizerStarted and the
    overall built result"; [fail] settles with the failure every stage
    that is still open. *)
Record OnDemandSummarizeResultBuilder := mkBuilder {
  summarizerStarted : Deferred.t StageResult;
  builtResult : Deferred.t StageResult
}.

Definition newBuilder : OnDemandSummarizeResultBuilder :=
  {| summarizerStarted := Deferred.create; builtResult := Deferred.create |}.

Definition builder_resolveStarted (r : StageResult)
    (b : OnDemandSummarizeResultBuilder) : OnDemandSummarizeResultBuilder :=
  {| summarizerStarted := Deferred.resolve (summarizerStarted b) r;
     builtResult := builtResult b |}.

Definition builder_fail (msg : string) (reason : Error)
    (b : OnDemandSummarizeResultBuilder) : OnDemandSummarizeResultBuilder :=
  {| summarizerStarted := Deferred.resolve (summarizerStarted b) (StageFailure msg reason);
     builtResult := Deferred.resolve (builtResult b) (StageFailure msg reason) |}.

(** [ISummarizerRuntime], as far as the coordinator reads it. *)
Record ISummarizerRuntime := mkRuntime {
  clientId : option string;
  summarizerClientId : option string;
  initialSequenceNumber : Z;
  lastSequenceNumber : Z
}.

(** An optional field as a list of at most one element. *)
Definition optList {A : Type} (o : option A) : list A :=
  match o with Some a => [a] | None => [] end.

(** ** The environment of the asynchronous methods *)

(** Calls the host makes on the coordinator while a method is suspended:
    [stop(reason)] and [dispose()] (the container runtime disposes its
    summarizer when it is itself disposed). *)
Inductive HostCall :=
| CallStop (reason : SummarizerStopReason)
| CallDispose.

(** What can happen while a run session is suspended: a host call, or
    the cancellation of the session's token by its owner (connectivity
    loss, or the executor using its stop callback). *)
Inductive ExtEvent :=
| Host (c : HostCall)
| Cancelled (reason : SummarizerStopReason).

(** An awaited promise of a collaborator: what happens while the caller
    is suspended on it, and how it settles. *)
Record Await (Ev A : Type) := mkAwait {
  during : list Ev;
  settled : Settled A
}.
Arguments mkAwait {Ev A} during settled.
Arguments during {Ev A} a.
Arguments settled {Ev A} a.

(** The order in which [Promise.race] is handed the two promises. *)
Inductive RaceOrder :=
| TokenThenStop   (* runCore: [runCoordinator.waitCancelled, stopDeferred.promise] *)
| StopThenToken.  (* summarizeOnDemand: [stopDeferred.promise, runCoordinator.waitCancelled] *)

(** What the environment supplies to one iteration of the loop. *)
Inductive AckStep :=
| LoggerThrows (e : Error)
    (* tryGetCorrelatedLogger throws, outside the try block *)
| WaitRejects (calls : list HostCall) (e : Error)
    (* waitSummaryAck rejects; [calls] happen during the wait *)
| AckArrives (calls : list HostCall) (ack : IAckedSummary)
    (refresh : Await HostCall unit).
    (* waitSummaryAck resolves with [ack]; then the refresh callback
       settles as [refresh] says *)

(** [a !== b] on [string | undefined] *)
Definition strictNotEqual (a b : option string) : bool :=
  match a, b with
  | Some x, Some y => negb (String.eqb x y)
  | None, None => false
  | _, _ => true
  end.

Section Coordinator.

(** The argument tuples of the two summarize entry points and the result
    of the executor's enqueue are opaque to the coordinator. *)
Context {OnDemandArgs OnDemandResults EnqueueArgs EnqueueResult : Type}.

(** [RunningSummarizer.enqueueSummarize], the executor's own entry. *)
Variable exec_enqueueSummarize : RunningSummarizer -> EnqueueArgs -> EnqueueResult.

(** [RunningSummarizer.summarizeOnDemand] and [builder.build()]: both
    return, to the caller, a view of the builder's stages. *)
Variable exec_summarizeOnDemand :
  RunningSummarizer -> OnDemandSummarizeResultBuilder -> OnDemandArgs -> OnDemandResults.
Variable build : OnDemandSummarizeResultBuilder -> OnDemandResults.

(** ** Effects: the calls made on collaborators *)
Inductive Effect :=
| CreateCoordinator
    (* this.runCoordinatorCreateFn(this.runtime) *)
| ExecStart (client : string) (data : SummarizeHeuristicData)
    (options : option ISummarizerOptions)
    (* RunningSummarizer.start(...) *)
| ExecSummarizeOnDemand (rs : nat) (builder : OnDemandSummarizeResultBuilder)
    (args : OnDemandArgs)
| ExecEnqueueSummarize (rs : nat) (args : EnqueueArgs)
| ExecWaitStop (rs : nat) (allowLastSummary : bool)
| ExecDispose (rs : nat) (disposedSeen : bool)
    (* runningSummarizer.dispose(); [disposedSeen] is the value of
       this._disposed that a callback run during the call reads *)
| TokenStop (reason : SummarizerStopReason)
    (* runCoordinator.stop(reason) *)
| InboundOn (l : Listener)
| InboundOff (l : Listener)
| RuntimeOn (l : Listener)
| RuntimeRemoveListener (l : Listener)
| CloseFn
| WaitSummaryAck (refSeq : Z)
| RefreshLatestSummaryAck (proposalHandle ackHandle : string) (refSeq : Z)
    (loggerFor : Z)
| EmitSummarizingError (w : SummarizingWarning).

(** ** The coordinator's state *)
Record Summarizer := mkSummarizer {
  runtime : ISummarizerRuntime;
  runningSummarizer : option RunningSummarizer;
  systemOpListener : option Listener;
  opListener : option Listener;
  _disposed : bool;
  stopDeferred : Deferred.t SummarizerStopReason;
  effects : list Effect;
  errorLog : list ErrorEvent
}.

Definition newSummarizer (rt : ISummarizerRuntime) : Summarizer :=
  {| runtime := rt;
     runningSummarizer := None;
     systemOpListener := None;
     opListener := None;
     _disposed := false;
     stopDeferred := Deferred.create;
     effects := [];
     errorLog := [] |}.

Definition set_runningSummarizer (v : option RunningSummarizer) (s : Summarizer) :=
  {| runtime := runtime s; runningSummarizer := v;
     systemOpListener := systemOpListener s; opListener := opListener s;
     _disposed := _disposed s; stopDeferred := stopDeferred s;
     effects := effects s; errorLog := errorLog s |}.

Definition set_systemOpListener (v : option Listener) (s : Summarizer) :=
  {| runtime := runtime s; runningSummarizer := runningSummarizer s;
     systemOpListener := v; opListener := opListener s;
     _disposed := _disposed s; stopDeferred := stopDeferred s;
     effects := effects s; errorLog := errorLog s |}.

Definition set_opListener (v : option Listener) (s : Summarizer) :=
  {| runtime := runtime s; runningSummarizer := runningSummarizer s;
     systemOpListener := systemOpListener s; opListener := v;
     _disposed := _disposed s; stopDeferred := stopDeferred s;
     effects := effects s; errorLog := errorLog s |}.

Definition set_disposed (v : bool) (s : Summarizer) :=
  {| runtime := runtime s; runningSummarizer := runningSummarizer s;
     systemOpListener := systemOpListener s; opListener := opListener s;
     _disposed := v; stopDeferred := stopDeferred s;
     effects := effects s; errorLog := errorLog s |}.

Definition set_stopDeferred (v : Deferred.t SummarizerStopReason) (s : Summarizer) :=
  {| runtime := runtime s; runningSummarizer := runningSummarizer s;
     systemOpListener := systemOpListener s; opListener := opListener s;
     _disposed := _disposed s; stopDeferred := v;
     effects := effects s; errorLog := errorLog s |}.

(** Record a call on a collaborator. *)
Definition emit (e : Effect) (s : Summarizer) :=
  {| runtime := runtime s; runningSummarizer := runningSummarizer s;
     systemOpListener := systemOpListener s; opListener := opListener s;
     _disposed := _disposed s; stopDeferred := stopDeferred s;
     effects := effects s ++ [e]; errorLog := errorLog s |}.

(** [logger.sendErrorEvent(...)] *)
Definition sendErrorEvent (ev : ErrorEvent) (s : Summarizer) :=
  {| runtime := runtime s; runningSummarizer := runningSummarizer s;
     systemOpListener := systemOpListener s; opListener := opListener s;
     _disposed := _disposed s; stopDeferred := stopDeferred s;
     effects := effects s; errorLog := errorLog s ++ [ev] |}.

(** ** Synchronous methods *)

(** [stop(reason)] *)
Definition stop (reason : SummarizerStopReason) (s : Summarizer) : Summarizer :=
  set_stopDeferred (Deferred.resolve (stopDeferred s) reason) s.

(** [dispose()] *)
Definition dispose (s : Summarizer) : Summarizer :=
  let s := stop "summarizerClientDisconnected" s in
  let s := set_disposed true s in
  let s :=
    match runningSummarizer s with
    | Some rs =>
        let s := emit (ExecDispose (rs_id rs) (_disposed s)) s in
        set_runningSummarizer None s
    | None => s
    end in
  let s :=
    match systemOpListener s with
    | Some l => emit (InboundOff l) s
    | None => s
    end in
  match opListener s with
  | Some l => emit (RuntimeRemoveListener l) s
  | None => s
  end.

(** [this.runtime.closeFn()] *)
Definition closeFn (s : Summarizer) : Summarizer := emit CloseFn s.

(** The error callback handed to the executor in [start]. *)
Definition onSummarizingError (errorCode : string) (s : Summarizer) : Summarizer :=
  if negb (_disposed s)
  then emit (EmitSummarizingError (createSummarizingWarning errorCode true)) s
  else s.

(** [enqueueSummarize(...args)] *)
Definition enqueueSummarize (args : EnqueueArgs) (s : Summarizer)
    : Outcome Error EnqueueResult * Summarizer :=
  match runningSummarizer s with
  | Some rs =>
      if _disposed s || disposed rs
      then (Threw (mkError "Summarizer is not running or already disposed."), s)
      else (Returned (exec_enqueueSummarize rs args),
            emit (ExecEnqueueSummarize (rs_id rs) args) s)
  | None => (Threw (mkError "Summarizer is not running or already disposed."), s)
  end.

(** ** Host calls and run sessions *)

Definition applyHostCall (c : HostCall) (s : Summarizer) : Summarizer :=
  match c with
  | CallStop reason => stop reason s
  | CallDispose => dispose s
  end.

Definition applyHostCalls (cs : list HostCall) (s : Summarizer) : Summarizer :=
  fold_left (fun s c => applyHostCall c s) cs s.

(** A run session: the coordinator, the session's cancellation token and,
    once it was created, the race promise [stopP]. *)
Record Session := mkSession {
  this : Summarizer;
  controller : ICancellableSummarizerController;
  raceOrder : option RaceOrder;
  stopP : Deferred.t SummarizerStopReason
}.

Definition observe (o : RaceOrder) (s : Summarizer)
    (c : ICancellableSummarizerController) : Deferred.t SummarizerStopReason :=
  match o with
  | TokenThenStop => Deferred.race (waitCancelled c) (stopDeferred s)
  | StopThenToken => Deferred.race (stopDeferred s) (waitCancelled c)
  end.

(** The race promise settles with the first of its inputs that does, and
    only once. *)
Definition notify (x : Session) : Session :=
  match raceOrder x, stopP x with
  | Some o, None =>
      {| this := this x; controller := controller x;
         raceOrder := raceOrder x;
         stopP := observe o (this x) (controller x) |}
  | _, _ => x
  end.

(** [Promise.race([...])] *)
Definition createRace (o : RaceOrder) (x : Session) : Session :=
  {| this := this x; controller := controller x;
     raceOrder := Some o;
     stopP := observe o (this x) (controller x) |}.

Definition onThis (f : Summarizer -> Summarizer) (x : Session) : Session :=
  {| this := f (this x); controller := controller x;
     raceOrder := raceOrder x; stopP := stopP x |}.

Definition onToken
    (f : ICancellableSummarizerController -> ICancellableSummarizerController)
    (x : Session) : Session :=
  {| this := this x; controller := f (controller x);
     raceOrder := raceOrder x; stopP := stopP x |}.

Definition applyEvent (ev : ExtEvent) (x : Session) : Session :=
  notify
    match ev with
    | Host c => onThis (applyHostCall c) x
    | Cancelled reason => onToken (controller_stop reason) x
    end.

Definition applyEvents (evs : list ExtEvent) (x : Session) : Session :=
  fold_left (fun x ev => applyEvent ev x) evs x.

(** [await stopP]: the method resumes, with the value of the race, once
    the race has settled and the task that settled it has run to its end.
    [evs] is all that happens until then: the events before the one that
    settles the race, that event, and what follows it in the same task.
    With a race that [evs] leaves open the method stays suspended. *)
Definition awaitStopP (evs : list ExtEvent) (x : Session)
    : option SummarizerStopReason * Session :=
  let x := applyEvents evs x in
  (stopP x, x).

(** What the environment supplies to one run session. *)
Record RunEnv := mkRunEnv {
  (* await this.runCoordinatorCreateFn(this.runtime) *)
  coordinatorCreate : Await HostCall ICancellableSummarizerController;
  (* Date.now() in start *)
  now : Z;
  (* await RunningSummarizer.start(...) *)
  runningStart : Await ExtEvent RunningSummarizer;
  (* [await stopP]: the events until the method resumes *)
  stopWait : list ExtEvent;
  (* await runningSummarizer.waitStop(...) *)
  waitStop : Await ExtEvent unit
}.

(** ** start *)

(** [start(onBehalfOf, runCoordinator, options)].  [onBehalfOf] only
    feeds informational telemetry, which is not recorded; the on-demand
    path passes [this.runtime.clientId!], which may be undefined.  The ack
    loop [start] kicks off is not awaited and writes no field of the
    coordinator; it is [handleSummaryAcksTask] below, to be run against
    the state [start] leaves. *)
Definition start (onBehalfOf : option string) (options : option ISummarizerOptions)
    (env : RunEnv) (x : Session) : Outcome Error RunningSummarizer * Session :=
  match clientId (runtime (this x)) with
  | None => (Threw (mkError "clientId should be defined if connected."), x)
  | Some client =>
      let data :=
        {| lastOpSequenceNumber := lastSequenceNumber (runtime (this x));
           refSequenceNumber := initialSequenceNumber (runtime (this x));
           summaryTime := now env |} in
      let x := onThis (emit (ExecStart client data options)) x in
      let x := applyEvents (during (runningStart env)) x in
      match settled (runningStart env) with
      | Rejects e => (Threw e, x)
      | Resolves runningSummarizer =>
          let x := onThis (set_runningSummarizer (Some runningSummarizer)) x in
          let sysListener := SystemOpListener (rs_id runningSummarizer) in
          let x := onThis (set_systemOpListener (Some sysListener)) x in
          let x := onThis (emit (InboundOn sysListener)) x in
          let batchListener := OpListener (rs_id runningSummarizer) in
          let x := onThis (set_opListener (Some batchListener)) x in
          let x := onThis (emit (RuntimeOn batchListener)) x in
          (Returned runningSummarizer, x)
      end
  end.

(** ** run *)

(** [runCore(onBehalfOf, options)] *)
Definition runCore (onBehalfOf : string) (options : option ISummarizerOptions)
    (env : RunEnv) (s : Summarizer) : Outcome Error SummarizerStopReason * Summarizer :=
  let s := emit CreateCoordinator s in
  let s := applyHostCalls (during (coordinatorCreate env)) s in
  match settled (coordinatorCreate env) with
  | Rejects e => (Threw e, s)
  | Resolves runCoordinator =>
      let x := createRace TokenThenStop
                 {| this := s; controller := runCoordinator;
                    raceOrder := None; stopP := None |} in
      if cancelled runCoordinator then
        (* return runCoordinator.waitCancelled *)
        match waitCancelled runCoordinator with
        | Some reason => (Returned reason, s)
        | None => (Pending, s)
        end
      else
          match start (Some onBehalfOf) options env x with
          | (Threw e, x) => (Threw e, this x)
          | (Pending, x) => (Pending, this x)
          | (Returned runningSummarizer, x) =>
              match awaitStopP (stopWait env) x with
              | (None, x) => (Pending, this x)
              | (Some stopReason, x) =>
                  let allowLastSummary := negb (cancelled (controller x)) in
                  let x := onThis (emit (ExecWaitStop (rs_id runningSummarizer)
                                           allowLastSummary)) x in
                  let x := applyEvents (during (waitStop env)) x in
                  match settled (waitStop env) with
                  | Rejects e => (Threw e, this x)
                  | Resolves _ =>
                      let x := onThis (emit (TokenStop stopReason)) x in
                      let x := onToken (controller_stop stopReason) x in
                      (Returned stopReason, this x)
                  end
              end
          end
  end.

(** [run(onBehalfOf, options)]: try / catch / finally around [runCore]. *)
Definition run (onBehalfOf : string) (options : option ISummarizerOptions)
    (env : RunEnv) (s : Summarizer)
    : Outcome SummarizingWarning SummarizerStopReason * Summarizer :=
  match runCore onBehalfOf options env s with
  | (Returned reason, s) =>
      (Returned reason, closeFn (dispose s))
  | (Threw error, s) =>
      let s := stop "summarizerException" s in
      let w := SummarizingWarning_wrap error "summarizerRun" false in
      (Threw w, closeFn (dispose s))
  | (Pending, s) => (Pending, s)
  end.

(** ** The summary-ack loop *)

Definition handleSummaryAckError (refSeq loggerFor : Z) (e : Error) : ErrorEvent :=
  {| eventName := "HandleSummaryAckError";
     referenceSequenceNumber := Some refSeq;
     viaLogger := Some loggerFor;
     error := e |}.

(** The [while] loop of [handleSummaryAcks], from a given value of the
    local [refSequenceNumber].  An empty script leaves the loop suspended
    on [waitSummaryAck].  The result carries the last value of
    [refSequenceNumber]. *)
Fixpoint handleSummaryAcksFrom (script : list AckStep) (refSequenceNumber : Z)
    (s : Summarizer) : Outcome Error unit * Z * Summarizer :=
  match runningSummarizer s with
  | None => (Returned tt, refSequenceNumber, s)
  | Some _ =>
      let summaryLogger := refSequenceNumber in
      match script with
      | [] => (Pending, refSequenceNumber, emit (WaitSummaryAck refSequenceNumber) s)
      | LoggerThrows e :: _ => (Threw e, refSequenceNumber, s)
      | WaitRejects calls e :: rest =>
          let s := emit (WaitSummaryAck refSequenceNumber) s in
          let s := applyHostCalls calls s in
          let s := sendErrorEvent
                     (handleSummaryAckError refSequenceNumber summaryLogger e) s in
          handleSummaryAcksFrom rest (refSequenceNumber + 1) s
      | AckArrives calls ack refresh :: rest =>
          let s := emit (WaitSummaryAck refSequenceNumber) s in
          let s := applyHostCalls calls s in
          let refSequenceNumber := summaryOp_referenceSequenceNumber ack in
          let s := emit (RefreshLatestSummaryAck (summaryOp_handle ack)
                           (summaryAck_handle ack) refSequenceNumber summaryLogger) s in
          let s := applyHostCalls (during refresh) s in
          let s :=
            match settled refresh with
            | Resolves _ => s
            | Rejects e =>
                sendErrorEvent
                  (handleSummaryAckError refSequenceNumber summaryLogger e) s
            end in
          handleSummaryAcksFrom rest (refSequenceNumber + 1) s
      end
  end.

(** [handleSummaryAcks()] *)
Definition handleSummaryAcks (script : list AckStep) (s : Summarizer)
    : Outcome Error unit * Z * Summarizer :=
  handleSummaryAcksFrom script (initialSequenceNumber (runtime s)) s.


(** ** summarizeOnDemand *)

(** What [summarizeOnDemand] hands back when it does not throw: the
    executor's results on the fast path, or the results of a fresh builder
    whose bootstrap chain has been scheduled. *)
Inductive OnDemandReturn :=
| Forwarded (results : OnDemandResults)
| Bootstrapping (results : OnDemandResults) (builder : OnDemandSummarizeResultBuilder).

(** The synchronous part of [summarizeOnDemand(...args)]: the [try] block
    up to its [return], with the promise chain left to [bootstrap]. *)
Definition summarizeOnDemandTry (args : OnDemandArgs) (s : Summarizer)
    : Outcome Error OnDemandReturn * Summarizer :=
  if _disposed s then
    (Threw (mkError "Summarizer is already disposed."), s)
  else if strictNotEqual (summarizerClientId (runtime s)) None
          && strictNotEqual (summarizerClientId (runtime s)) (clientId (runtime s)) then
    (Threw (mkError "On-demand summary attempted while an elected summarizer is present"), s)
  else
    let builder := newBuilder in
    let running :=
      match runningSummarizer s with
      | Some rs => if negb (disposed rs) then Some rs else None
      | None => None
      end in
    match running with
    | Some rs =>
        let builder := builder_resolveStarted StageSuccess builder in
        (Returned (Forwarded (exec_summarizeOnDemand rs builder args)),
         emit (ExecSummarizeOnDemand (rs_id rs) builder args) s)
    | None =>
        let s := set_runningSummarizer None s in
        let s := emit CreateCoordinator s in
        (Returned (Bootstrapping (build builder) builder), s)
    end.

(** [summarizeOnDemand]: the [catch] wraps whatever the [try] block threw. *)
Definition summarizeOnDemand (args : OnDemandArgs) (s : Summarizer)
    : Outcome SummarizingWarning OnDemandReturn * Summarizer :=
  match summarizeOnDemandTry args s with
  | (Threw error, s) => (Threw (SummarizingWarning_wrap error "summarizerRun" false), s)
  | (Returned r, s) => (Returned r, s)
  | (Pending, s) => (Pending, s)
  end.

(** The [async] callback of [startP.then]. *)
Definition bootstrapStarted (args : OnDemandArgs) (env : RunEnv)
    (runningSummarizer : RunningSummarizer) (builder : OnDemandSummarizeResultBuilder)
    (x : Session) : Outcome Error unit * OnDemandSummarizeResultBuilder * Session :=
  let builder := builder_resolveStarted StageSuccess builder in
  let x := onThis (emit (ExecSummarizeOnDemand (rs_id runningSummarizer) builder args)) x in
  let x := createRace StopThenToken x in
  match awaitStopP (stopWait env) x with
  | (None, x) => (Pending, builder, x)
  | (Some stopReason, x) =>
      let x := onThis (emit (ExecWaitStop (rs_id runningSummarizer) false)) x in
      let x := applyEvents (during (waitStop env)) x in
      match settled (waitStop env) with
      | Rejects e => (Threw e, builder, x)
      | Resolves _ =>
          let x := onThis (emit (TokenStop stopReason)) x in
          let x := onToken (controller_stop stopReason) x in
          let x := onThis dispose x in
          let x := onThis closeFn x in
          (Returned tt, builder, x)
      end
  end.

(** [coordinatorCreateP.then(...).catch(...)]: the chain scheduled on the
    slow path, with its two [catch] handlers. *)
Definition bootstrap (args : OnDemandArgs) (env : RunEnv)
    (builder : OnDemandSummarizeResultBuilder) (s : Summarizer)
    : OnDemandSummarizeResultBuilder * Summarizer :=
  let s := applyHostCalls (during (coordinatorCreate env)) s in
  match settled (coordinatorCreate env) with
  | Rejects reason =>
      (builder_fail "Failed to create cancellation token" reason builder, s)
  | Resolves runCoordinator =>
      let x := {| this := s; controller := runCoordinator;
                  raceOrder := None; stopP := None |} in
      match start (clientId (runtime s))
                  (Some {| disableHeuristics := Some true |}) env x with
      | (Threw reason, x) =>
          (builder_fail "Failed to start summarizer" reason builder, this x)
      | (Pending, x) => (builder, this x)
      | (Returned runningSummarizer, x) =>
          match bootstrapStarted args env runningSummarizer builder x with
          | (Threw reason, builder, x) =>
              (builder_fail "Failed to start summarizer" reason builder, this x)
          | (_, builder, x) => (builder, this x)
          end
      end
  end.

(** A whole on-demand call: the synchronous part, then the bootstrap chain
    if one was scheduled.  The second component is the builder as the
    chain leaves it. *)
Definition summarizeOnDemandSession (args : OnDemandArgs) (env : RunEnv) (s : Summarizer)
    : Outcome SummarizingWarning OnDemandReturn
      * option OnDemandSummarizeResultBuilder * Summarizer :=
  match summarizeOnDemand args s with
  | (Returned (Bootstrapping results builder), s) =>
      let '(builder', s) := bootstrap args env builder s in
      (Returned (Bootstrapping results builder), Some builder', s)
  | (r, s) => (r, None, s)
  end.

(** ** Reading the effect trace *)

Definition refreshCursors (es : list Effect) : list Z :=
  flat_map (fun e => match e with
                     | RefreshLatestSummaryAck _ _ refSeq _ => [refSeq]
                     | _ => []
                     end) es.

Definition waitCursors (es : list Effect) : list Z :=
  flat_map (fun e => match e with WaitSummaryAck refSeq => [refSeq] | _ => [] end) es.

Definition waitStopFlags (es : list Effect) : list bool :=
  flat_map (fun e => match e with ExecWaitStop _ allow => [allow] | _ => [] end) es.

Definition tokenStops (es : list Effect) : list SummarizerStopReason :=
  flat_map (fun e => match e with TokenStop reason => [reason] | _ => [] end) es.

Definition closeCalls (es : list Effect) : list unit :=
  flat_map (fun e => match e with CloseFn => [tt] | _ => [] end) es.

Definition executorDisposals (es : list Effect) : list (nat * bool) :=
  flat_map (fun e => match e with ExecDispose rs seen => [(rs, seen)] | _ => [] end) es.

Definition inboundOffs (es : list Effect) : list Listener :=
  flat_map (fun e => match e with InboundOff l => [l] | _ => [] end) es.

Definition listenerRemovals (es : list Effect) : list Listener :=
  flat_map (fun e => match e with RuntimeRemoveListener l => [l] | _ => [] end) es.

Definition executorStarts (es : list Effect)
    : list (string * SummarizeHeuristicData * option ISummarizerOptions) :=
  flat_map (fun e => match e with
                     | ExecStart client data options => [(client, data, options)]
                     | _ => []
                     end) es.

Definition listenerRegistrations (es : list Effect) : list Listener :=
  flat_map (fun e => match e with InboundOn l | RuntimeOn l => [l] | _ => [] end) es.

(** ** The stop race, in the words of the specification *)

(** The reason an event resolves a still open race with. *)
Definition trigger (ev : ExtEvent) : SummarizerStopReason :=
  match ev with
  | Host (CallStop reason) => reason
  | Host CallDispose => "summarizerClientDisconnected"
  | Cancelled reason => reason
  end.

(** "Whichever was triggered first": a reason already there, else the
    reason of the first event. *)
Definition firstTriggered (already : Deferred.t SummarizerStopReason)
    (evs : list ExtEvent) : option SummarizerStopReason :=
  match already with
  | Some reason => Some reason
  | None => match evs with
            | [] => None
            | ev :: _ => Some (trigger ev)
            end
  end.

(** The stop request and the token after a list of events. *)
Definition stopRequestAfter (evs : list ExtEvent)
    (d : Deferred.t SummarizerStopReason) : Deferred.t SummarizerStopReason :=
  fold_left (fun d ev => match ev with
                         | Host _ => Deferred.resolve d (trigger ev)
                         | Cancelled _ => d
                         end) evs d.

Definition tokenAfter (evs : list ExtEvent)
    (d : Deferred.t SummarizerStopReason) : Deferred.t SummarizerStopReason :=
  fold_left (fun d ev => match ev with
                         | Host _ => d
                         | Cancelled reason => Deferred.resolve d reason
                         end) evs d.

(** While the race is open neither of its inputs is settled. *)
Definition raceOpen (x : Session) : Prop :=
  stopP x = None ->
  stopDeferred (this x) = None /\ waitCancelled (controller x) = None.

(** Whether one of the events cancels the token. *)
Definition tokenTriggered (evs : list ExtEvent) : bool :=
  existsb (fun ev => match ev with Cancelled _ => true | Host _ => false end) evs.

(** A script in which every ack arrives, with no host call in between. *)
Definition ackSteps (acks : list (IAckedSummary * Settled unit)) : list AckStep :=
  map (fun a => AckArrives [] (fst a) (mkAwait [] (snd a))) acks.







End Coordinator.

(** ** Fixtures *)

Definition testRuntime : ISummarizerRuntime :=
  {| clientId := Some "summarizer-1";
     summarizerClientId := None;
     initialSequenceNumber := 0;
     lastSequenceNumber := 3 |}.

Definition testExecutor : RunningSummarizer := {| rs_id := 1; disposed := false |}.

Definition freshSummarizer : @Summarizer unit unit := newSummarizer testRuntime.

(** A session in which everything succeeds and the token is cancelled
    with "connectivityLoss" while [run] waits. *)
Definition connectivityLossEnv : RunEnv :=
  {| coordinatorCreate := mkAwait [] (Resolves (mkController Deferred.create));
     now := 1000;
     runningStart := mkAwait [] (Resolves testExecutor);
     stopWait := [Cancelled "connectivityLoss"];
     waitStop := mkAwait [] (Resolves tt) |}.

(** The same, with the token cancelled before it is handed out. *)
Definition alreadyCancelledEnv : RunEnv :=
  {| coordinatorCreate :=
       mkAwait [] (Resolves (mkController (Some "summarizerClientDisconnected")));
     now := 1000;
     runningStart := mkAwait [] (Resolves testExecutor);
     stopWait := [];
     waitStop := mkAwait [] (Resolves tt) |}.

(** The token factory fails. *)
Definition noTokenEnv : RunEnv :=
  {| coordinatorCreate := mkAwait [] (Rejects (mkError "no token"));
     now := 1000;
     runningStart := mkAwait [] (Resolves testExecutor);
     stopWait := [];
     waitStop := mkAwait [] (Resolves tt) |}.

(** The coordinator as [start] leaves it: executor attached, both
    listeners registered. *)
Definition startedSummarizer : @Summarizer unit unit :=
  this (snd (start None None connectivityLossEnv
               {| this := freshSummarizer;
                  controller := mkController Deferred.create;
                  raceOrder := None; stopP := None |})).

Definition testAck (refSeq : Z) : IAckedSummary :=
  {| summaryOp_referenceSequenceNumber := refSeq;
     summaryOp_handle := "proposal";
     summaryAck_handle := "ack" |}.

(** Acks 5, 5, 9, 20; the refresh callback fails on the third. *)
Definition fourAcks : list (IAckedSummary * Settled unit) :=
  [ (testAck 5, Resolves tt);
    (testAck 5, Resolves tt);
    (testAck 9, Rejects (mkError "refresh failed"));
    (testAck 20, Resolves tt) ].


(** A session in which the host asks for a stop and, in the same task,
    the token is cancelled. *)
Definition stopThenCancelEnv : RunEnv :=
  {| coordinatorCreate := mkAwait [] (Resolves (mkController Deferred.create));
     now := 1000;
     runningStart := mkAwait [] (Resolves testExecutor);
     stopWait := [Host (CallStop "parentShouldNotSummarize");
                  Cancelled "connectivityLoss"];
     waitStop := mkAwait [] (Resolves tt) |}.

Definition secondExecutor : RunningSummarizer := {| rs_id := 2; disposed := false |}.

(** A session in which the token and the given executor arrive, and
    nothing happens then. *)
Definition waitingEnv (rs : RunningSummarizer) : RunEnv :=
  {| coordinatorCreate := mkAwait [] (Resolves (mkController Deferred.create));
     now := 1000;
     runningStart := mkAwait [] (Resolves rs);
     stopWait := [];
     waitStop := mkAwait [] (Resolves tt) |}.

(** * More of the coordinator's trace *)

(** The calls made on the executor, in the order they are made. *)
Inductive ExecutorCall :=
| CalledStart
| CalledSummarizeOnDemand (rs : nat)
| CalledEnqueueSummarize (rs : nat)
| CalledWaitStop (rs : nat) (allowLastSummary : bool)
| CalledDispose (rs : nat).

Definition executorCalls {OnDemandArgs EnqueueArgs : Type}
    (es : list (@Effect OnDemandArgs EnqueueArgs)) : list ExecutorCall :=
  flat_map (fun e => match e with
                     | ExecStart _ _ _ => [CalledStart]
                     | ExecSummarizeOnDemand rs _ _ => [CalledSummarizeOnDemand rs]
                     | ExecEnqueueSummarize rs _ => [CalledEnqueueSummarize rs]
                     | ExecWaitStop rs allow => [CalledWaitStop rs allow]
                     | ExecDispose rs _ => [CalledDispose rs]
                     | _ => []
                     end) es.

(** Two states of the coordinator that differ at most in the stop
    request. *)
Definition sameButStopRequest {OnDemandArgs EnqueueArgs : Type}
    (s t : @Summarizer OnDemandArgs EnqueueArgs) : Prop :=
  runtime t = runtime s
  /\ runningSummarizer t = runningSummarizer s
  /\ systemOpListener t = systemOpListener s
  /\ opListener t = opListener s
  /\ _disposed t = _disposed s
  /\ effects t = effects s
  /\ errorLog t = errorLog s.

(** Events among which the host does not dispose the coordinator. *)
Definition noHostDispose (evs : list ExtEvent) : Prop :=
  Forall (fun ev => ev <> Host CallDispose) evs.

(** A session in which the host disposes the coordinator while [run]
    waits. *)
Definition hostDisposeEnv : RunEnv :=
  {| coordinatorCreate := mkAwait [] (Resolves (mkController Deferred.create));
     now := 1000;
     runningStart := mkAwait [] (Resolves testExecutor);
     stopWait := [Host CallDispose];
     waitStop := mkAwait [] (Resolves tt) |}.

(** A session torn down by a stop request, in which [waitStop] fails. *)
Definition waitStopFailsEnv : RunEnv :=
  {| coordinatorCreate := mkAwait [] (Resolves (mkController Deferred.create));
     now := 1000;
     runningStart := mkAwait [] (Resolves testExecutor);
     stopWait := [Host (CallStop "parentShouldNotSummarize")];
     waitStop := mkAwait [] (Rejects (mkError "waitStop failed")) |}.

(** * The ink stream and its canvas

    [class Stream] (the shared ink object) and [class InkCanvas] (the
    control that draws it and feeds it from pointer events).  The
    interfaces of interfaces.ts and the [InkSnapshot] class of snapshot.ts
    are not among the files embedded here: the shape of the operations is
    read off the four [make...Operation] constructors, the shape of a
    snapshot off [emptySnapshot], and [InkSnapshot.processOperation] and
    the [getShapes] of canvasCommon are parameters. *)

(** [MessageType] of protocol-definitions, as far as [processCore] tells
    its values apart. *)
Inductive MessageType :=
| Operation
| OtherMessage (name : string).

Definition isOperation (t : MessageType) : bool :=
  match t with Operation => true | OtherMessage _ => false end.

(** The error of reading a property of [undefined]. *)
Inductive TypeError := CannotReadProperty (property : string).

(** A property key: [obj[undefined]] reads the property "undefined". *)
Definition propertyKey (id : option string) : string :=
  match id with Some k => k | None => "undefined" end.

(** The properties that an object literal inherits from
    [Object.prototype].  Read on an object that has no property of its own
    under that name, each gives a function (an object for "__proto__")
    instead of [undefined]: a value that is truthy and that no comparison
    with a number holds for. *)
Definition objectPrototypeProperties : list string :=
  [ "constructor"; "hasOwnProperty"; "isPrototypeOf"; "propertyIsEnumerable";
    "toLocaleString"; "toString"; "valueOf"; "__proto__";
    "__defineGetter__"; "__defineSetter__"; "__lookupGetter__"; "__lookupSetter__" ].

Definition inObjectPrototype (key : string) : bool :=
  existsb (String.eqb key) objectPrototypeProperties.

Section Ink.

(** Coordinates and pressures are JavaScript numbers that are only
    carried around, but for one subtraction in [EventPoint]. *)
Context {number IPen : Type}.
Variable number_sub : number -> number -> number.

Record IPoint := mkPoint { x : number; y : number }.

(** [IInkOperation]: the four shapes the constructors of [Stream] build.
    The [id] of a move or an up is whatever [currentStrokeId] holds, which
    may be [undefined]. *)
Inductive IInkOperation :=
| ClearOperation (time : Z)
| DownOperation (id : string) (pen : IPen) (point : IPoint) (pressure : number) (time : Z)
| MoveOperation (id : option string) (point : IPoint) (pressure : number) (time : Z)
| UpOperation (id : option string) (point : IPoint) (pressure : number) (time : Z).

(** [operation.type === "clear"] *)
Definition isClear (operation : IInkOperation) : bool :=
  match operation with ClearOperation _ => true | _ => false end.

(** [operation.id] *)
Definition op_id (operation : IInkOperation) : option string :=
  match operation with
  | ClearOperation _ => None
  | DownOperation id _ _ _ _ => Some id
  | MoveOperation id _ _ _ => id
  | UpOperation id _ _ _ => id
  end.

(** [operation.time] *)
Definition op_time (operation : IInkOperation) : Z :=
  match operation with
  | ClearOperation time => time
  | DownOperation _ _ _ _ time => time
  | MoveOperation _ _ _ time => time
  | UpOperation _ _ _ time => time
  end.

(** [(operation as IStylusDownOperation).pen] *)
Definition op_pen (operation : IInkOperation) : option IPen :=
  match operation with
  | DownOperation _ pen _ _ _ => Some pen
  | _ => None
  end.

(** [Stream.makeClearOperation(time)] *)
Definition makeClearOperation (time : Z) : IInkOperation := ClearOperation time.

(** [Stream.makeDownOperation(point, pressure, pen)]; [uuid] and [time]
    are what [uuid()] and [new Date().getTime()] give. *)
Definition makeDownOperation (point : IPoint) (pressure : number) (pen : IPen)
    (uuid : string) (time : Z) : IInkOperation :=
  DownOperation uuid pen point pressure time.

(** [Stream.makeMoveOperation(point, pressure, id)] *)
Definition makeMoveOperation (point : IPoint) (pressure : number) (id : option string)
    (time : Z) : IInkOperation :=
  MoveOperation id point pressure time.

(** [Stream.makeUpOperation(point, pressure, id)] *)
Definition makeUpOperation (point : IPoint) (pressure : number) (id : option string)
    (time : Z) : IInkOperation :=
  UpOperation id point pressure time.

(** [IInkStroke], as far as it is read: its operations. *)
Record IInkStroke := mkStroke { operations : list IInkOperation }.

(** [IInkSnapshot]: the strokes, and the index of each stroke by its id. *)
Record IInkSnapshot := mkSnapshot {
  strokes : list IInkStroke;
  strokeIndex : string -> option nat
}.

Definition emptySnapshot : IInkSnapshot :=
  {| strokes := []; strokeIndex := fun _ => None |}.

(** [InkSnapshot.processOperation], taken to return. *)
Variable processOperation : IInkOperation -> IInkSnapshot -> IInkSnapshot.

(** [ISequencedDocumentMessage], as far as [processCore] reads it. *)
Record ISequencedDocumentMessage := mkMessage {
  msg_type : MessageType;
  contents : IInkOperation
}.

(** [class Stream]: the snapshot, and the operations handed to
    [submitLocalMessage]. *)
Record Stream := mkStream {
  inkSnapshot : IInkSnapshot;
  localMessages : list IInkOperation
}.

(** [getStrokes()] *)
Definition getStrokes (st : Stream) : list IInkStroke := strokes (inkSnapshot st).

(** [getStroke(key)]: [strokes[strokeIndex[key]]] *)
Definition getStroke (key : string) (st : Stream) : option IInkStroke :=
  match strokeIndex (inkSnapshot st) key with
  | Some i => nth_error (strokes (inkSnapshot st)) i
  | None => None
  end.

(** [submitOperation(operation)] *)
Definition submitOperation (operation : IInkOperation) (st : Stream) : Stream :=
  {| inkSnapshot := processOperation operation (inkSnapshot st);
     localMessages := localMessages st ++ [operation] |}.

(** [processCore(message, local)] *)
Definition processCore (message : ISequencedDocumentMessage) (local : bool)
    (st : Stream) : Stream :=
  if isOperation (msg_type message) && negb local
  then {| inkSnapshot := processOperation (contents message) (inkSnapshot st);
          localMessages := localMessages st |}
  else st.

(** What happens to a stream: the application submits an operation, or
    a sequenced message is delivered. *)
Inductive StreamAction :=
| Submit (operation : IInkOperation)
| Deliver (message : ISequencedDocumentMessage) (local : bool).

Definition applyStreamAction (a : StreamAction) (st : Stream) : Stream :=
  match a with
  | Submit operation => submitOperation operation st
  | Deliver message local => processCore message local st
  end.

Definition applyStreamActions (acts : list StreamAction) (st : Stream) : Stream :=
  fold_left (fun st a => applyStreamAction a st) acts st.

(** The operations a list of actions is to apply: the submitted ones and
    the remote ones of type [Operation]. *)
Definition appliedOperations (acts : list StreamAction) : list IInkOperation :=
  flat_map (fun a => match a with
                     | Submit operation => [operation]
                     | Deliver message local =>
                         if isOperation (msg_type message) && negb local
                         then [contents message] else []
                     end) acts.

Definition submittedOperations (acts : list StreamAction) : list IInkOperation :=
  flat_map (fun a => match a with Submit operation => [operation] | _ => [] end) acts.

(** ** The canvas *)

(** [getShapes(previous, current, pen, SegmentCircleInclusive.End)] of
    canvasCommon, as far as [drawStroke] looks at its result: whether it
    gives shapes (an array, which is truthy also when empty) or nothing.
    It is taken to return, also for a [pen] that is [undefined]. *)
Variable getShapes :
  option IInkOperation -> option IInkOperation -> option IPen -> bool.

(** What the canvas does to its 2D context.  [DrawSegment previous
    current pen] stands for the block that [drawStroke] runs when
    [getShapes(previous, current, pen, ...)] gives shapes: [fillStyle] is
    set to the colour of [pen] and each shape is rendered and filled.  The
    calls on the context are taken to return. *)
Inductive CanvasCall :=
| ClearRect
| DrawImage
| DrawSegment (previous current : option IInkOperation) (pen : IPen).

(** [class InkCanvas], as far as drawing and pointer handling go.
    [lastStrokeRenderOp] holds the numbers that the object has under keys
    of its own; the properties it inherits are
    [objectPrototypeProperties]. *)
Record InkCanvas := mkCanvas {
  model : Stream;
  image : bool;                 (* whether an image was given *)
  penID : Z;
  currentStrokeId : option string;
  currentPen : IPen;
  lastStrokeRenderOp : string -> option nat;
  drawn : list CanvasCall
}.

Definition set_model (m : Stream) (c : InkCanvas) : InkCanvas :=
  {| model := m; image := image c; penID := penID c;
     currentStrokeId := currentStrokeId c; currentPen := currentPen c;
     lastStrokeRenderOp := lastStrokeRenderOp c; drawn := drawn c |}.

Definition set_penID (v : Z) (c : InkCanvas) : InkCanvas :=
  {| model := model c; image := image c; penID := v;
     currentStrokeId := currentStrokeId c; currentPen := currentPen c;
     lastStrokeRenderOp := lastStrokeRenderOp c; drawn := drawn c |}.

Definition set_currentStrokeId (v : option string) (c : InkCanvas) : InkCanvas :=
  {| model := model c; image := image c; penID := penID c;
     currentStrokeId := v; currentPen := currentPen c;
     lastStrokeRenderOp := lastStrokeRenderOp c; drawn := drawn c |}.

Definition set_lastStrokeRenderOp (v : string -> option nat) (c : InkCanvas) : InkCanvas :=
  {| model := model c; image := image c; penID := penID c;
     currentStrokeId := currentStrokeId c; currentPen := currentPen c;
     lastStrokeRenderOp := v; drawn := drawn c |}.

Definition draw (call : CanvasCall) (c : InkCanvas) : InkCanvas :=
  {| model := model c; image := image c; penID := penID c;
     currentStrokeId := currentStrokeId c; currentPen := currentPen c;
     lastStrokeRenderOp := lastStrokeRenderOp c; drawn := drawn c ++ [call] |}.

(** [this.lastStrokeRenderOp[key] = index] *)
Definition setRendered (key : string) (index : nat) (m : string -> option nat)
    : string -> option nat :=
  fun k => if String.eqb k key then Some index else m k.

(** [clearCanvas()] *)
Definition clearCanvas (c : InkCanvas) : InkCanvas :=
  let c := draw ClearRect c in
  if image c then draw DrawImage c else c.

(** [drawStroke(stroke, current, previous)]: reading [pen] off
    [stroke.operations[0]] throws when the stroke has no operation, and
    gives [undefined] when that operation is not a down operation; reading
    [pen.color] then throws, once [getShapes] has given shapes. *)
Definition drawStroke (stroke : IInkStroke) (current previous : option IInkOperation)
    (c : InkCanvas) : Outcome TypeError unit * InkCanvas :=
  match nth_error (operations stroke) 0 with
  | None => (Threw (CannotReadProperty "pen"), c)
  | Some first =>
      let pen := op_pen first in
      if getShapes previous current pen then
        match pen with
        | None => (Threw (CannotReadProperty "color"), c)
        | Some p => (Returned tt, draw (DrawSegment previous current p) c)
        end
      else (Returned tt, c)
  end.

(** The [for] loop of [handleStylusOp]; [fuel] bounds its iterations.
    The result carries the last value of [index]. *)
Fixpoint renderFrom (fuel : nat) (stroke : IInkStroke) (index : nat) (c : InkCanvas)
    : Outcome TypeError unit * nat * InkCanvas :=
  match fuel with
  | O => (Pending, index, c)
  | S fuel' =>
      if Nat.ltb index (length (operations stroke)) then
        match drawStroke stroke
                (nth_error (operations stroke) index)
                (nth_error (operations stroke) (Nat.max 0 (index - 1)%nat)) c with
        | (Returned _, c) => renderFrom fuel' stroke (index + 1)%nat c
        | (Threw e, c) => (Threw e, index, c)
        | (Pending, c) => (Pending, index, c)
        end
      else (Returned tt, index, c)
  end.

(** [handleStylusOp(operation)].  [index] is a number, or ([None]) the
    value that [lastStrokeRenderOp] inherits under the key: for that value
    [index < stroke.operations.length] does not hold, so that the loop
    does not run, and the assignment after the loop stores under the key
    what is read there already. *)
Definition handleStylusOp (operation : IInkOperation) (c : InkCanvas)
    : Outcome TypeError unit * InkCanvas :=
  let dirtyStrokeId := propertyKey (op_id operation) in
  let index :=
    match lastStrokeRenderOp c dirtyStrokeId with
    | Some n => Some (if Nat.eqb n 0 then 0%nat else n)
    | None => if inObjectPrototype dirtyStrokeId then None else Some 0%nat
    end in
  match getStroke dirtyStrokeId (model c) with
  | None => (Threw (CannotReadProperty "operations"), c)
  | Some stroke =>
      match index with
      | None => (Returned tt, c)
      | Some index =>
          match renderFrom (S (length (operations stroke))) stroke index c with
          | (Returned _, index, c) =>
              (Returned tt,
               set_lastStrokeRenderOp
                 (setRendered dirtyStrokeId index (lastStrokeRenderOp c)) c)
          | (Threw e, _, c) => (Threw e, c)
          | (Pending, _, c) => (Pending, c)
          end
      end
  end.

(** [handleClearOp()] *)
Definition handleClearOp (c : InkCanvas) : InkCanvas :=
  let c := clearCanvas c in
  set_lastStrokeRenderOp (fun _ => None) c.

(** [submitAndApplyOp(operation, submit)] *)
Definition submitAndApplyOp (operation : IInkOperation) (submit : bool)
    (c : InkCanvas) : Outcome TypeError unit * InkCanvas :=
  let c := if submit then set_model (submitOperation operation (model c)) c else c in
  if isClear operation
  then (Returned tt, handleClearOp c)
  else handleStylusOp operation c.

(** The inner loop of [redraw] over the operations of one stroke. *)
Fixpoint redrawOperations (stroke : IInkStroke) (ops : list IInkOperation)
    (previous : option IInkOperation) (c : InkCanvas)
    : Outcome TypeError unit * InkCanvas :=
  match ops with
  | [] => (Returned tt, c)
  | current :: rest =>
      match drawStroke stroke (Some current) previous c with
      | (Returned _, c) => redrawOperations stroke rest (Some current) c
      | (o, c) => (o, c)
      end
  end.

(** The outer loop of [redraw]. *)
Fixpoint redrawStrokes (ss : list IInkStroke) (c : InkCanvas)
    : Outcome TypeError unit * InkCanvas :=
  match ss with
  | [] => (Returned tt, c)
  | stroke :: rest =>
      let previous := nth_error (operations stroke) 0 in
      match redrawOperations stroke (operations stroke) previous c with
      | (Returned _, c) => redrawStrokes rest c
      | (o, c) => (o, c)
      end
  end.

(** [redraw()] *)
Definition redraw (c : InkCanvas) : Outcome TypeError unit * InkCanvas :=
  let c := clearCanvas c in
  redrawStrokes (getStrokes (model c)) c.

(** ** Replay *)

(** A timer set by [setTimeout]: its delay, and what its callback holds
    of the call of [animateStroke] that set it: the stroke, the two
    operations to draw, the index to go on from and the start time. *)
Record Timer := mkTimer {
  delay : Z;
  timer_stroke : IInkStroke;
  timer_current : option IInkOperation;
  timer_previous : option IInkOperation;
  timer_next : nat;
  timer_startTime : Z
}.

(** [animateStroke(stroke, operationIndex, startTime)]: how the call
    ends, and the timer it has set, if any. *)
Definition animateStroke (stroke : IInkStroke) (operationIndex : nat) (startTime : Z)
    : Outcome TypeError unit * list Timer :=
  if Nat.leb (length (operations stroke)) operationIndex then (Returned tt, [])
  else
    let current := nth_error (operations stroke) operationIndex in
    let previous := nth_error (operations stroke) (Nat.max 0 (operationIndex - 1)%nat) in
    match current with
    | None => (Threw (CannotReadProperty "time"), [])
    | Some cur =>
        let time :=
          if Nat.eqb operationIndex 0
          then Some (op_time cur - startTime)
          else match previous with
               | Some prev => Some (op_time cur - op_time prev)
               | None => None
               end in
        match time with
        | None => (Threw (CannotReadProperty "time"), [])
        | Some time =>
            (Returned tt,
             [ {| delay := time;
                  timer_stroke := stroke;
                  timer_current := current;
                  timer_previous := previous;
                  timer_next := (operationIndex + 1)%nat;
                  timer_startTime := startTime |} ])
        end
    end.

(** The callback of a timer: [drawStroke], then [animateStroke] for the
    next operation.  The stroke is taken not to have changed since the
    timer was set. *)
Definition fire (t : Timer) (c : InkCanvas)
    : Outcome TypeError unit * list Timer * InkCanvas :=
  match drawStroke (timer_stroke t) (timer_current t) (timer_previous t) c with
  | (Returned _, c) =>
      (animateStroke (timer_stroke t) (timer_next t) (timer_startTime t), c)
  | (Threw e, c) => (Threw e, [], c)
  | (Pending, c) => (Pending, [], c)
  end.

(** The [for] loop of [replay]; the timers set before a call throws
    stay set. *)
Fixpoint animateStrokes (ss : list IInkStroke) (startTime : Z)
    : Outcome TypeError unit * list Timer :=
  match ss with
  | [] => (Returned tt, [])
  | stroke :: rest =>
      match animateStroke stroke 0 startTime with
      | (Returned _, timers) =>
          let '(o, timers') := animateStrokes rest startTime in
          (o, (timers ++ timers')%list)
      | (o, timers) => (o, timers)
      end
  end.

(** [replay()]: the canvas is cleared and the animation of each stroke is
    started; reading the first time throws when there is no stroke, or
    when the first stroke has no operation. *)
Definition replay (c : InkCanvas)
    : Outcome TypeError unit * list Timer * InkCanvas :=
  let c := clearCanvas c in
  match nth_error (getStrokes (model c)) 0 with
  | None => (Threw (CannotReadProperty "operations"), [], c)
  | Some stroke0 =>
      match nth_error (operations stroke0) 0 with
      | None => (Threw (CannotReadProperty "time"), [], c)
      | Some op0 => (animateStrokes (getStrokes (model c)) (op_time op0), c)
      end
  end.

(** The chain that a timer starts: the timer fires, then the timer its
    callback has set, and so on, with nothing else drawing in between;
    [fuel] bounds the length of the chain.  The result lists the delays
    that were asked for, in order. *)
Fixpoint runChain (fuel : nat) (t : Timer) (c : InkCanvas)
    : Outcome TypeError unit * list Z * InkCanvas :=
  match fuel with
  | O => (Pending, [], c)
  | S fuel' =>
      match fire t c with
      | (Returned _, t' :: _, c) =>
          let '(o, delays, c) := runChain fuel' t' c in
          (o, delay t :: delays, c)
      | (o, _, c) => (o, [delay t], c)
      end
  end.

(** ** Pointer events *)

(** A [PointerEvent], with what the environment gives while it is
    handled: the bounding rectangle of the canvas, [uuid()] and
    [new Date().getTime()]. *)
Record PointerEvent := mkPointerEvent {
  pointerId : Z;
  pointerType : string;
  button : Z;
  pressure : number;
  clientX : number;
  clientY : number;
  bcr_left : number;
  bcr_top : number;
  uuid : string;
  timeNow : Z
}.

(** [new EventPoint(relative, evt).rawPosition] *)
Definition rawPosition (evt : PointerEvent) : IPoint :=
  {| x := number_sub (clientX evt) (bcr_left evt);
     y := number_sub (clientY evt) (bcr_top evt) |}.

(** Whether the pointer starts a stroke: a pen, or the left button of a
    mouse. *)
Definition startsStroke (evt : PointerEvent) : bool :=
  String.eqb (pointerType evt) "pen"
  || (String.eqb (pointerType evt) "mouse" && Z.eqb (button evt) 0).

(** [handlePointerDown(evt)] *)
Definition handlePointerDown (evt : PointerEvent) (c : InkCanvas)
    : Outcome TypeError unit * InkCanvas :=
  let c := set_penID (pointerId evt) c in
  if startsStroke evt then
    let operation := makeDownOperation (rawPosition evt) (pressure evt) (currentPen c)
                       (uuid evt) (timeNow evt) in
    let c := set_currentStrokeId (op_id operation) c in
    submitAndApplyOp operation true c
  else (Returned tt, c).

(** [handlePointerMove(evt)] *)
Definition handlePointerMove (evt : PointerEvent) (c : InkCanvas)
    : Outcome TypeError unit * InkCanvas :=
  if Z.eqb (pointerId evt) (penID c) then
    let operation := makeMoveOperation (rawPosition evt) (pressure evt)
                       (currentStrokeId c) (timeNow evt) in
    submitAndApplyOp operation true c
  else (Returned tt, c).

(** [handlePointerUp(evt)] *)
Definition handlePointerUp (evt : PointerEvent) (c : InkCanvas)
    : Outcome TypeError unit * InkCanvas :=
  if Z.eqb (pointerId evt) (penID c) then
    let c := set_penID (-1) c in
    let operation := makeUpOperation (rawPosition evt) (pressure evt)
                       (currentStrokeId c) (timeNow evt) in
    let c := set_currentStrokeId None c in
    submitAndApplyOp operation true c
  else (Returned tt, c).

(** The events the canvas listens to.  A handler that throws does not
    keep the later events from being handled. *)
Inductive CanvasEvent :=
| PointerDown (evt : PointerEvent)
| PointerMove (evt : PointerEvent)
| PointerUp (evt : PointerEvent).

Definition handleEvent (ev : CanvasEvent) (c : InkCanvas) : InkCanvas :=
  snd match ev with
      | PointerDown evt => handlePointerDown evt c
      | PointerMove evt => handlePointerMove evt c
      | PointerUp evt => handlePointerUp evt c
      end.

Definition handleEvents (evs : list CanvasEvent) (c : InkCanvas) : InkCanvas :=
  fold_left (fun c ev => handleEvent ev c) evs c.

(** The move operations a pointer's moves are turned into, for a stroke. *)
Definition movesOf (pointer : Z) (id : option string) (evs : list PointerEvent)
    : list IInkOperation :=
  flat_map (fun evt =>
              if Z.eqb (pointerId evt) pointer
              then [makeMoveOperation (rawPosition evt) (pressure evt) id (timeNow evt)]
              else []) evs.

(** ** Drawing, in terms of segments *)

(** The pen of a stroke: that of its first operation, if that is a down
    operation. *)
Definition strokePen (stroke : IInkStroke) : option IPen :=
  match nth_error (operations stroke) 0 with
  | Some first => op_pen first
  | None => None
  end.

(** The operation before operation [i] of a stroke (the first operation
    for [i = 0]). *)
Definition operationBefore (stroke : IInkStroke) (i : nat) : option IInkOperation :=
  nth_error (operations stroke) (Nat.max 0 (i - 1)%nat).

(** What shows operation [i] of a stroke: the segment from the operation
    before it, in the pen of the stroke, when [getShapes] gives shapes for
    it.  A stroke without pen shows nothing. *)
Definition segmentFor (stroke : IInkStroke) (i : nat) : list CanvasCall :=
  match strokePen stroke with
  | Some pen =>
      if getShapes (operationBefore stroke i) (nth_error (operations stroke) i) (Some pen)
      then [DrawSegment (operationBefore stroke i) (nth_error (operations stroke) i) pen]
      else []
  | None => []
  end.

(** The segments of the operations of a stroke from [index] on. *)
Definition segmentsFrom (index : nat) (stroke : IInkStroke) : list CanvasCall :=
  flat_map (segmentFor stroke)
    (seq index (length (operations stroke) - index)%nat).

(** Whether drawing the operations of a stroke from [index] on runs into
    the missing pen: the stroke has no pen, and [getShapes] gives shapes
    for one of these operations. *)
Definition blocked (index : nat) (stroke : IInkStroke) : bool :=
  match strokePen stroke with
  | Some _ => false
  | None =>
      existsb (fun i => getShapes (operationBefore stroke i)
                          (nth_error (operations stroke) i) None)
        (seq index (length (operations stroke) - index)%nat)
  end.

(** The strokes in front of the first one that is blocked. *)
Fixpoint untilBlocked (ss : list IInkStroke) : list IInkStroke :=
  match ss with
  | [] => []
  | stroke :: rest => if blocked 0 stroke then [] else stroke :: untilBlocked rest
  end.

Definition drawAll (calls : list CanvasCall) (c : InkCanvas) : InkCanvas :=
  fold_left (fun c call => draw call c) calls c.

(** The calls of [clearCanvas]. *)
Definition clearCalls (c : InkCanvas) : list CanvasCall :=
  if image c then [ClearRect; DrawImage] else [ClearRect].

(** The index up to which a stroke is known to be rendered. *)
Definition renderedUpTo (key : string) (c : InkCanvas) : nat :=
  match lastStrokeRenderOp c key with
  | Some n => n
  | None => 0%nat
  end.

(** Whether [lastStrokeRenderOp[key]] reads an inherited property. *)
Definition readsInherited (key : string) (c : InkCanvas) : bool :=
  match lastStrokeRenderOp c key with
  | Some _ => false
  | None => inObjectPrototype key
  end.

(** The time of operation [i] of a stroke. *)
Definition timeAt (stroke : IInkStroke) (i : nat) : Z :=
  match nth_error (operations stroke) i with
  | Some operation => op_time operation
  | None => 0
  end.

(** The delay [animateStroke] asks for at operation [i] of a stroke, in a
    replay started at [startTime]. *)
Definition delayFor (stroke : IInkStroke) (startTime : Z) (i : nat) : Z :=
  if Nat.eqb i 0
  then timeAt stroke i - startTime
  else timeAt stroke i - timeAt stroke (i - 1)%nat.

Definition delaysOf (stroke : IInkStroke) (startTime : Z) : list Z :=
  map (delayFor stroke startTime) (seq 0 (length (operations stroke))).

(** The sum of a list of delays. *)
Definition total (delays : list Z) : Z :=
  fold_right Z.add 0 delays.

(** The timer that [replay] sets for a stroke: none for a stroke without
    operation. *)
Definition firstTimer (startTime : Z) (stroke : IInkStroke) : list Timer :=
  match operations stroke with
  | [] => []
  | first :: _ =>
      [ {| delay := op_time first - startTime;
           timer_stroke := stroke;
           timer_current := Some first;
           timer_previous := Some first;
           timer_next := 1;
           timer_startTime := startTime |} ]
  end.

End Ink.


(** ** A drawing *)

(** A [getShapes] that gives shapes for every segment. *)
Definition alwaysShapes (previous current : option (@IInkOperation Z Z))
    (pen : option Z) : bool := true.

(** A snapshot that keeps no record of the operations. *)
Definition ignoreOperation (operation : @IInkOperation Z Z)
    (snap : @IInkSnapshot Z Z) : @IInkSnapshot Z Z := snap.

(** The stroke "stroke-1" with the given operations, in a model of its
    own. *)
Definition modelOf (ops : list (@IInkOperation Z Z)) : @Stream Z Z :=
  {| inkSnapshot :=
       {| strokes := [mkStroke ops];
          strokeIndex := fun k => if String.eqb k "stroke-1" then Some 0%nat else None |};
     localMessages := [] |}.

Definition canvasOf (m : @Stream Z Z) : @InkCanvas Z Z :=
  {| model := m; image := false; penID := -1; currentStrokeId := None;
     currentPen := 7; lastStrokeRenderOp := fun _ => None; drawn := [] |}.

Definition penDownOp : @IInkOperation Z Z :=
  makeDownOperation (mkPoint 10 10) 1 7 "stroke-1" 100.

Definition penMoveOp : @IInkOperation Z Z :=
  makeMoveOperation (mkPoint 12 11) 1 (Some "stroke-1") 130.

Definition penUpOp : @IInkOperation Z Z :=
  makeUpOperation (mkPoint 15 15) 0 (Some "stroke-1") 190.

(** The stroke of the three operations. *)
Definition penStroke : @IInkStroke Z Z := mkStroke [penDownOp; penMoveOp; penUpOp].

Definition pointerAt (id : Z) (type : string) (px py : Z) (time : Z)
    : @PointerEvent Z :=
  {| pointerId := id; pointerType := type; button := 0; pressure := 1;
     clientX := px; clientY := py; bcr_left := 8; bcr_top := 8;
     uuid := "stroke-2"; timeNow := time |}.

(** * The documents route

    The handler of [GET /:tenantId/:id] of the router that [create]
    builds.  The middleware in front of it (token check, throttling) is
    left out. *)

(** A stored document, as far as the handler reads it. *)
Record IDocument := mkDocument {
  documentId : string;
  scheduledDeletionTime : option string
}.

Record IAlfredTenant := mkTenant { tenant_id : string; tenant_key : string }.

(** Whether a string that may be [undefined] is truthy. *)
Definition truthy (v : option string) : bool :=
  match v with
  | Some s => negb (String.eqb s "")
  | None => false
  end.

Inductive ResponseBody :=
| DocumentBody (document : option IDocument)
| ErrorBody (e : Error).

(** An express response: the status code set last, and the body once
    it has been sent. *)
Record Response := mkResponse {
  statusCode : Z;
  body : option ResponseBody
}.

(** [response.status(code)] *)
Definition status (code : Z) (response : Response) : Response :=
  {| statusCode := code; body := body response |}.

(** [response.json(b)] *)
Definition json (b : ResponseBody) (response : Response) : Response :=
  {| statusCode := statusCode response; body := Some b |}.

(** [getParam(request.params, "tenantId") || appTenants[0].id], given
    what [getParam] returns. *)
Definition tenantOrFirst (param : option string) (appTenants : list IAlfredTenant)
    : TypeError + string :=
  match param with
  | Some s => if truthy param then inr s
              else match appTenants with
                   | t :: _ => inr (tenant_id t)
                   | [] => inl (CannotReadProperty "id")
                   end
  | None => match appTenants with
            | t :: _ => inr (tenant_id t)
            | [] => inl (CannotReadProperty "id")
            end
  end.

(** The handler of [GET /:tenantId/:id]: the arguments it passes to
    [storage.getDocument], and the response once the promise [documentP]
    has settled. *)
Definition getDocumentHandler (tenantParam idParam : option string)
    (appTenants : list IAlfredTenant) (documentP : Settled (option IDocument))
    (response : Response)
    : Outcome TypeError (string * option string) * Response :=
  match tenantOrFirst tenantParam appTenants with
  | inl e => (Threw e, response)
  | inr tenantId =>
      (Returned (tenantId, idParam),
       match documentP with
       | Resolves document =>
           let response :=
             if match document with
                | None => true
                | Some d => truthy (scheduledDeletionTime d)
                end
             then status 404 response
             else response in
           json (DocumentBody document) (status 200 response)
       | Rejects e => json (ErrorBody e) (status 400 response)
       end)
  end.

(** A document that is scheduled for deletion. *)
Definition expiringDocument : IDocument :=
  {| documentId := "doc-1"; scheduledDeletionTime := Some "2021-06-01T00:00:00Z" |}.

(** * Properties *)

Section Properties.

Local Open Scope list_scope.

Context {OnDemandArgs OnDemandResults EnqueueArgs EnqueueResult : Type}.
Variable exec_enqueueSummarize : RunningSummarizer -> EnqueueArgs -> EnqueueResult.
Variable exec_summarizeOnDemand :
  RunningSummarizer -> OnDemandSummarizeResultBuilder -> OnDemandArgs -> OnDemandResults.
Variable build : OnDemandSummarizeResultBuilder -> OnDemandResults.

Local Abbreviation State := (@Summarizer OnDemandArgs EnqueueArgs).
Local Abbreviation Sess := (@Session OnDemandArgs EnqueueArgs).

(** ** The stop request is write-once *)

Lemma resolve_resolved (A : Type) (d : Deferred.t A) (v w : A) :
  Deferred.resolve (Deferred.resolve d v) w = Deferred.resolve d v.
Proof. destruct d; reflexivity. Qed.

Lemma resolve_is_some (A : Type) (d : Deferred.t A) (v : A) :
  exists r, Deferred.resolve d v = Some r.
Proof. destruct d as [r|]; [exists r | exists v]; reflexivity. Qed.

Lemma stop_stopDeferred (s : State) reason :
  stopDeferred (stop reason s) = Deferred.resolve (stopDeferred s) reason.
Proof. reflexivity. Qed.

Lemma stop_when_resolved (s : State) r reason :
  stopDeferred s = Some r -> stop reason s = s.
Proof. destruct s; simpl; intros ->; reflexivity. Qed.

Lemma dispose_stopDeferred (s : State) :
  stopDeferred (dispose s)
  = Deferred.resolve (stopDeferred s) "summarizerClientDisconnected".
Proof.
  unfold dispose.
  destruct s as [rt [rs|] [l1|] [l2|] d sd es lg]; reflexivity.
Qed.

Lemma applyHostCall_resolved (c : HostCall) (s : State) r :
  stopDeferred s = Some r -> stopDeferred (applyHostCall c s) = Some r.
Proof.
  intros H. destruct c as [reason|]; unfold applyHostCall.
  - rewrite stop_stopDeferred, H. reflexivity.
  - rewrite dispose_stopDeferred, H. reflexivity.
Qed.

Lemma applyHostCalls_resolved (cs : list HostCall) (s : State) r :
  stopDeferred s = Some r -> stopDeferred (applyHostCalls cs s) = Some r.
Proof.
  revert s. induction cs as [|c cs IH]; intros s H; simpl.
  - exact H.
  - apply IH. apply applyHostCall_resolved. exact H.
Qed.

Lemma notify_this (x : Sess) : this (notify x) = this x.
Proof. unfold notify. destruct (raceOrder x), (stopP x); reflexivity. Qed.

Lemma notify_controller (x : Sess) : controller (notify x) = controller x.
Proof. unfold notify. destruct (raceOrder x), (stopP x); reflexivity. Qed.

Lemma notify_raceOrder (x : Sess) : raceOrder (notify x) = raceOrder x.
Proof. unfold notify. destruct (raceOrder x) eqn:E, (stopP x); auto. Qed.

Lemma applyEvent_this (ev : ExtEvent) (x : Sess) :
  this (applyEvent ev x)
  = match ev with
    | Host c => applyHostCall c (this x)
    | Cancelled _ => this x
    end.
Proof. unfold applyEvent. rewrite notify_this. destruct ev; reflexivity. Qed.

Lemma applyEvent_controller (ev : ExtEvent) (x : Sess) :
  controller (applyEvent ev x)
  = match ev with
    | Host _ => controller x
    | Cancelled reason => controller_stop reason (controller x)
    end.
Proof. unfold applyEvent. rewrite notify_controller. destruct ev; reflexivity. Qed.

Lemma applyEvent_raceOrder (ev : ExtEvent) (x : Sess) :
  raceOrder (applyEvent ev x) = raceOrder x.
Proof. unfold applyEvent. rewrite notify_raceOrder. destruct ev; reflexivity. Qed.

Lemma applyEvent_resolved (ev : ExtEvent) (x : Sess) r :
  stopDeferred (this x) = Some r -> stopDeferred (this (applyEvent ev x)) = Some r.
Proof.
  intros H. rewrite applyEvent_this. destruct ev; [|exact H].
  apply applyHostCall_resolved. exact H.
Qed.

Lemma applyEvents_resolved (evs : list ExtEvent) (x : Sess) r :
  stopDeferred (this x) = Some r -> stopDeferred (this (applyEvents evs x)) = Some r.
Proof.
  revert x. induction evs as [|ev evs IH]; intros x H; simpl.
  - exact H.
  - apply IH. apply applyEvent_resolved. exact H.
Qed.

Lemma awaitStopP_resolved (evs : list ExtEvent) (x : Sess) r :
  stopDeferred (this x) = Some r ->
  stopDeferred (this (snd (awaitStopP evs x))) = Some r.
Proof. intros H. exact (applyEvents_resolved evs x r H). Qed.

Lemma start_resolved onBehalfOf options env (x : Sess) r :
  stopDeferred (this x) = Some r ->
  stopDeferred (this (snd (start onBehalfOf options env x))) = Some r.
Proof.
  intros H. unfold start.
  destruct (clientId (runtime (this x))) as [client|]; [|exact H].
  match goal with
  | |- context [applyEvents ?evs ?y] =>
      pose proof (applyEvents_resolved evs y r H) as H1
  end.
  destruct (settled (runningStart env)); simpl; exact H1.
Qed.

Lemma runCore_resolved onBehalfOf options env (s : State) r :
  stopDeferred s = Some r ->
  stopDeferred (snd (runCore onBehalfOf options env s)) = Some r.
Proof.
  intros H. unfold runCore.
  pose proof (applyHostCalls_resolved (during (coordinatorCreate env))
                (emit CreateCoordinator s) r H) as H0.
  destruct (settled (coordinatorCreate env)) as [rc|e]; [|exact H0].
  destruct (cancelled rc).
  { destruct (waitCancelled rc); exact H0. }
  match goal with
  | |- context [start ?a ?b ?c ?y] =>
      pose proof (start_resolved a b c y r H0) as H1;
      destruct (start a b c y) as [[rs|e|] x1]
  end; simpl in H1; try exact H1.
  pose proof (awaitStopP_resolved (stopWait env) x1 r H1) as H2.
  destruct (awaitStopP (stopWait env) x1) as [[reason|] x2];
    simpl in H2; [|exact H2].
  match goal with
  | |- context [applyEvents ?evs ?y] =>
      pose proof (applyEvents_resolved evs y r H2) as H3
  end.
  destruct (settled (waitStop env)); simpl; exact H3.
Qed.

Lemma run_resolved onBehalfOf options env (s : State) r :
  stopDeferred s = Some r ->
  stopDeferred (snd (run onBehalfOf options env s)) = Some r.
Proof.
  intros H. unfold run.
  pose proof (runCore_resolved onBehalfOf options env s r H) as H1.
  destruct (runCore onBehalfOf options env s) as [[reason|e|] s1];
    simpl in *; try exact H1.
  - unfold closeFn. simpl. rewrite dispose_stopDeferred, H1. reflexivity.
  - unfold closeFn. simpl. rewrite dispose_stopDeferred. simpl. rewrite H1.
    reflexivity.
Qed.

(** C7.  Calling [stop(reason)] twice has the same effect as calling it
    once: the stop request is resolved by the first call, and no later
    resolution changes it, whether with the same reason or another, made
    through [stop] or [dispose], by the host or by a whole [run]. *)
Theorem stop_is_write_once :
  forall (s : State) (r1 r2 : SummarizerStopReason) (calls : list HostCall)
         onBehalfOf options env,
    stop r1 (stop r1 s) = stop r1 s
    /\ stop r2 (stop r1 s) = stop r1 s
    /\ (exists r, stopDeferred (stop r1 s) = Some r)
    /\ stopDeferred (applyHostCalls calls (stop r1 s)) = stopDeferred (stop r1 s)
    /\ stopDeferred (snd (run onBehalfOf options env (stop r1 s)))
       = stopDeferred (stop r1 s).
Proof.
  intros s r1 r2 calls onBehalfOf options env.
  destruct (resolve_is_some _ (stopDeferred s) r1) as [r Hr].
  assert (Hs : stopDeferred (stop r1 s) = Some r) by exact Hr.
  repeat split.
  - apply stop_when_resolved with (r := r). exact Hs.
  - apply stop_when_resolved with (r := r). exact Hs.
  - exists r. exact Hs.
  - rewrite Hs. apply applyHostCalls_resolved. exact Hs.
  - rewrite Hs. apply run_resolved. exact Hs.
Qed.

(** ** enqueueSummarize *)

(** C10.  [enqueueSummarize] throws, leaving the coordinator untouched,
    exactly when the coordinator is disposed or no executor that is not
    disposed is attached; otherwise it hands its arguments unchanged to
    the executor's enqueue entry and returns the executor's result, and
    the only trace it leaves is that call. *)
Theorem enqueueSummarize_forwards_or_throws :
  forall (args : EnqueueArgs) (s : State),
    ((exists e, fst (enqueueSummarize exec_enqueueSummarize args s) = Threw e)
     <-> (_disposed s = true
          \/ forall rs, runningSummarizer s = Some rs -> disposed rs = true))
    /\ (forall e, fst (enqueueSummarize exec_enqueueSummarize args s) = Threw e ->
        snd (enqueueSummarize exec_enqueueSummarize args s) = s)
    /\ (forall rs,
           _disposed s = false ->
           runningSummarizer s = Some rs ->
           disposed rs = false ->
           enqueueSummarize exec_enqueueSummarize args s
           = (Returned (exec_enqueueSummarize rs args),
              emit (ExecEnqueueSummarize (rs_id rs) args) s)).
Proof.
  intros args s. unfold enqueueSummarize.
  destruct (runningSummarizer s) as [rs|] eqn:Hrs;
    [destruct (_disposed s) eqn:Hd; [|destruct (disposed rs) eqn:Hrd]|];
    simpl; (split; [split|split]).
  (* disposed *)
  - intros _. left. reflexivity.
  - intros _. eexists. reflexivity.
  - reflexivity.
  - intros rs' H. discriminate H.
  (* executor disposed *)
  - intros _. right. intros rs' H. inversion H. subst rs'. exact Hrd.
  - intros _. eexists. reflexivity.
  - reflexivity.
  - intros rs' _ H H'. inversion H. subst rs'. congruence.
  (* running *)
  - intros [e H]. discriminate H.
  - intros [H|H]; [discriminate H|].
    specialize (H rs eq_refl). congruence.
  - intros e H. discriminate H.
  - intros rs' _ H _. inversion H. reflexivity.
  (* no executor *)
  - intros _. right. intros rs H. discriminate H.
  - intros _. eexists. reflexivity.
  - reflexivity.
  - intros rs _ H. discriminate H.
Qed.

(** ** dispose *)

Lemma dispose_effects (s : State) :
  effects (dispose s)
  = effects s
    ++ map (fun rs => ExecDispose (rs_id rs) true) (optList (runningSummarizer s))
    ++ map InboundOff (optList (systemOpListener s))
    ++ map RuntimeRemoveListener (optList (opListener s)).
Proof.
  unfold dispose.
  destruct s as [rt [rs|] [l1|] [l2|] d sd es lg]; simpl;
    rewrite <- ?app_assoc; simpl; rewrite ?app_nil_r; reflexivity.
Qed.

Lemma dispose_fields (s : State) :
  runtime (dispose s) = runtime s
  /\ runningSummarizer (dispose s) = None
  /\ systemOpListener (dispose s) = systemOpListener s
  /\ opListener (dispose s) = opListener s
  /\ _disposed (dispose s) = true
  /\ errorLog (dispose s) = errorLog s.
Proof.
  unfold dispose.
  destruct s as [rt [rs|] [l1|] [l2|] d sd es lg]; simpl; repeat split.
Qed.

Lemma concat_repeat_snoc (A : Type) (l : list A) (n : nat) :
  concat (repeat l (S n)) = concat (repeat l n) ++ l.
Proof.
  induction n as [|n IH].
  - simpl. rewrite app_nil_r. reflexivity.
  - change (concat (repeat l (S (S n)))) with (l ++ concat (repeat l (S n))).
    rewrite IH at 1. rewrite app_assoc. reflexivity.
Qed.

Lemma dispose_disposals (s : State) :
  executorDisposals (effects (dispose s))
  = executorDisposals (effects s)
    ++ map (fun rs => (rs_id rs, true)) (optList (runningSummarizer s)).
Proof.
  rewrite dispose_effects. unfold executorDisposals.
  rewrite !flat_map_app.
  destruct (runningSummarizer s), (systemOpListener s), (opListener s);
    simpl; rewrite ?app_nil_r; reflexivity.
Qed.

Lemma dispose_inboundOffs (s : State) :
  inboundOffs (effects (dispose s))
  = inboundOffs (effects s) ++ optList (systemOpListener s).
Proof.
  rewrite dispose_effects. unfold inboundOffs.
  rewrite !flat_map_app.
  destruct (runningSummarizer s), (systemOpListener s), (opListener s);
    simpl; rewrite ?app_nil_r; reflexivity.
Qed.

Lemma dispose_listenerRemovals (s : State) :
  listenerRemovals (effects (dispose s))
  = listenerRemovals (effects s) ++ optList (opListener s).
Proof.
  rewrite dispose_effects. unfold listenerRemovals.
  rewrite !flat_map_app.
  destruct (runningSummarizer s), (systemOpListener s), (opListener s);
    simpl; rewrite ?app_nil_r; reflexivity.
Qed.

(** C6, as the code has it.  [dispose()] called [n + 1] times disposes the
    executor exactly once, and does so with the disposed flag already
    set; every call resolves the stop request with
    "summarizerClientDisconnected" unless it is resolved already; the
    coordinator ends disposed with no executor attached, and its error
    callback emits nothing from then on.  The two listener handles are
    never cleared, so each call issues the two deregistration calls again:
    [n + 1] of each when the listeners were registered. *)
Theorem dispose_repeated :
  forall (n : nat) (s : State),
    executorDisposals (effects (Nat.iter (S n) dispose s))
    = executorDisposals (effects s)
      ++ map (fun rs => (rs_id rs, true)) (optList (runningSummarizer s))
    /\ inboundOffs (effects (Nat.iter (S n) dispose s))
       = inboundOffs (effects s)
         ++ concat (repeat (optList (systemOpListener s)) (S n))
    /\ listenerRemovals (effects (Nat.iter (S n) dispose s))
       = listenerRemovals (effects s)
         ++ concat (repeat (optList (opListener s)) (S n))
    /\ stopDeferred (Nat.iter (S n) dispose s)
       = Deferred.resolve (stopDeferred s) "summarizerClientDisconnected"
    /\ _disposed (Nat.iter (S n) dispose s) = true
    /\ runningSummarizer (Nat.iter (S n) dispose s) = None
    /\ systemOpListener (Nat.iter (S n) dispose s) = systemOpListener s
    /\ opListener (Nat.iter (S n) dispose s) = opListener s
    /\ (forall errorCode,
           onSummarizingError errorCode (Nat.iter (S n) dispose s)
           = Nat.iter (S n) dispose s).
Proof.
  assert (Hquiet : forall (t : State) errorCode,
             _disposed t = true -> onSummarizingError errorCode t = t)
    by (intros t errorCode Ht; unfold onSummarizingError; rewrite Ht; reflexivity).
  induction n as [|n IH]; intros s.
  - rewrite Nat.iter_succ. change (Nat.iter 0 dispose s) with s.
    destruct (dispose_fields s) as (_ & Hrs & Hl1 & Hl2 & Hd & _).
    rewrite dispose_disposals, dispose_inboundOffs, dispose_listenerRemovals,
      dispose_stopDeferred.
    cbn [repeat concat]. rewrite !app_nil_r.
    repeat split; try assumption. intros errorCode. apply Hquiet. exact Hd.
  - specialize (IH s).
    rewrite (Nat.iter_succ (S n)).
    set (t := Nat.iter (S n) dispose s) in *.
    destruct IH as (He & Hi & Hr & Hsd & Hd & Hrs & Hl1 & Hl2 & _).
    destruct (dispose_fields t) as (_ & Hrs' & Hl1' & Hl2' & Hd' & _).
    rewrite dispose_disposals, dispose_inboundOffs, dispose_listenerRemovals,
      dispose_stopDeferred.
    rewrite Hrs, Hl1, Hl2, He, Hi, Hr, Hsd. cbn [optList map].
    rewrite app_nil_r, resolve_resolved.
    rewrite (concat_repeat_snoc _ (optList (systemOpListener s)) (S n)), !app_assoc.
    rewrite (concat_repeat_snoc _ (optList (opListener s)) (S n)), !app_assoc.
    repeat split; try congruence. intros errorCode. apply Hquiet. exact Hd'.
Qed.
(** ** The summary-ack loop *)

Lemma handleSummaryAcksFrom_unfold (script : list AckStep) (c : Z) (s : State) :
  handleSummaryAcksFrom script c s
  = match runningSummarizer s with
    | None => (Returned tt, c, s)
    | Some _ =>
        match script with
        | [] => (Pending, c, emit (WaitSummaryAck c) s)
        | LoggerThrows e :: _ => (Threw e, c, s)
        | WaitRejects calls e :: rest =>
            handleSummaryAcksFrom rest (c + 1)
              (sendErrorEvent (handleSummaryAckError c c e)
                 (applyHostCalls calls (emit (WaitSummaryAck c) s)))
        | AckArrives calls ack refresh :: rest =>
            let seen := summaryOp_referenceSequenceNumber ack in
            let s1 := applyHostCalls (during refresh)
                        (emit (RefreshLatestSummaryAck (summaryOp_handle ack)
                                 (summaryAck_handle ack) seen c)
                           (applyHostCalls calls (emit (WaitSummaryAck c) s))) in
            handleSummaryAcksFrom rest (seen + 1)
              match settled refresh with
              | Resolves _ => s1
              | Rejects e => sendErrorEvent (handleSummaryAckError seen c e) s1
              end
        end
    end.
Proof. destruct script as [|[e|calls e|calls ack refresh] rest]; reflexivity. Qed.

Lemma applyHostCalls_errorLog (cs : list HostCall) (s : State) :
  errorLog (applyHostCalls cs s) = errorLog s.
Proof.
  revert s. induction cs as [|c cs IH]; intros s; simpl; [reflexivity|].
  rewrite IH. destruct c; [reflexivity|].
  apply (dispose_fields s).
Qed.

Lemma last_cons_default (A : Type) (l : list A) :
  forall a d d', last (a :: l) d = last (a :: l) d'.
Proof.
  induction l as [|b l IH]; intros a d d'; [reflexivity|].
  change (last (b :: l) d = last (b :: l) d'). apply IH.
Qed.

Lemma ackSteps_run (acks : list (IAckedSummary * Settled unit)) :
  forall (c0 : Z) (s : State) rs,
    runningSummarizer s = Some rs ->
    fst (fst (handleSummaryAcksFrom (ackSteps acks) c0 s)) = Pending
    /\ refreshCursors (effects (snd (handleSummaryAcksFrom (ackSteps acks) c0 s)))
       = refreshCursors (effects s)
         ++ map (fun a => summaryOp_referenceSequenceNumber (fst a)) acks
    /\ waitCursors (effects (snd (handleSummaryAcksFrom (ackSteps acks) c0 s)))
       = waitCursors (effects s)
         ++ c0 :: map (fun a => summaryOp_referenceSequenceNumber (fst a) + 1) acks
    /\ snd (fst (handleSummaryAcksFrom (ackSteps acks) c0 s))
       = last (map (fun a => summaryOp_referenceSequenceNumber (fst a) + 1) acks) c0.
Proof.
  induction acks as [|[ack r] acks IH]; intros c0 s rs Hrs;
    rewrite handleSummaryAcksFrom_unfold, Hrs.
  - cbn [ackSteps map fst snd last effects emit].
    unfold refreshCursors, waitCursors. rewrite !flat_map_app. simpl.
    rewrite app_nil_r. repeat split.
  - cbn [ackSteps map fst snd during settled applyHostCalls fold_left].
    fold (ackSteps acks).
    match goal with
    | |- context [handleSummaryAcksFrom (ackSteps acks) ?c ?t] =>
        set (s1 := t);
        assert (H1 : runningSummarizer s1 = Some rs)
          by (subst s1; destruct r; exact Hrs);
        assert (He : effects s1
                     = effects s
                       ++ [WaitSummaryAck c0;
                           RefreshLatestSummaryAck (summaryOp_handle ack)
                             (summaryAck_handle ack)
                             (summaryOp_referenceSequenceNumber ack) c0])
          by (subst s1; destruct r; simpl; rewrite <- app_assoc; reflexivity);
        destruct (IH c s1 rs H1) as (Ho & Hr & Hw & Hc)
    end.
    rewrite Ho, Hr, Hw, Hc, He.
    unfold refreshCursors, waitCursors. rewrite !flat_map_app. simpl.
    rewrite <- !app_assoc. simpl.
    repeat split.
    destruct acks as [|a acks]; [reflexivity|].
    cbn [map]. apply last_cons_default.
Qed.

(** C1, as the code has it.  On every ack received the refresh callback
    is invoked with the ack's own reference sequence number, and only
    afterwards is the cursor advanced to that number plus one, which is
    where the next ack is waited for; a refresh that fails does not keep
    the later acks from being processed.  For acks 5, 5, 9, 20 the
    callback sees 5, 5, 9, 20 and the waits are at 6, 6, 10, 21. *)
Theorem handleSummaryAcks_refresh_then_advance :
  forall (acks : list (IAckedSummary * Settled unit)) (s : State) rs,
    runningSummarizer s = Some rs ->
    fst (fst (handleSummaryAcks (ackSteps acks) s)) = Pending
    /\ refreshCursors (effects (snd (handleSummaryAcks (ackSteps acks) s)))
       = refreshCursors (effects s)
         ++ map (fun a => summaryOp_referenceSequenceNumber (fst a)) acks
    /\ waitCursors (effects (snd (handleSummaryAcks (ackSteps acks) s)))
       = waitCursors (effects s)
         ++ initialSequenceNumber (runtime s)
            :: map (fun a => summaryOp_referenceSequenceNumber (fst a) + 1) acks
    /\ snd (fst (handleSummaryAcks (ackSteps acks) s))
       = last (map (fun a => summaryOp_referenceSequenceNumber (fst a) + 1) acks)
           (initialSequenceNumber (runtime s)).
Proof.
  intros acks s rs Hrs. unfold handleSummaryAcks.
  exact (ackSteps_run acks (initialSequenceNumber (runtime s)) s rs Hrs).
Qed.

Lemma sameButStopRequest_refl (s : State) : sameButStopRequest s s.
Proof. repeat split. Qed.

Lemma sameButStopRequest_trans (s t u : State) :
  sameButStopRequest s t -> sameButStopRequest t u -> sameButStopRequest s u.
Proof.
  intros (A1 & A2 & A3 & A4 & A5 & A6 & A7) (B1 & B2 & B3 & B4 & B5 & B6 & B7).
  repeat split; congruence.
Qed.

Lemma applyHostCalls_only_stops (cs : list HostCall) :
  forall s : State,
    ~ In CallDispose cs -> sameButStopRequest s (applyHostCalls cs s).
Proof.
  induction cs as [|c cs IH]; intros s Hn; [apply sameButStopRequest_refl|].
  simpl. apply sameButStopRequest_trans with (t := applyHostCall c s).
  - destruct c as [reason|]; [repeat split|].
    contradiction Hn. left. reflexivity.
  - apply IH. intros Hin. apply Hn. right. exact Hin.
Qed.


Lemma applyHostCalls_app (cs1 cs2 : list HostCall) (s : State) :
  applyHostCalls (cs1 ++ cs2) s = applyHostCalls cs2 (applyHostCalls cs1 s).
Proof. unfold applyHostCalls. apply fold_left_app. Qed.



(** ** Sessions: what events do to the stop request, the token and the race *)

Lemma applyHostCall_runtime (c : HostCall) (s : State) :
  runtime (applyHostCall c s) = runtime s.
Proof. destruct c; [reflexivity|]. apply (dispose_fields s). Qed.

Lemma applyHostCalls_runtime (cs : list HostCall) (s : State) :
  runtime (applyHostCalls cs s) = runtime s.
Proof.
  revert s. induction cs as [|c cs IH]; intros s; simpl; [reflexivity|].
  rewrite IH. apply applyHostCall_runtime.
Qed.

Lemma applyHostCall_stopDeferred (c : HostCall) (s : State) :
  stopDeferred (applyHostCall c s)
  = Deferred.resolve (stopDeferred s) (trigger (Host c)).
Proof. destruct c; [reflexivity|]. apply dispose_stopDeferred. Qed.

Lemma applyEvents_cons (ev : ExtEvent) (evs : list ExtEvent) (x : Sess) :
  applyEvents (ev :: evs) x = applyEvents evs (applyEvent ev x).
Proof. reflexivity. Qed.

Lemma applyEvents_app (evs1 evs2 : list ExtEvent) (x : Sess) :
  applyEvents (evs1 ++ evs2) x = applyEvents evs2 (applyEvents evs1 x).
Proof. unfold applyEvents. apply fold_left_app. Qed.

Lemma applyEvents_runtime (evs : list ExtEvent) (x : Sess) :
  runtime (this (applyEvents evs x)) = runtime (this x).
Proof.
  revert x. induction evs as [|ev evs IH]; intros x; [reflexivity|].
  rewrite applyEvents_cons, IH, applyEvent_this.
  destruct ev; [apply applyHostCall_runtime | reflexivity].
Qed.

Lemma applyEvents_raceOrder (evs : list ExtEvent) (x : Sess) :
  raceOrder (applyEvents evs x) = raceOrder x.
Proof.
  revert x. induction evs as [|ev evs IH]; intros x; [reflexivity|].
  rewrite applyEvents_cons, IH. apply applyEvent_raceOrder.
Qed.

Lemma applyEvents_stopDeferred (evs : list ExtEvent) (x : Sess) :
  stopDeferred (this (applyEvents evs x))
  = stopRequestAfter evs (stopDeferred (this x)).
Proof.
  revert x. induction evs as [|ev evs IH]; intros x; [reflexivity|].
  rewrite applyEvents_cons, IH, applyEvent_this.
  destruct ev as [c|reason]; [|reflexivity].
  rewrite applyHostCall_stopDeferred. reflexivity.
Qed.

Lemma applyEvents_token (evs : list ExtEvent) (x : Sess) :
  waitCancelled (controller (applyEvents evs x))
  = tokenAfter evs (waitCancelled (controller x)).
Proof.
  revert x. induction evs as [|ev evs IH]; intros x; [reflexivity|].
  rewrite applyEvents_cons, IH, applyEvent_controller.
  destruct ev as [c|reason]; reflexivity.
Qed.

Lemma tokenAfter_resolved (evs : list ExtEvent) r :
  tokenAfter evs (Some r) = Some r.
Proof. induction evs as [|[c|reason] evs IH]; simpl; auto. Qed.

Lemma tokenAfter_triggered (evs : list ExtEvent) :
  Deferred.isCompleted (tokenAfter evs None) = tokenTriggered evs.
Proof.
  induction evs as [|[c|reason] evs IH]; simpl; auto.
  rewrite tokenAfter_resolved. reflexivity.
Qed.

Lemma applyEvent_stopP_kept (ev : ExtEvent) (x : Sess) r :
  stopP x = Some r -> stopP (applyEvent ev x) = Some r.
Proof.
  intros H. unfold applyEvent, notify.
  destruct ev; simpl; rewrite H; destruct (raceOrder x); exact H.
Qed.

Lemma applyEvent_settles (ev : ExtEvent) (x : Sess) o :
  raceOrder x = Some o ->
  stopP x = None ->
  stopDeferred (this x) = None ->
  waitCancelled (controller x) = None ->
  stopP (applyEvent ev x) = Some (trigger ev).
Proof.
  intros Ho Hp Hs Ht. unfold applyEvent, notify.
  destruct ev as [c|reason]; cbn [raceOrder stopP onThis onToken this controller];
    rewrite Ho, Hp; cbn [stopP]; unfold observe.
  - rewrite Ht, applyHostCall_stopDeferred, Hs. destruct o; reflexivity.
  - rewrite Hs. unfold controller_stop. cbn [waitCancelled]. rewrite Ht.
    destruct o; reflexivity.
Qed.

Lemma applyEvent_raceOpen (ev : ExtEvent) (x : Sess) o :
  raceOrder x = Some o -> raceOpen x -> raceOpen (applyEvent ev x).
Proof.
  intros Ho Hx Hp. destruct (stopP x) as [r|] eqn:Hpx.
  - rewrite (applyEvent_stopP_kept ev x r Hpx) in Hp. discriminate Hp.
  - destruct (Hx Hpx) as [Hs Ht].
    rewrite (applyEvent_settles ev x o Ho Hpx Hs Ht) in Hp. discriminate Hp.
Qed.

Lemma applyEvents_stopP (evs : list ExtEvent) :
  forall (x : Sess) o,
    raceOrder x = Some o -> raceOpen x ->
    stopP (applyEvents evs x) = firstTriggered (stopP x) evs
    /\ raceOpen (applyEvents evs x).
Proof.
  induction evs as [|ev evs IH]; intros x o Ho Hx.
  - split; [|exact Hx]. simpl. destruct (stopP x); reflexivity.
  - rewrite applyEvents_cons.
    assert (Ho' : raceOrder (applyEvent ev x) = Some o)
      by (rewrite applyEvent_raceOrder; exact Ho).
    destruct (IH (applyEvent ev x) o Ho' (applyEvent_raceOpen ev x o Ho Hx))
      as [Hp Hopen].
    split; [|exact Hopen]. rewrite Hp.
    destruct (stopP x) as [r|] eqn:Hpx.
    + rewrite (applyEvent_stopP_kept ev x r Hpx). reflexivity.
    + destruct (Hx Hpx) as [Hs Ht].
      rewrite (applyEvent_settles ev x o Ho Hpx Hs Ht). reflexivity.
Qed.

Lemma awaitStopP_spec (evs : list ExtEvent) (x : Sess) o :
  raceOrder x = Some o -> raceOpen x ->
  awaitStopP evs x = (firstTriggered (stopP x) evs, applyEvents evs x).
Proof.
  intros Ho Hx. unfold awaitStopP.
  rewrite (proj1 (applyEvents_stopP evs x o Ho Hx)). reflexivity.
Qed.

Lemma firstTriggered_app (a : Deferred.t SummarizerStopReason) (evs1 evs2 : list ExtEvent) :
  firstTriggered (firstTriggered a evs1) evs2 = firstTriggered a (evs1 ++ evs2).
Proof. destruct a as [r|]; [reflexivity|]. destruct evs1; reflexivity. Qed.

Lemma tokenAfter_app (evs1 evs2 : list ExtEvent) d :
  tokenAfter evs2 (tokenAfter evs1 d) = tokenAfter (evs1 ++ evs2) d.
Proof. unfold tokenAfter. symmetry. apply fold_left_app. Qed.

Lemma raceOpen_onThis (g : State -> State) (x : Sess) :
  stopDeferred (g (this x)) = stopDeferred (this x) ->
  raceOpen x -> raceOpen (onThis g x).
Proof.
  intros Hg Hx Hp. destruct (Hx Hp) as [Hs Ht].
  split; [|exact Ht]. cbn [this onThis]. rewrite Hg. exact Hs.
Qed.

Lemma start_success onBehalfOf options env (x : Sess) client rs :
  clientId (runtime (this x)) = Some client ->
  settled (runningStart env) = Resolves rs ->
  start onBehalfOf options env x
  = (Returned rs,
     onThis (emit (RuntimeOn (OpListener (rs_id rs))))
       (onThis (set_opListener (Some (OpListener (rs_id rs))))
          (onThis (emit (InboundOn (SystemOpListener (rs_id rs))))
             (onThis (set_systemOpListener (Some (SystemOpListener (rs_id rs))))
                (onThis (set_runningSummarizer (Some rs))
                   (applyEvents (during (runningStart env))
                      (onThis
                         (emit (ExecStart client
                                  {| lastOpSequenceNumber := lastSequenceNumber (runtime (this x));
                                     refSequenceNumber := initialSequenceNumber (runtime (this x));
                                     summaryTime := now env |}
                                  options)) x))))))).
Proof. intros Hc Hs. unfold start. rewrite Hc, Hs. reflexivity. Qed.

Lemma applyHostCalls_stopRequest (cs : list HostCall) (s : State) :
  stopDeferred (applyHostCalls cs s)
  = stopRequestAfter (map Host cs) (stopDeferred s).
Proof.
  revert s. induction cs as [|c cs IH]; intros s; [reflexivity|].
  simpl. rewrite IH, applyHostCall_stopDeferred. reflexivity.
Qed.

Section Readers.

Context {B : Type}.
Variable f : @Effect OnDemandArgs EnqueueArgs -> list B.
Hypothesis f_execDispose : forall rs seen, f (ExecDispose rs seen) = [].
Hypothesis f_inboundOff : forall l, f (InboundOff l) = [].
Hypothesis f_removeListener : forall l, f (RuntimeRemoveListener l) = [].

Lemma read_emit (e : Effect) (s : State) :
  flat_map f (effects (emit e s)) = flat_map f (effects s) ++ f e.
Proof. cbn [effects emit]. rewrite flat_map_app. simpl. rewrite app_nil_r. reflexivity. Qed.

Lemma read_dispose (s : State) :
  flat_map f (effects (dispose s)) = flat_map f (effects s).
Proof.
  rewrite dispose_effects, !flat_map_app.
  destruct (runningSummarizer s), (systemOpListener s), (opListener s); simpl;
    rewrite ?f_execDispose, ?f_inboundOff, ?f_removeListener, ?app_nil_r;
    reflexivity.
Qed.

Lemma read_applyHostCalls (cs : list HostCall) (s : State) :
  flat_map f (effects (applyHostCalls cs s)) = flat_map f (effects s).
Proof.
  revert s. induction cs as [|c cs IH]; intros s; simpl; [reflexivity|].
  rewrite IH. destruct c; [reflexivity|]. apply read_dispose.
Qed.

Lemma read_applyEvents (evs : list ExtEvent) (x : Sess) :
  flat_map f (effects (this (applyEvents evs x))) = flat_map f (effects (this x)).
Proof.
  revert x. induction evs as [|ev evs IH]; intros x; [reflexivity|].
  rewrite applyEvents_cons, IH, applyEvent_this.
  destruct ev as [[reason|]|reason]; try reflexivity. apply read_dispose.
Qed.

Lemma read_runCore_completes onBehalfOf options env (s : State) rc client rs u reason :
  settled (coordinatorCreate env) = Resolves rc ->
  cancelled rc = false ->
  clientId (runtime s) = Some client ->
  settled (runningStart env) = Resolves rs ->
  settled (waitStop env) = Resolves u ->
  firstTriggered
    (stopDeferred (applyHostCalls (during (coordinatorCreate env)) (emit CreateCoordinator s)))
    (during (runningStart env) ++ stopWait env) = Some reason ->
  fst (runCore onBehalfOf options env s) = Returned reason
  /\ flat_map f (effects (snd (runCore onBehalfOf options env s)))
     = flat_map f (effects s)
       ++ f CreateCoordinator
       ++ f (ExecStart client
               {| lastOpSequenceNumber := lastSequenceNumber (runtime s);
                  refSequenceNumber := initialSequenceNumber (runtime s);
                  summaryTime := now env |} options)
       ++ f (InboundOn (SystemOpListener (rs_id rs)))
       ++ f (RuntimeOn (OpListener (rs_id rs)))
       ++ f (ExecWaitStop (rs_id rs)
               (negb (tokenTriggered (during (runningStart env) ++ stopWait env))))
       ++ f (TokenStop reason).
Proof.
  intros Hcreate Hcanc Hclient Hstart Hwait Hfirst.
  set (s0 := applyHostCalls (during (coordinatorCreate env)) (emit CreateCoordinator s)) in *.
  assert (Hrt : runtime s0 = runtime s)
    by (subst s0; rewrite applyHostCalls_runtime; reflexivity).
  assert (Htok : waitCancelled rc = None)
    by (unfold cancelled in Hcanc; destruct (waitCancelled rc); [discriminate|reflexivity]).
  unfold runCore. fold s0. rewrite Hcreate, Hcanc.
  set (x0 := createRace TokenThenStop
               {| this := s0; controller := rc; raceOrder := None; stopP := None |}).
  assert (Hc0 : clientId (runtime (this x0)) = Some client)
    by (subst x0; cbn [this createRace]; rewrite Hrt; exact Hclient).
  rewrite (start_success (Some onBehalfOf) options env x0 client rs Hc0 Hstart).
  match goal with
  | |- context [applyEvents (during (runningStart env)) ?y] => set (xa := y)
  end.
  assert (Hoa : raceOrder xa = Some TokenThenStop) by reflexivity.
  assert (Hpa : stopP xa = stopDeferred s0)
    by (subst xa x0; cbn [stopP onThis createRace this controller observe];
        rewrite Htok; reflexivity).
  assert (Hopen : raceOpen xa).
  { intros Hp. rewrite Hpa in Hp. split; [exact Hp|exact Htok]. }
  destruct (applyEvents_stopP (during (runningStart env)) xa TokenThenStop Hoa Hopen)
    as [Hpe Hope].
  set (xe := applyEvents (during (runningStart env)) xa) in *.
  match goal with
  | |- context [awaitStopP (stopWait env) ?y] => set (x1 := y)
  end.
  assert (Ho1 : raceOrder x1 = Some TokenThenStop).
  { subst x1. cbn [raceOrder onThis]. subst xe. rewrite applyEvents_raceOrder. exact Hoa. }
  assert (Hp1 : stopP x1 = firstTriggered (stopDeferred s0) (during (runningStart env))).
  { subst x1. cbn [stopP onThis]. rewrite Hpe, Hpa. reflexivity. }
  assert (Hopen1 : raceOpen x1).
  { subst x1. repeat (apply raceOpen_onThis; [reflexivity|]). exact Hope. }
  rewrite (awaitStopP_spec (stopWait env) x1 TokenThenStop Ho1 Hopen1).
  rewrite Hp1, firstTriggered_app, Hfirst.
  set (x2 := applyEvents (stopWait env) x1).
  assert (Hflag : cancelled (controller x2)
                  = tokenTriggered (during (runningStart env) ++ stopWait env)).
  { unfold cancelled. subst x2. rewrite applyEvents_token.
    subst x1. cbn [controller onThis]. subst xe. rewrite applyEvents_token.
    subst xa x0. cbn [controller onThis createRace]. rewrite Htok.
    rewrite tokenAfter_app. apply tokenAfter_triggered. }
  rewrite Hflag, Hwait. cbn [fst snd this onThis onToken].
  split; [reflexivity|].
  rewrite read_emit, read_applyEvents. cbn [this onThis].
  rewrite read_emit. subst x2. rewrite read_applyEvents.
  subst x1. cbn [this onThis]. rewrite read_emit.
  cbn [effects set_opListener].
  rewrite read_emit. cbn [effects set_systemOpListener set_runningSummarizer].
  subst xe. rewrite read_applyEvents. subst xa. cbn [this onThis].
  rewrite read_emit. subst x0. cbn [this createRace].
  subst s0. rewrite read_applyHostCalls, read_emit.
  rewrite applyHostCalls_runtime. cbn [runtime emit].
  rewrite <- !app_assoc. reflexivity.
Qed.

Lemma read_awaitStopP (evs : list ExtEvent) (x : Sess) :
  flat_map f (effects (this (snd (awaitStopP evs x))))
  = flat_map f (effects (this x)).
Proof. exact (read_applyEvents evs x). Qed.

Lemma read_start onBehalfOf options env (x : Sess) :
  (forall client data opts, f (ExecStart client data opts) = []) ->
  (forall l, f (InboundOn l) = []) ->
  (forall l, f (RuntimeOn l) = []) ->
  flat_map f (effects (this (snd (start onBehalfOf options env x))))
  = flat_map f (effects (this x)).
Proof.
  intros Hs Hi Hr. unfold start.
  destruct (clientId (runtime (this x))) as [client|]; [|reflexivity].
  destruct (settled (runningStart env)) as [rs|e]; cbn [snd this onThis].
  - rewrite read_emit. cbn [effects set_opListener]. rewrite read_emit.
    cbn [effects set_systemOpListener set_runningSummarizer].
    rewrite read_applyEvents. cbn [this onThis]. rewrite read_emit.
    rewrite Hs, Hi, Hr, !app_nil_r. reflexivity.
  - rewrite read_applyEvents. cbn [this onThis]. rewrite read_emit.
    rewrite Hs, app_nil_r. reflexivity.
Qed.

Lemma read_runCore onBehalfOf options env (s : State) :
  f CreateCoordinator = [] ->
  (forall client data opts, f (ExecStart client data opts) = []) ->
  (forall l, f (InboundOn l) = []) ->
  (forall l, f (RuntimeOn l) = []) ->
  (forall rs allow, f (ExecWaitStop rs allow) = []) ->
  (forall reason, f (TokenStop reason) = []) ->
  flat_map f (effects (snd (runCore onBehalfOf options env s)))
  = flat_map f (effects s).
Proof.
  intros Hc Hs Hi Hr Hw Ht. unfold runCore.
  assert (H0 : flat_map f (effects (applyHostCalls (during (coordinatorCreate env))
                                      (emit CreateCoordinator s)))
               = flat_map f (effects s))
    by (rewrite read_applyHostCalls, read_emit, Hc, app_nil_r; reflexivity).
  destruct (settled (coordinatorCreate env)) as [rc|e]; [|exact H0].
  destruct (cancelled rc).
  { destruct (waitCancelled rc); exact H0. }
  match goal with
  | |- context [start ?a ?b ?c ?y] =>
      pose proof (read_start a b c y Hs Hi Hr) as H1;
      destruct (start a b c y) as [[rs|e|] x1]
  end; cbn [snd fst this createRace] in H1; rewrite H0 in H1; try exact H1.
  pose proof (read_awaitStopP (stopWait env) x1) as H2. rewrite H1 in H2.
  destruct (awaitStopP (stopWait env) x1) as [[reason|] x2];
    cbn [snd] in H2; [|exact H2].
  destruct (settled (waitStop env)); cbn [snd this onThis onToken].
  - rewrite read_emit, read_applyEvents. cbn [this onThis].
    rewrite read_emit, Hw, Ht, !app_nil_r. exact H2.
  - rewrite read_applyEvents. cbn [this onThis].
    rewrite read_emit, Hw, app_nil_r. exact H2.
Qed.

Lemma read_bootstrap_completes args env builder (s : State) rc client rs u reason :
  settled (coordinatorCreate env) = Resolves rc ->
  clientId (runtime s) = Some client ->
  settled (runningStart env) = Resolves rs ->
  settled (waitStop env) = Resolves u ->
  firstTriggered
    (Deferred.race
       (stopRequestAfter
          (map Host (during (coordinatorCreate env)) ++ during (runningStart env))
          (stopDeferred s))
       (tokenAfter (during (runningStart env)) (waitCancelled rc)))
    (stopWait env) = Some reason ->
  fst (bootstrap args env builder s) = builder_resolveStarted StageSuccess builder
  /\ _disposed (snd (bootstrap args env builder s)) = true
  /\ runningSummarizer (snd (bootstrap args env builder s)) = None
  /\ flat_map f (effects (snd (bootstrap args env builder s)))
     = flat_map f (effects s)
       ++ f (ExecStart client
               {| lastOpSequenceNumber := lastSequenceNumber (runtime s);
                  refSequenceNumber := initialSequenceNumber (runtime s);
                  summaryTime := now env |}
               (Some {| disableHeuristics := Some true |}))
       ++ f (InboundOn (SystemOpListener (rs_id rs)))
       ++ f (RuntimeOn (OpListener (rs_id rs)))
       ++ f (ExecSummarizeOnDemand (rs_id rs)
               (builder_resolveStarted StageSuccess builder) args)
       ++ f (ExecWaitStop (rs_id rs) false)
       ++ f (TokenStop reason)
       ++ f CloseFn.
Proof.
  intros Hcreate Hclient Hstart Hwait Hfirst.
  set (s0 := applyHostCalls (during (coordinatorCreate env)) s) in *.
  assert (Hrt : runtime s0 = runtime s) by (subst s0; apply applyHostCalls_runtime).
  assert (Hsd0 : stopDeferred s0
                 = stopRequestAfter (map Host (during (coordinatorCreate env)))
                     (stopDeferred s))
    by (subst s0; apply applyHostCalls_stopRequest).
  unfold bootstrap. fold s0. rewrite Hcreate.
  set (x0 := {| this := s0; controller := rc; raceOrder := None; stopP := None |}).
  assert (Hc0 : clientId (runtime (this x0)) = Some client)
    by (subst x0; cbn [this]; rewrite Hrt; exact Hclient).
  rewrite Hrt.
  rewrite (start_success (clientId (runtime s)) _ env x0 client rs Hc0 Hstart).
  match goal with
  | |- context [applyEvents (during (runningStart env)) ?y] => set (xa := y)
  end.
  set (xe := applyEvents (during (runningStart env)) xa).
  unfold bootstrapStarted.
  match goal with
  | |- context [awaitStopP (stopWait env) ?y] => set (x1 := y)
  end.
  assert (Hs1 : stopDeferred (this x1)
                = stopRequestAfter
                    (map Host (during (coordinatorCreate env)) ++ during (runningStart env))
                    (stopDeferred s)).
  { subst x1.
    cbn [this onThis createRace stopDeferred emit set_opListener
           set_systemOpListener set_runningSummarizer].
    subst xe.
    rewrite applyEvents_stopDeferred. subst xa x0.
    cbn [this onThis stopDeferred emit].
    rewrite Hsd0. unfold stopRequestAfter. symmetry. apply fold_left_app. }
  assert (Ht1 : waitCancelled (controller x1)
                = tokenAfter (during (runningStart env)) (waitCancelled rc)).
  { subst x1. cbn [controller onThis createRace]. subst xe.
    rewrite applyEvents_token. reflexivity. }
  assert (Ho1 : raceOrder x1 = Some StopThenToken) by reflexivity.
  assert (Hp1 : stopP x1
                = Deferred.race (stopDeferred (this x1)) (waitCancelled (controller x1)))
    by reflexivity.
  assert (Hopen1 : raceOpen x1).
  { intros Hp. rewrite Hp1 in Hp.
    destruct (stopDeferred (this x1)); [discriminate Hp|]. split; [reflexivity|exact Hp]. }
  rewrite (awaitStopP_spec (stopWait env) x1 StopThenToken Ho1 Hopen1).
  rewrite Hp1, Hs1, Ht1, Hfirst, Hwait.
  set (x2 := applyEvents (stopWait env) x1).
  cbn [fst snd this onThis onToken].
  match goal with
  | |- context [dispose ?t] =>
      destruct (dispose_fields t) as (_ & Hrs & _ & _ & Hd & _)
  end.
  repeat split; try assumption.
  unfold closeFn. rewrite read_emit, read_dispose, read_emit, read_applyEvents.
  cbn [this onThis]. rewrite read_emit. subst x2. rewrite read_applyEvents.
  subst x1. cbn [this onThis createRace]. rewrite read_emit.
  cbn [this onThis]. rewrite read_emit. cbn [effects set_opListener].
  rewrite read_emit. cbn [effects set_systemOpListener set_runningSummarizer].
  subst xe. rewrite read_applyEvents. subst xa. cbn [this onThis].
  rewrite read_emit. subst x0. cbn [this]. rewrite Hrt.
  subst s0. rewrite read_applyHostCalls.
  rewrite <- !app_assoc. reflexivity.
Qed.

End Readers.

(** ** run *)

Lemma runCore_cancelled onBehalfOf options env (s : State) rc :
  settled (coordinatorCreate env) = Resolves rc ->
  cancelled rc = true ->
  exists reason,
    waitCancelled rc = Some reason
    /\ runCore onBehalfOf options env s
       = (Returned reason,
          applyHostCalls (during (coordinatorCreate env)) (emit CreateCoordinator s)).
Proof.
  intros Hcreate Hc. unfold runCore. rewrite Hcreate, Hc.
  unfold cancelled in Hc. destruct (waitCancelled rc) as [reason|]; [|discriminate Hc].
  exists reason. split; reflexivity.
Qed.

Lemma runCore_waits_for_a_trigger onBehalfOf options env (s : State) rc client rs :
  settled (coordinatorCreate env) = Resolves rc ->
  cancelled rc = false ->
  clientId (runtime s) = Some client ->
  settled (runningStart env) = Resolves rs ->
  firstTriggered
    (stopDeferred (applyHostCalls (during (coordinatorCreate env)) (emit CreateCoordinator s)))
    (during (runningStart env) ++ stopWait env) = None ->
  fst (runCore onBehalfOf options env s) = Pending.
Proof.
  intros Hcreate Hcanc Hclient Hstart Hfirst.
  set (s0 := applyHostCalls (during (coordinatorCreate env)) (emit CreateCoordinator s)) in *.
  assert (Hrt : runtime s0 = runtime s)
    by (subst s0; rewrite applyHostCalls_runtime; reflexivity).
  assert (Htok : waitCancelled rc = None)
    by (unfold cancelled in Hcanc; destruct (waitCancelled rc); [discriminate|reflexivity]).
  unfold runCore. fold s0. rewrite Hcreate, Hcanc.
  set (x0 := createRace TokenThenStop
               {| this := s0; controller := rc; raceOrder := None; stopP := None |}).
  assert (Hc0 : clientId (runtime (this x0)) = Some client)
    by (subst x0; cbn [this createRace]; rewrite Hrt; exact Hclient).
  rewrite (start_success (Some onBehalfOf) options env x0 client rs Hc0 Hstart).
  match goal with
  | |- context [applyEvents (during (runningStart env)) ?y] => set (xa := y)
  end.
  assert (Hoa : raceOrder xa = Some TokenThenStop) by reflexivity.
  assert (Hpa : stopP xa = stopDeferred s0)
    by (subst xa x0; cbn [stopP onThis createRace this controller observe];
        rewrite Htok; reflexivity).
  assert (Hopen : raceOpen xa).
  { intros Hp. rewrite Hpa in Hp. split; [exact Hp|exact Htok]. }
  destruct (applyEvents_stopP (during (runningStart env)) xa TokenThenStop Hoa Hopen)
    as [Hpe Hope].
  set (xe := applyEvents (during (runningStart env)) xa) in *.
  match goal with
  | |- context [awaitStopP (stopWait env) ?y] => set (x1 := y)
  end.
  assert (Ho1 : raceOrder x1 = Some TokenThenStop).
  { subst x1. cbn [raceOrder onThis]. subst xe. rewrite applyEvents_raceOrder. exact Hoa. }
  assert (Hp1 : stopP x1 = firstTriggered (stopDeferred s0) (during (runningStart env))).
  { subst x1. cbn [stopP onThis]. rewrite Hpe, Hpa. reflexivity. }
  assert (Hopen1 : raceOpen x1).
  { subst x1. repeat (apply raceOpen_onThis; [reflexivity|]). exact Hope. }
  rewrite (awaitStopP_spec (stopWait env) x1 TokenThenStop Ho1 Hopen1).
  rewrite Hp1, firstTriggered_app, Hfirst. reflexivity.
Qed.

(** C4.  When the token obtained by [run] is already cancelled, [run]
    returns the token's reason, and neither starts an executor nor
    registers a listener nor asks an executor to stop: all it does is the
    teardown of its [finally] block. *)
Theorem run_with_cancelled_token :
  forall onBehalfOf options env (s : State) rc,
    settled (coordinatorCreate env) = Resolves rc ->
    cancelled rc = true ->
    exists reason,
      waitCancelled rc = Some reason
      /\ run onBehalfOf options env s
         = (Returned reason,
            closeFn (dispose (applyHostCalls (during (coordinatorCreate env))
                                (emit CreateCoordinator s))))
      /\ executorStarts (effects (snd (run onBehalfOf options env s)))
         = executorStarts (effects s)
      /\ listenerRegistrations (effects (snd (run onBehalfOf options env s)))
         = listenerRegistrations (effects s)
      /\ waitStopFlags (effects (snd (run onBehalfOf options env s)))
         = waitStopFlags (effects s).
Proof.
  intros onBehalfOf options env s rc Hcreate Hc.
  destruct (runCore_cancelled onBehalfOf options env s rc Hcreate Hc)
    as (reason & Htok & Hcore).
  exists reason. split; [exact Htok|].
  unfold run. rewrite Hcore. split; [reflexivity|].
  cbn [snd]. unfold closeFn, executorStarts, listenerRegistrations, waitStopFlags.
  repeat split;
    rewrite read_emit, read_dispose, read_applyHostCalls, read_emit;
    try (intros; reflexivity);
    cbn; rewrite !app_nil_r; reflexivity.
Qed.

(** C5.  Whenever the body of [run] throws, [run] asks for a stop with
    "summarizerException", so that the stop request holds that reason
    unless it held one already, and throws a [SummarizingWarning] made
    from the error: it has the message of the error, the code
    "summarizerRun", is not marked as logged and can be retried.  The
    [finally] block has then run; and whenever [run] settles, with a
    reason or with an error, that block has disposed the coordinator and
    then called [closeFn], once. *)
Theorem run_failure_and_finally :
  forall onBehalfOf options env (s : State),
    (forall error,
        fst (runCore onBehalfOf options env s) = Threw error ->
        exists w,
          fst (run onBehalfOf options env s) = Threw w
          /\ errorMessage w = message error
          /\ fluidErrorCode w = "summarizerRun"
          /\ logged w = false
          /\ errorType w = "summarizingError"
          /\ canRetry w = true
          /\ stopDeferred (snd (run onBehalfOf options env s))
             = Deferred.resolve (stopDeferred (snd (runCore onBehalfOf options env s)))
                 "summarizerException"
          /\ snd (run onBehalfOf options env s)
             = closeFn (dispose (stop "summarizerException"
                                   (snd (runCore onBehalfOf options env s)))))
    /\ (fst (run onBehalfOf options env s) <> Pending ->
        (exists s1, snd (run onBehalfOf options env s) = closeFn (dispose s1))
        /\ _disposed (snd (run onBehalfOf options env s)) = true
        /\ runningSummarizer (snd (run onBehalfOf options env s)) = None
        /\ closeCalls (effects (snd (run onBehalfOf options env s)))
           = closeCalls (effects s) ++ [tt]).
Proof.
  intros onBehalfOf options env s.
  pose proof (read_runCore
                (fun e : @Effect OnDemandArgs EnqueueArgs =>
                   match e with CloseFn => [tt] | _ => [] end)
                (fun _ _ => eq_refl) (fun _ => eq_refl) (fun _ => eq_refl)
                onBehalfOf options env s eq_refl
                (fun _ _ _ => eq_refl) (fun _ => eq_refl) (fun _ => eq_refl)
                (fun _ _ => eq_refl) (fun _ => eq_refl)) as Hclose.
  unfold run.
  destruct (runCore onBehalfOf options env s) as [[reason|e|] s1];
    cbn [fst snd] in *.
  - split; [intros error H; discriminate H|]. intros _.
    destruct (dispose_fields s1) as (_ & Hrs & _ & _ & Hd & _).
    repeat split; try assumption.
    + exists s1. reflexivity.
    + unfold closeFn, closeCalls in *.
      rewrite read_emit, read_dispose, Hclose by (intros; reflexivity).
      reflexivity.
  - split.
    + intros error H. inversion H; subst error.
      eexists. split; [reflexivity|].
      repeat split.
      unfold closeFn. cbn [stopDeferred emit].
      rewrite dispose_stopDeferred, stop_stopDeferred. apply resolve_resolved.
    + intros _.
      destruct (dispose_fields (stop "summarizerException" s1))
        as (_ & Hrs & _ & _ & Hd & _).
      repeat split; try assumption.
      * eexists. reflexivity.
      * unfold closeFn, closeCalls in *.
        rewrite read_emit, read_dispose by (intros; reflexivity).
        cbn [effects stop set_stopDeferred]. rewrite Hclose. reflexivity.
  - split; [intros error H; discriminate H|]. intros H. contradiction H. reflexivity.
Qed.

(** C2, as the code has it.  In a session whose token is not cancelled
    when it is obtained and whose executor starts and stops normally,
    [run] stays pending until the stop request or the token is triggered
    and then returns the reason of whichever was triggered first.  It asks
    the executor to stop once, with [allowLastSummary] true exactly when
    the token has not been cancelled by the time of the call, that is, by
    none of the events that precede the resumption of [run], whichever of
    them settled the race; it hands the reason to the token's [stop]; it
    calls [closeFn] once.  So a token cancelled with "connectivityLoss"
    makes [run] return "connectivityLoss" after [waitStop(false)]. *)
Theorem run_returns_first_triggered :
  forall onBehalfOf options env (s : State) rc client rs,
    settled (coordinatorCreate env) = Resolves rc ->
    cancelled rc = false ->
    clientId (runtime s) = Some client ->
    settled (runningStart env) = Resolves rs ->
    settled (waitStop env) = Resolves tt ->
    (firstTriggered
       (stopDeferred (applyHostCalls (during (coordinatorCreate env))
                        (emit CreateCoordinator s)))
       (during (runningStart env) ++ stopWait env) = None ->
     fst (run onBehalfOf options env s) = Pending)
    /\ (forall reason,
           firstTriggered
             (stopDeferred (applyHostCalls (during (coordinatorCreate env))
                              (emit CreateCoordinator s)))
             (during (runningStart env) ++ stopWait env) = Some reason ->
           fst (run onBehalfOf options env s) = Returned reason
           /\ waitStopFlags (effects (snd (run onBehalfOf options env s)))
              = waitStopFlags (effects s)
                ++ [negb (tokenTriggered (during (runningStart env) ++ stopWait env))]
           /\ tokenStops (effects (snd (run onBehalfOf options env s)))
              = tokenStops (effects s) ++ [reason]
           /\ closeCalls (effects (snd (run onBehalfOf options env s)))
              = closeCalls (effects s) ++ [tt]).
Proof.
  intros onBehalfOf options env s rc client rs Hcreate Hc Hclient Hstart Hwait.
  split.
  { intros Hnone.
    pose proof (runCore_waits_for_a_trigger onBehalfOf options env s rc client rs
                  Hcreate Hc Hclient Hstart Hnone) as Hp.
    unfold run. destruct (runCore onBehalfOf options env s) as [o s1].
    cbn [fst] in Hp. subst o. reflexivity. }
  intros reason Hfirst.
  pose proof (fun B f h1 h2 h3 =>
                @read_runCore_completes B f h1 h2 h3 onBehalfOf options env s
                  rc client rs tt reason Hcreate Hc Hclient Hstart Hwait Hfirst)
    as Hread.
  unfold run.
  destruct (runCore onBehalfOf options env s) as [o s1]. cbn [fst snd] in Hread.
  assert (Ho : o = Returned reason).
  { exact (proj1 (Hread unit (fun _ => []) (fun _ _ => eq_refl)
                    (fun _ => eq_refl) (fun _ => eq_refl))). }
  subst o. cbn [fst snd]. split; [reflexivity|].
  unfold closeFn, waitStopFlags, tokenStops, closeCalls.
  repeat split; rewrite read_emit, read_dispose by (intros; reflexivity).
  - rewrite (proj2 (Hread _ _ (fun _ _ => eq_refl) (fun _ => eq_refl) (fun _ => eq_refl))).
    cbn. rewrite !app_nil_r. reflexivity.
  - rewrite (proj2 (Hread _ _ (fun _ _ => eq_refl) (fun _ => eq_refl) (fun _ => eq_refl))).
    cbn. rewrite !app_nil_r. reflexivity.
  - rewrite (proj2 (Hread _ _ (fun _ _ => eq_refl) (fun _ => eq_refl) (fun _ => eq_refl))).
    cbn. rewrite !app_nil_r. reflexivity.
Qed.

(** ** summarizeOnDemand *)

Lemma strictNotEqual_true (a b : option string) :
  strictNotEqual a b = true <-> a <> b.
Proof.
  destruct a as [x|], b as [y|]; simpl; split; intros H;
    try discriminate; try congruence; try reflexivity.
  - apply negb_true_iff, String.eqb_neq in H. congruence.
  - apply negb_true_iff, String.eqb_neq. congruence.
Qed.

Lemma electedElsewhere (s : State) :
  strictNotEqual (summarizerClientId (runtime s)) None
  && strictNotEqual (summarizerClientId (runtime s)) (clientId (runtime s)) = true
  <-> exists elected,
        summarizerClientId (runtime s) = Some elected
        /\ clientId (runtime s) <> Some elected.
Proof.
  rewrite andb_true_iff, !strictNotEqual_true. split.
  - intros [H1 H2]. destruct (summarizerClientId (runtime s)) as [elected|];
      [|contradiction H1; reflexivity].
    exists elected. split; [reflexivity|congruence].
  - intros (elected & H1 & H2). rewrite H1. split; congruence.
Qed.


Lemma summarizeOnDemand_slow (args : OnDemandArgs) (s : State) :
  _disposed s = false ->
  (forall elected,
      summarizerClientId (runtime s) = Some elected ->
      clientId (runtime s) = Some elected) ->
  (forall rs, runningSummarizer s = Some rs -> disposed rs = true) ->
  summarizeOnDemand exec_summarizeOnDemand build args s
  = (Returned (Bootstrapping (build newBuilder) newBuilder),
     emit CreateCoordinator (set_runningSummarizer None s)).
Proof.
  intros Hd He Hrs. unfold summarizeOnDemand, summarizeOnDemandTry. rewrite Hd.
  destruct (strictNotEqual (summarizerClientId (runtime s)) None
            && strictNotEqual (summarizerClientId (runtime s)) (clientId (runtime s)))
    eqn:E.
  { apply electedElsewhere in E. destruct E as (elected & H1 & H2).
    contradiction H2. apply He. exact H1. }
  destruct (runningSummarizer s) as [rs|] eqn:Hr; [|reflexivity].
  rewrite (Hrs rs eq_refl). reflexivity.
Qed.

(** C9.  With no live executor attached, [summarizeOnDemand] starts one
    with heuristics disabled; once it has started, the teardown that
    follows waits for the first of the stop request and the new token's
    cancellation, calls [waitStop(false)], stops the token with that
    reason, disposes the coordinator and closes the runtime. *)
Theorem onDemand_bootstrap_teardown :
  forall (args : OnDemandArgs) env (s : State) rc client rs reason,
    _disposed s = false ->
    (forall elected,
        summarizerClientId (runtime s) = Some elected ->
        clientId (runtime s) = Some elected) ->
    (forall rs0, runningSummarizer s = Some rs0 -> disposed rs0 = true) ->
    settled (coordinatorCreate env) = Resolves rc ->
    clientId (runtime s) = Some client ->
    settled (runningStart env) = Resolves rs ->
    settled (waitStop env) = Resolves tt ->
    firstTriggered
      (Deferred.race
         (stopRequestAfter
            (map Host (during (coordinatorCreate env)) ++ during (runningStart env))
            (stopDeferred s))
         (tokenAfter (during (runningStart env)) (waitCancelled rc)))
      (stopWait env) = Some reason ->
    fst (summarizeOnDemandSession exec_summarizeOnDemand build args env s)
    = (Returned (Bootstrapping (build newBuilder) newBuilder),
       Some (builder_resolveStarted StageSuccess newBuilder))
    /\ executorStarts
         (effects (snd (summarizeOnDemandSession exec_summarizeOnDemand build args env s)))
       = executorStarts (effects s)
         ++ [(client,
              {| lastOpSequenceNumber := lastSequenceNumber (runtime s);
                 refSequenceNumber := initialSequenceNumber (runtime s);
                 summaryTime := now env |},
              Some {| disableHeuristics := Some true |})]
    /\ waitStopFlags
         (effects (snd (summarizeOnDemandSession exec_summarizeOnDemand build args env s)))
       = waitStopFlags (effects s) ++ [false]
    /\ tokenStops
         (effects (snd (summarizeOnDemandSession exec_summarizeOnDemand build args env s)))
       = tokenStops (effects s) ++ [reason]
    /\ closeCalls
         (effects (snd (summarizeOnDemandSession exec_summarizeOnDemand build args env s)))
       = closeCalls (effects s) ++ [tt]
    /\ _disposed (snd (summarizeOnDemandSession exec_summarizeOnDemand build args env s))
       = true
    /\ runningSummarizer
         (snd (summarizeOnDemandSession exec_summarizeOnDemand build args env s))
       = None.
Proof.
  intros args env s rc client rs reason Hd He Hrs Hcreate Hclient Hstart Hwait Hfirst.
  unfold summarizeOnDemandSession.
  rewrite (summarizeOnDemand_slow args s Hd He Hrs).
  set (s1 := emit CreateCoordinator (set_runningSummarizer None s)).
  pose proof (fun B f h1 h2 h3 =>
                @read_bootstrap_completes B f h1 h2 h3 args env newBuilder s1
                  rc client rs tt reason Hcreate Hclient Hstart Hwait Hfirst)
    as Hread.
  destruct (bootstrap args env newBuilder s1) as [b' s2]. cbn [fst snd] in *.
  destruct (Hread unit (fun _ => []) (fun _ _ => eq_refl)
              (fun _ => eq_refl) (fun _ => eq_refl)) as (Hb & Hdisp & Hnone & _).
  subst b'. split; [reflexivity|].
  unfold executorStarts, waitStopFlags, tokenStops, closeCalls.
  repeat split; try assumption.
  - rewrite (proj2 (proj2 (proj2 (Hread _ _ (fun _ _ => eq_refl) (fun _ => eq_refl)
                                    (fun _ => eq_refl))))).
    subst s1. cbn. rewrite !flat_map_app. cbn. rewrite !app_nil_r. reflexivity.
  - rewrite (proj2 (proj2 (proj2 (Hread _ _ (fun _ _ => eq_refl) (fun _ => eq_refl)
                                    (fun _ => eq_refl))))).
    subst s1. cbn. rewrite !flat_map_app. cbn. rewrite !app_nil_r. reflexivity.
  - rewrite (proj2 (proj2 (proj2 (Hread _ _ (fun _ _ => eq_refl) (fun _ => eq_refl)
                                    (fun _ => eq_refl))))).
    subst s1. cbn. rewrite !flat_map_app. cbn. rewrite !app_nil_r. reflexivity.
  - rewrite (proj2 (proj2 (proj2 (Hread _ _ (fun _ _ => eq_refl) (fun _ => eq_refl)
                                    (fun _ => eq_refl))))).
    subst s1. cbn. rewrite !flat_map_app. cbn. rewrite !app_nil_r. reflexivity.
Qed.

End Properties.

(** * The properties at work on the fixtures *)

Local Open Scope list_scope.

(** Acks 5, 5, 9, 20 with a failing third refresh: the callback sees the
    acks' own numbers, the waits are at the advanced cursor. *)
Lemma four_acks_refresh_then_advance :
  fst (fst (handleSummaryAcks (ackSteps fourAcks) startedSummarizer)) = Pending
  /\ refreshCursors (effects (snd (handleSummaryAcks (ackSteps fourAcks) startedSummarizer)))
     = [5; 5; 9; 20]
  /\ waitCursors (effects (snd (handleSummaryAcks (ackSteps fourAcks) startedSummarizer)))
     = [0; 6; 6; 10; 21]
  /\ snd (fst (handleSummaryAcks (ackSteps fourAcks) startedSummarizer)) = 21.
Proof.
  exact (handleSummaryAcks_refresh_then_advance fourAcks startedSummarizer
           testExecutor eq_refl).
Defined.

(** The refresh callback is not handed the advanced cursor. *)
Lemma four_acks_refresh_not_at_next_cursor :
  refreshCursors (effects (snd (handleSummaryAcks (ackSteps fourAcks) startedSummarizer)))
  <> [6; 6; 10; 21].
Proof. vm_compute. discriminate. Qed.

(** A token cancelled with "connectivityLoss" while [run] waits. *)
Lemma run_connectivityLoss :
  fst (run "client-A" None connectivityLossEnv freshSummarizer)
  = Returned "connectivityLoss"
  /\ waitStopFlags (effects (snd (run "client-A" None connectivityLossEnv freshSummarizer)))
     = [false]
  /\ tokenStops (effects (snd (run "client-A" None connectivityLossEnv freshSummarizer)))
     = ["connectivityLoss"]
  /\ closeCalls (effects (snd (run "client-A" None connectivityLossEnv freshSummarizer)))
     = [tt].
Proof.
  exact (proj2 (run_returns_first_triggered "client-A" None connectivityLossEnv
                  freshSummarizer (mkController Deferred.create) "summarizer-1"
                  testExecutor eq_refl eq_refl eq_refl eq_refl eq_refl)
           "connectivityLoss" eq_refl).
Defined.

(** In that session the executor is not allowed a last summary. *)
Lemma run_connectivityLoss_no_last_summary :
  ~ (fst (run "client-A" None connectivityLossEnv freshSummarizer)
     = Returned "connectivityLoss"
     /\ waitStopFlags (effects (snd (run "client-A" None connectivityLossEnv freshSummarizer)))
        = [true]
     /\ closeCalls (effects (snd (run "client-A" None connectivityLossEnv freshSummarizer)))
        = [tt]).
Proof. vm_compute. intros (_ & H & _). discriminate H. Qed.


(** A token that is cancelled before [run] gets it. *)
Lemma run_alreadyCancelled :
  exists reason,
    waitCancelled (mkController (Some "summarizerClientDisconnected")) = Some reason
    /\ run "client-A" None alreadyCancelledEnv freshSummarizer
       = (Returned reason,
          closeFn (dispose (applyHostCalls (during (coordinatorCreate alreadyCancelledEnv))
                              (emit CreateCoordinator freshSummarizer))))
    /\ executorStarts (effects (snd (run "client-A" None alreadyCancelledEnv freshSummarizer)))
       = executorStarts (effects freshSummarizer)
    /\ listenerRegistrations
         (effects (snd (run "client-A" None alreadyCancelledEnv freshSummarizer)))
       = listenerRegistrations (effects freshSummarizer)
    /\ waitStopFlags (effects (snd (run "client-A" None alreadyCancelledEnv freshSummarizer)))
       = waitStopFlags (effects freshSummarizer).
Proof.
  exact (run_with_cancelled_token "client-A" None alreadyCancelledEnv freshSummarizer
           (mkController (Some "summarizerClientDisconnected")) eq_refl eq_refl).
Defined.

(** The token factory rejects: [run] throws the wrapped error. *)
Lemma run_noToken :
  exists w,
    fst (run "client-A" None noTokenEnv freshSummarizer) = Threw w
    /\ errorMessage w = "no token"
    /\ fluidErrorCode w = "summarizerRun"
    /\ logged w = false
    /\ errorType w = "summarizingError"
    /\ canRetry w = true
    /\ stopDeferred (snd (run "client-A" None noTokenEnv freshSummarizer))
       = Some "summarizerException"
    /\ snd (run "client-A" None noTokenEnv freshSummarizer)
       = closeFn (dispose (stop "summarizerException"
                             (snd (runCore "client-A" None noTokenEnv freshSummarizer)))).
Proof.
  exact (proj1 (run_failure_and_finally "client-A" None noTokenEnv freshSummarizer)
           (mkError "no token") eq_refl).
Defined.

(** A stop request and the cancellation of the token in one task: the
    stop request wins the race, and the executor is not allowed a last
    summary. *)
Lemma run_stop_then_cancel :
  fst (run "client-A" None stopThenCancelEnv freshSummarizer)
  = Returned "parentShouldNotSummarize"
  /\ waitStopFlags (effects (snd (run "client-A" None stopThenCancelEnv freshSummarizer)))
     = [false].
Proof. vm_compute. split; reflexivity. Qed.


(** An on-demand summary on a fresh coordinator, torn down by the loss of
    connectivity. *)
Lemma summarizeOnDemand_bootstraps :
  waitStopFlags
    (effects (snd (summarizeOnDemandSession (fun _ b _ => b) (fun b => b) tt
                     connectivityLossEnv freshSummarizer)))
  = [false]
  /\ tokenStops
       (effects (snd (summarizeOnDemandSession (fun _ b _ => b) (fun b => b) tt
                        connectivityLossEnv freshSummarizer)))
     = ["connectivityLoss"]
  /\ _disposed (snd (summarizeOnDemandSession (fun _ b _ => b) (fun b => b) tt
                       connectivityLossEnv freshSummarizer))
     = true.
Proof.
  assert (He : forall elected,
             summarizerClientId (runtime freshSummarizer) = Some elected ->
             clientId (runtime freshSummarizer) = Some elected)
    by (intros elected H; discriminate H).
  assert (Hr : forall rs0,
             runningSummarizer freshSummarizer = Some rs0 -> disposed rs0 = true)
    by (intros rs0 H; discriminate H).
  destruct (onDemand_bootstrap_teardown (fun _ b _ => b) (fun b => b) tt
              connectivityLossEnv freshSummarizer
              (mkController Deferred.create) "summarizer-1" testExecutor
              "connectivityLoss" eq_refl He Hr
              eq_refl eq_refl eq_refl eq_refl eq_refl)
    as (_ & _ & Hw & Ht & _ & Hd & _).
  exact (conj Hw (conj Ht Hd)).
Defined.

(** Enqueueing on a running coordinator reaches the executor. *)
Lemma enqueueSummarize_running :
  enqueueSummarize (fun (_ : RunningSummarizer) (a : unit) => a) tt startedSummarizer
  = (Returned tt, emit (ExecEnqueueSummarize 1 tt) startedSummarizer).
Proof.
  exact (proj2 (proj2 (enqueueSummarize_forwards_or_throws
                         (fun (_ : RunningSummarizer) (a : unit) => a) tt
                         startedSummarizer))
           testExecutor eq_refl eq_refl eq_refl).
Defined.

(** Two calls of [dispose] on a started coordinator issue each
    deregistration twice. *)
Lemma dispose_twice_deregisters_twice :
  ~ (length (executorDisposals (effects (Nat.iter 2 dispose startedSummarizer))) = 1%nat
     /\ length (inboundOffs (effects (Nat.iter 2 dispose startedSummarizer))) = 1%nat
     /\ length (listenerRemovals (effects (Nat.iter 2 dispose startedSummarizer))) = 1%nat).
Proof. vm_compute. intros (_ & H & _). discriminate H. Qed.

(** * Further properties of the coordinator *)

Section Lifecycle.

Local Open Scope list_scope.

Context {OnDemandArgs OnDemandResults EnqueueArgs EnqueueResult : Type}.
Variable exec_enqueueSummarize : RunningSummarizer -> EnqueueArgs -> EnqueueResult.
Variable exec_summarizeOnDemand :
  RunningSummarizer -> OnDemandSummarizeResultBuilder -> OnDemandArgs -> OnDemandResults.
Variable build : OnDemandSummarizeResultBuilder -> OnDemandResults.

Local Abbreviation State := (@Summarizer OnDemandArgs EnqueueArgs).
Local Abbreviation Sess := (@Session OnDemandArgs EnqueueArgs).

(** ** Invariants carried through a session *)

Lemma applyHostCalls_inv (Inv : State -> Prop) :
  (forall c t, Inv t -> Inv (applyHostCall c t)) ->
  forall cs s, Inv s -> Inv (applyHostCalls cs s).
Proof.
  intros Hstep cs. induction cs as [|c cs IH]; intros s Hs; simpl; [exact Hs|].
  apply IH. apply Hstep. exact Hs.
Qed.

Lemma applyEvents_inv (Inv : State -> Prop) :
  (forall c t, Inv t -> Inv (applyHostCall c t)) ->
  forall evs (x : Sess), Inv (this x) -> Inv (this (applyEvents evs x)).
Proof.
  intros Hstep evs. induction evs as [|ev evs IH]; intros x Hx; [exact Hx|].
  rewrite applyEvents_cons. apply IH. rewrite applyEvent_this.
  destruct ev; [apply Hstep|]; exact Hx.
Qed.

Lemma awaitStopP_inv (Inv : State -> Prop) :
  (forall c t, Inv t -> Inv (applyHostCall c t)) ->
  forall evs (x : Sess), Inv (this x) -> Inv (this (snd (awaitStopP evs x))).
Proof.
  intros Hstep evs x Hx. exact (applyEvents_inv Inv Hstep evs x Hx).
Qed.

(** A session of [runCore] in which [start] succeeds: what holds before
    the executor is attached, and is turned by the attachment into what
    holds after it, still holds when [runCore] ends or is left pending. *)
Lemma runCore_session_inv (Pre Post : State -> Prop)
    onBehalfOf options env (s : State) rc client rs :
  settled (coordinatorCreate env) = Resolves rc ->
  cancelled rc = false ->
  clientId (runtime s) = Some client ->
  settled (runningStart env) = Resolves rs ->
  Pre s ->
  (forall t, Pre t -> Pre (emit CreateCoordinator t)) ->
  (forall t c d o, Pre t -> Pre (emit (ExecStart c d o) t)) ->
  (forall c t, Pre t -> Pre (applyHostCall c t)) ->
  (forall t, Pre t ->
     Post (emit (RuntimeOn (OpListener (rs_id rs)))
             (set_opListener (Some (OpListener (rs_id rs)))
                (emit (InboundOn (SystemOpListener (rs_id rs)))
                   (set_systemOpListener (Some (SystemOpListener (rs_id rs)))
                      (set_runningSummarizer (Some rs) t)))))) ->
  (forall c t, Post t -> Post (applyHostCall c t)) ->
  (forall t allow, Post t -> Post (emit (ExecWaitStop (rs_id rs) allow) t)) ->
  (forall t reason, Post t -> Post (emit (TokenStop reason) t)) ->
  Post (snd (runCore onBehalfOf options env s)).
Proof.
  intros Hcreate Hcanc Hclient Hstart Hpre HpreC HpreS HpreH Hattach HpostH HpostW HpostT.
  set (s0 := applyHostCalls (during (coordinatorCreate env)) (emit CreateCoordinator s)).
  assert (Hrt : runtime s0 = runtime s)
    by (subst s0; rewrite applyHostCalls_runtime; reflexivity).
  assert (Hpre0 : Pre s0)
    by (subst s0; apply applyHostCalls_inv; [exact HpreH|apply HpreC; exact Hpre]).
  unfold runCore. fold s0. rewrite Hcreate, Hcanc.
  set (x0 := createRace TokenThenStop
               {| this := s0; controller := rc; raceOrder := None; stopP := None |}).
  assert (Hc0 : clientId (runtime (this x0)) = Some client)
    by (subst x0; cbn [this createRace]; rewrite Hrt; exact Hclient).
  rewrite (start_success (Some onBehalfOf) options env x0 client rs Hc0 Hstart).
  match goal with
  | |- context [awaitStopP (stopWait env) ?y] => set (x1 := y)
  end.
  assert (Hpost1 : Post (this x1)).
  { subst x1. cbn [this onThis]. apply Hattach.
    apply applyEvents_inv; [exact HpreH|].
    cbn [this onThis]. apply HpreS. exact Hpre0. }
  pose proof (awaitStopP_inv Post HpostH (stopWait env) x1 Hpost1) as Hpost2.
  destruct (awaitStopP (stopWait env) x1) as [[reason|] x2];
    cbn [snd] in Hpost2; [|exact Hpost2].
  assert (Hpost3 : Post (this (applyEvents (during (waitStop env))
                                 (onThis (emit (ExecWaitStop (rs_id rs)
                                                  (negb (cancelled (controller x2))))) x2)))).
  { apply applyEvents_inv; [exact HpostH|]. cbn [this onThis].
    apply HpostW. exact Hpost2. }
  destruct (settled (waitStop env)); cbn [snd this onThis onToken].
  - apply HpostT. exact Hpost3.
  - exact Hpost3.
Qed.

(** ** What [run] acquires, it releases *)

(** X1.  In a session of [run] that starts an executor on a coordinator
    that had none, and that settles, the executor is disposed exactly
    once whatever the host does in between (a [dispose] before the
    executor is attached, while [run] waits, or none at all), and the
    session ends by removing the two listeners [start] registered and
    closing the runtime. *)
Theorem run_releases_executor_and_listeners :
  forall onBehalfOf options env (s : State) rc client rs,
    runningSummarizer s = None ->
    settled (coordinatorCreate env) = Resolves rc ->
    cancelled rc = false ->
    clientId (runtime s) = Some client ->
    settled (runningStart env) = Resolves rs ->
    fst (run onBehalfOf options env s) <> Pending ->
    executorDisposals (effects (snd (run onBehalfOf options env s)))
    = executorDisposals (effects s) ++ [(rs_id rs, true)]
    /\ runningSummarizer (snd (run onBehalfOf options env s)) = None
    /\ exists es,
         effects (snd (run onBehalfOf options env s))
         = es ++ [InboundOff (SystemOpListener (rs_id rs));
                  RuntimeRemoveListener (OpListener (rs_id rs));
                  CloseFn].
Proof.
  intros onBehalfOf options env s rc client rs Hnone Hcreate Hcanc Hclient Hstart Hsettled.
  set (base := executorDisposals (effects s)).
  set (Pre := fun t : State =>
                runningSummarizer t = None /\ executorDisposals (effects t) = base).
  set (Post := fun t : State =>
                 systemOpListener t = Some (SystemOpListener (rs_id rs))
                 /\ opListener t = Some (OpListener (rs_id rs))
                 /\ ((runningSummarizer t = Some rs
                      /\ executorDisposals (effects t) = base)
                     \/ (runningSummarizer t = None
                         /\ executorDisposals (effects t) = base ++ [(rs_id rs, true)]))).
  assert (HpostH : forall c t, Post t -> Post (applyHostCall c t)).
  { intros [reason|] t (Hl1 & Hl2 & Hrs); [exact (conj Hl1 (conj Hl2 Hrs))|].
    cbn [applyHostCall].
    destruct (dispose_fields t) as (_ & Hn & Hs1 & Hs2 & _).
    split; [congruence|]. split; [congruence|]. right. split; [exact Hn|].
    rewrite dispose_disposals.
    destruct Hrs as [[Hr Hd]|[Hr Hd]]; rewrite Hr, Hd; cbn [optList map];
      [reflexivity|apply app_nil_r]. }
  assert (Hcore : Post (snd (runCore onBehalfOf options env s))).
  { apply (runCore_session_inv Pre Post onBehalfOf options env s rc client rs);
      try assumption.
    - split; [exact Hnone|reflexivity].
    - intros t [Hr Hd]. split; [exact Hr|].
      unfold executorDisposals in *. rewrite read_emit, Hd. apply app_nil_r.
    - intros t c d o [Hr Hd]. split; [exact Hr|].
      unfold executorDisposals in *. rewrite read_emit, Hd. apply app_nil_r.
    - intros [reason|] t [Hr Hd]; [exact (conj Hr Hd)|]. cbn [applyHostCall].
      destruct (dispose_fields t) as (_ & Hn & _).
      split; [exact Hn|]. rewrite dispose_disposals, Hr, Hd. apply app_nil_r.
    - intros t [Hr Hd]. split; [reflexivity|]. split; [reflexivity|]. left.
      split; [reflexivity|].
      unfold executorDisposals in *. rewrite read_emit. cbn [effects set_opListener].
      rewrite read_emit. cbn [effects set_systemOpListener set_runningSummarizer].
      rewrite Hd, !app_nil_r. reflexivity.
    - intros t allow (Hl1 & Hl2 & Hrs). split; [exact Hl1|]. split; [exact Hl2|].
      unfold executorDisposals in *. rewrite read_emit, app_nil_r. exact Hrs.
    - intros t reason (Hl1 & Hl2 & Hrs). split; [exact Hl1|]. split; [exact Hl2|].
      unfold executorDisposals in *. rewrite read_emit, app_nil_r. exact Hrs. }
  assert (Hfinal : forall t : State,
             Post t ->
             executorDisposals (effects (closeFn (dispose t))) = base ++ [(rs_id rs, true)]
             /\ runningSummarizer (closeFn (dispose t)) = None
             /\ exists es,
                  effects (closeFn (dispose t))
                  = es ++ [InboundOff (SystemOpListener (rs_id rs));
                           RuntimeRemoveListener (OpListener (rs_id rs));
                           CloseFn]).
  { intros t (Hl1 & Hl2 & Hrs).
    destruct (dispose_fields t) as (_ & Hn & _).
    split; [|split; [exact Hn|]].
    - unfold closeFn, executorDisposals. rewrite read_emit, app_nil_r.
      fold (executorDisposals (effects (dispose t))). rewrite dispose_disposals.
      destruct Hrs as [[Hr Hd]|[Hr Hd]]; rewrite Hr, Hd; cbn [optList map];
        [reflexivity|apply app_nil_r].
    - unfold closeFn. cbn [effects emit]. rewrite dispose_effects, Hl1, Hl2.
      cbn [optList map].
      exists (effects t
              ++ map (fun r => ExecDispose (rs_id r) true) (optList (runningSummarizer t))).
      rewrite <- !app_assoc. reflexivity. }
  unfold run in *.
  destruct (runCore onBehalfOf options env s) as [[reason|e|] s1]; cbn [fst snd] in *.
  - apply Hfinal. exact Hcore.
  - apply Hfinal. exact (HpostH (CallStop "summarizerException") s1 Hcore).
  - contradiction Hsettled. reflexivity.
Qed.

(** ** When the token is told the reason *)

Lemma runCore_tokenStops onBehalfOf options env (s : State) :
  tokenStops (effects (snd (runCore onBehalfOf options env s)))
  = tokenStops (effects s)
    ++ match fst (runCore onBehalfOf options env s), settled (coordinatorCreate env) with
       | Returned reason, Resolves rc => if cancelled rc then [] else [reason]
       | _, _ => []
       end.
Proof.
  unfold tokenStops.
  set (f := fun e : @Effect OnDemandArgs EnqueueArgs =>
              match e with TokenStop reason => [reason] | _ => [] end).
  assert (Hd : forall rs seen, f (ExecDispose rs seen) = []) by reflexivity.
  assert (Hi : forall l, f (InboundOff l) = []) by reflexivity.
  assert (Hr : forall l, f (RuntimeRemoveListener l) = []) by reflexivity.
  unfold runCore.
  assert (H0 : flat_map f (effects (applyHostCalls (during (coordinatorCreate env))
                                      (emit CreateCoordinator s)))
               = flat_map f (effects s))
    by (rewrite (read_applyHostCalls f Hd Hi Hr), read_emit; apply app_nil_r).
  destruct (settled (coordinatorCreate env)) as [rc|e];
    [|cbn [fst snd]; rewrite H0, app_nil_r; reflexivity].
  destruct (cancelled rc) eqn:Hc.
  { destruct (waitCancelled rc); cbn [fst snd]; rewrite H0, app_nil_r; reflexivity. }
  match goal with
  | |- context [start ?a ?b ?c ?y] =>
      pose proof (read_start f Hd Hi Hr a b c y
                    (fun _ _ _ => eq_refl) (fun _ => eq_refl) (fun _ => eq_refl)) as H1;
      destruct (start a b c y) as [[rs|e|] x1]
  end; cbn [snd fst this createRace] in H1; rewrite H0 in H1;
    try (cbn [fst snd]; rewrite H1, app_nil_r; reflexivity).
  pose proof (read_awaitStopP f Hd Hi Hr (stopWait env) x1) as H2. rewrite H1 in H2.
  destruct (awaitStopP (stopWait env) x1) as [[reason|] x2];
    cbn [snd] in H2; [|cbn [fst snd]; rewrite H2, app_nil_r; reflexivity].
  destruct (settled (waitStop env)); cbn [fst snd this onThis onToken].
  - rewrite read_emit, (read_applyEvents f Hd Hi Hr). cbn [this onThis].
    rewrite read_emit, H2. cbn [f]. rewrite app_nil_r. reflexivity.
  - rewrite (read_applyEvents f Hd Hi Hr). cbn [this onThis].
    rewrite read_emit, H2. cbn [f]. rewrite !app_nil_r. reflexivity.
Qed.

(** X2.  [run] calls the token's [stop] at most once, and only when it
    returns from a session whose token was live when obtained: then with
    the reason it returns.  When [run] throws, when it is left pending and
    when the token was already cancelled, the token's [stop] is not
    called. *)
Theorem run_tells_token_only_on_return :
  forall onBehalfOf options env (s : State),
    tokenStops (effects (snd (run onBehalfOf options env s)))
    = tokenStops (effects s)
      ++ match fst (run onBehalfOf options env s), settled (coordinatorCreate env) with
         | Returned reason, Resolves rc => if cancelled rc then [] else [reason]
         | _, _ => []
         end.
Proof.
  intros onBehalfOf options env s.
  pose proof (runCore_tokenStops onBehalfOf options env s) as Hcore.
  unfold run.
  destruct (runCore onBehalfOf options env s) as [[reason|e|] s1];
    cbn [fst snd] in *.
  - unfold closeFn, tokenStops in *.
    rewrite read_emit, read_dispose by reflexivity.
    rewrite Hcore. apply app_nil_r.
  - unfold closeFn, tokenStops in *.
    rewrite read_emit, read_dispose by reflexivity.
    cbn [effects stop set_stopDeferred]. rewrite Hcore.
    destruct (settled (coordinatorCreate env)); rewrite !app_nil_r; reflexivity.
  - exact Hcore.
Qed.

(** ** After [run] *)

Lemma run_settled_state onBehalfOf options env (s : State) :
  fst (run onBehalfOf options env s) <> Pending ->
  _disposed (snd (run onBehalfOf options env s)) = true
  /\ runningSummarizer (snd (run onBehalfOf options env s)) = None.
Proof.
  intros Hs. unfold run in *.
  destruct (runCore onBehalfOf options env s) as [[reason|e|] s1]; cbn [fst snd] in *.
  - destruct (dispose_fields s1) as (_ & Hn & _ & _ & Hd & _). split; assumption.
  - destruct (dispose_fields (stop "summarizerException" s1))
      as (_ & Hn & _ & _ & Hd & _).
    split; assumption.
  - contradiction Hs. reflexivity.
Qed.

(** X3.  A coordinator serves one [run]: once [run] has settled, every
    [enqueueSummarize] and every [summarizeOnDemand] throws and changes
    nothing, and an ack loop that reaches its loop head ends there without
    waiting for another ack. *)
Theorem coordinator_is_spent_after_run :
  forall onBehalfOf options env (s : State),
    fst (run onBehalfOf options env s) <> Pending ->
    (forall args,
        exists e,
          enqueueSummarize exec_enqueueSummarize args (snd (run onBehalfOf options env s))
          = (Threw e, snd (run onBehalfOf options env s)))
    /\ (forall args,
           exists w,
             summarizeOnDemand exec_summarizeOnDemand build args
               (snd (run onBehalfOf options env s))
             = (Threw w, snd (run onBehalfOf options env s)))
    /\ (forall script c,
           handleSummaryAcksFrom script c (snd (run onBehalfOf options env s))
           = (Returned tt, c, snd (run onBehalfOf options env s))).
Proof.
  intros onBehalfOf options env s Hs.
  destruct (run_settled_state onBehalfOf options env s Hs) as [Hd Hn].
  set (t := snd (run onBehalfOf options env s)) in *.
  split; [|split].
  - intros args. unfold enqueueSummarize. rewrite Hn. eexists. reflexivity.
  - intros args. unfold summarizeOnDemand, summarizeOnDemandTry. rewrite Hd.
    eexists. reflexivity.
  - intros script c. rewrite handleSummaryAcksFrom_unfold, Hn. reflexivity.
Qed.

(** ** The ack loop and [dispose] *)

Lemma applyHostCalls_stay_detached (cs : list HostCall) (s : State) :
  runningSummarizer s = None -> runningSummarizer (applyHostCalls cs s) = None.
Proof.
  apply (applyHostCalls_inv (fun t => runningSummarizer t = None)).
  intros [reason|] t Ht; [exact Ht|]. apply (dispose_fields t).
Qed.

Lemma applyHostCalls_dispose_detaches (cs : list HostCall) :
  forall s : State,
    In CallDispose cs -> runningSummarizer (applyHostCalls cs s) = None.
Proof.
  induction cs as [|c cs IH]; intros s Hin; [contradiction Hin|].
  simpl. destruct Hin as [Hc|Hin]; [|apply IH; exact Hin].
  subst c. apply applyHostCalls_stay_detached. apply (dispose_fields s).
Qed.

(** X4.  The ack loop ends at the first loop head at which no executor
    is attached.  On a coordinator without executor it returns at once.
    When the host disposes the coordinator during an iteration, that
    iteration still runs to its end (an ack that arrives is still handed
    to the refresh callback, a failure is still logged) and the loop then
    returns: the rest of the acks is not waited for. *)
Theorem ack_loop_ends_when_executor_is_detached :
  (forall script c (s : State),
      runningSummarizer s = None ->
      handleSummaryAcksFrom script c s = (Returned tt, c, s))
  /\ (forall calls ack refresh rest c (s : State) rs,
         runningSummarizer s = Some rs ->
         In CallDispose (calls ++ during refresh) ->
         exists s',
           handleSummaryAcksFrom (AckArrives calls ack refresh :: rest) c s
           = (Returned tt, summaryOp_referenceSequenceNumber ack + 1, s')
           /\ refreshCursors (effects s')
              = refreshCursors (effects s) ++ [summaryOp_referenceSequenceNumber ack]
           /\ waitCursors (effects s') = waitCursors (effects s) ++ [c])
  /\ (forall calls e rest c (s : State) rs,
         runningSummarizer s = Some rs ->
         In CallDispose calls ->
         exists s',
           handleSummaryAcksFrom (WaitRejects calls e :: rest) c s
           = (Returned tt, c + 1, s')
           /\ errorLog s' = errorLog s ++ [handleSummaryAckError c c e]
           /\ waitCursors (effects s') = waitCursors (effects s) ++ [c]).
Proof.
  split; [|split].
  - intros script c s Hn. rewrite handleSummaryAcksFrom_unfold, Hn. reflexivity.
  - intros calls ack refresh rest c s rs Hrs Hin.
    rewrite handleSummaryAcksFrom_unfold, Hrs. cbn zeta.
    match goal with
    | |- context [handleSummaryAcksFrom rest _ ?t] => set (s1 := t)
    end.
    assert (Hn : runningSummarizer s1 = None).
    { subst s1.
      assert (Hn0 : runningSummarizer
                      (applyHostCalls (during refresh)
                         (emit (RefreshLatestSummaryAck (summaryOp_handle ack)
                                  (summaryAck_handle ack)
                                  (summaryOp_referenceSequenceNumber ack) c)
                            (applyHostCalls calls (emit (WaitSummaryAck c) s)))) = None).
      { apply in_app_or in Hin. destruct Hin as [Hin|Hin].
        - apply applyHostCalls_stay_detached. cbn [runningSummarizer emit].
          apply applyHostCalls_dispose_detaches. exact Hin.
        - apply applyHostCalls_dispose_detaches. exact Hin. }
      destruct (settled refresh); exact Hn0. }
    exists s1. split; [rewrite handleSummaryAcksFrom_unfold, Hn; reflexivity|].
    assert (He : forall B (f : @Effect OnDemandArgs EnqueueArgs -> list B),
               (forall r seen, f (ExecDispose r seen) = []) ->
               (forall l, f (InboundOff l) = []) ->
               (forall l, f (RuntimeRemoveListener l) = []) ->
               flat_map f (effects s1)
               = flat_map f (effects s)
                 ++ f (WaitSummaryAck c)
                 ++ f (RefreshLatestSummaryAck (summaryOp_handle ack)
                         (summaryAck_handle ack)
                         (summaryOp_referenceSequenceNumber ack) c)).
    { intros B f h1 h2 h3. subst s1.
      assert (Hlog : forall ev (t : State),
                 effects (sendErrorEvent ev t) = effects t) by reflexivity.
      destruct (settled refresh); rewrite ?Hlog;
        rewrite (read_applyHostCalls f h1 h2 h3), read_emit,
          (read_applyHostCalls f h1 h2 h3), read_emit, <- app_assoc; reflexivity. }
    unfold refreshCursors, waitCursors.
    split; rewrite He by reflexivity; cbn; rewrite ?app_nil_r; reflexivity.
  - intros calls e rest c s rs Hrs Hin.
    rewrite handleSummaryAcksFrom_unfold, Hrs.
    match goal with
    | |- context [handleSummaryAcksFrom rest _ ?t] => set (s1 := t)
    end.
    assert (Hn : runningSummarizer s1 = None).
    { subst s1. cbn [runningSummarizer sendErrorEvent].
      apply applyHostCalls_dispose_detaches. exact Hin. }
    exists s1. split; [rewrite handleSummaryAcksFrom_unfold, Hn; reflexivity|].
    split.
    + subst s1. cbn [errorLog sendErrorEvent]. rewrite applyHostCalls_errorLog.
      reflexivity.
    + subst s1. unfold waitCursors. cbn [effects sendErrorEvent].
      rewrite read_applyHostCalls, read_emit by reflexivity.
      reflexivity.
Qed.

(** ** On-demand summaries *)

Lemma executorCalls_app (es fs : list (@Effect OnDemandArgs EnqueueArgs)) :
  executorCalls (es ++ fs) = executorCalls es ++ executorCalls fs.
Proof. apply flat_map_app. Qed.

Lemma dispose_executorCalls (s : State) :
  executorCalls (effects (dispose s))
  = executorCalls (effects s)
    ++ map (fun rs => CalledDispose (rs_id rs)) (optList (runningSummarizer s)).
Proof.
  rewrite dispose_effects. unfold executorCalls. rewrite !flat_map_app.
  destruct (runningSummarizer s), (systemOpListener s), (opListener s);
    cbn; rewrite ?app_nil_r; reflexivity.
Qed.

(** On-demand session in which the token and the executor arrive and
    nothing happens then: it is left waiting, with the executor attached. *)
Lemma bootstrap_waits (args : OnDemandArgs) env builder (t : State) rc client rs :
  coordinatorCreate env = mkAwait [] (Resolves rc) ->
  cancelled rc = false ->
  clientId (runtime t) = Some client ->
  runningStart env = mkAwait [] (Resolves rs) ->
  stopWait env = [] ->
  stopDeferred t = None ->
  bootstrap args env builder t
  = (builder_resolveStarted StageSuccess builder,
     emit (ExecSummarizeOnDemand (rs_id rs) (builder_resolveStarted StageSuccess builder) args)
       (emit (RuntimeOn (OpListener (rs_id rs)))
          (set_opListener (Some (OpListener (rs_id rs)))
             (emit (InboundOn (SystemOpListener (rs_id rs)))
                (set_systemOpListener (Some (SystemOpListener (rs_id rs)))
                   (set_runningSummarizer (Some rs)
                      (emit (ExecStart client
                               {| lastOpSequenceNumber := lastSequenceNumber (runtime t);
                                  refSequenceNumber := initialSequenceNumber (runtime t);
                                  summaryTime := now env |}
                               (Some {| disableHeuristics := Some true |})) t))))))).
Proof.
  intros Hcreate Hcanc Hclient Hstart Hwait Hstop.
  assert (Htok : waitCancelled rc = None)
    by (unfold cancelled in Hcanc; destruct (waitCancelled rc); [discriminate|reflexivity]).
  unfold bootstrap. rewrite Hcreate. cbn [during settled applyHostCalls fold_left].
  rewrite (start_success (clientId (runtime t)) _ env
             {| this := t; controller := rc; raceOrder := None; stopP := None |}
             client rs Hclient) by (rewrite Hstart; reflexivity).
  rewrite Hstart. cbn [during applyEvents fold_left].
  unfold bootstrapStarted, awaitStopP. rewrite Hwait.
  cbn [applyEvents fold_left stopP createRace observe this controller onThis
         stopDeferred emit set_opListener set_systemOpListener set_runningSummarizer runtime].
  rewrite Hstop, Htok. reflexivity.
Qed.

(** X12.  [summarizeOnDemand] does not guard a bootstrap that is in
    progress.  A second call, made before the first one has attached its
    executor, finds no executor and bootstraps as well; when its token
    arrives after the first executor has been attached, [start] attaches
    a second executor over the first.  The first executor stays live: a
    [dispose] afterwards reaches the second one only, and only the
    listener of the second one is removed. *)
Theorem onDemand_second_bootstrap_replaces_executor :
  forall (args1 args2 : OnDemandArgs) env1 env2 (s : State) rc1 rc2 client rs1 rs2,
    _disposed s = false ->
    (forall elected,
        summarizerClientId (runtime s) = Some elected ->
        clientId (runtime s) = Some elected) ->
    (forall rs, runningSummarizer s = Some rs -> disposed rs = true) ->
    stopDeferred s = None ->
    clientId (runtime s) = Some client ->
    coordinatorCreate env1 = mkAwait [] (Resolves rc1) ->
    cancelled rc1 = false ->
    runningStart env1 = mkAwait [] (Resolves rs1) ->
    stopWait env1 = [] ->
    coordinatorCreate env2 = mkAwait [] (Resolves rc2) ->
    cancelled rc2 = false ->
    runningStart env2 = mkAwait [] (Resolves rs2) ->
    stopWait env2 = [] ->
    let s1 := snd (summarizeOnDemand exec_summarizeOnDemand build args1 s) in
    let s2 := snd (summarizeOnDemand exec_summarizeOnDemand build args2 s1) in
    let s3 := snd (bootstrap args1 env1 newBuilder s2) in
    let s4 := snd (bootstrap args2 env2 newBuilder s3) in
    fst (summarizeOnDemand exec_summarizeOnDemand build args2 s1)
    = Returned (Bootstrapping (build newBuilder) newBuilder)
    /\ runningSummarizer s3 = Some rs1
    /\ runningSummarizer s4 = Some rs2
    /\ executorCalls (effects s4)
       = executorCalls (effects s)
         ++ [CalledStart; CalledSummarizeOnDemand (rs_id rs1);
             CalledStart; CalledSummarizeOnDemand (rs_id rs2)]
    /\ executorCalls (effects (dispose s4))
       = executorCalls (effects s4) ++ [CalledDispose (rs_id rs2)]
    /\ inboundOffs (effects (dispose s4))
       = inboundOffs (effects s) ++ [SystemOpListener (rs_id rs2)].
Proof.
  intros args1 args2 env1 env2 s rc1 rc2 client rs1 rs2
    Hd He Hrs Hstop Hclient Hc1 Hk1 Hs1 Hw1 Hc2 Hk2 Hs2 Hw2.
  cbn zeta.
  rewrite (summarizeOnDemand_slow exec_summarizeOnDemand build args1 s Hd He Hrs).
  cbn [snd].
  set (s1 := emit CreateCoordinator (set_runningSummarizer None s)).
  assert (Hslow2 : summarizeOnDemand exec_summarizeOnDemand build args2 s1
                   = (Returned (Bootstrapping (build newBuilder) newBuilder),
                      emit CreateCoordinator (set_runningSummarizer None s1))).
  { apply summarizeOnDemand_slow; [exact Hd|exact He|].
    intros rs H. discriminate H. }
  rewrite Hslow2. cbn [fst snd].
  set (s2 := emit CreateCoordinator (set_runningSummarizer None s1)).
  rewrite (bootstrap_waits args1 env1 newBuilder s2 rc1 client rs1 Hc1 Hk1 Hclient Hs1 Hw1
             Hstop).
  cbn [snd].
  match goal with
  | |- context [bootstrap args2 env2 newBuilder ?t] => set (s3 := t)
  end.
  rewrite (bootstrap_waits args2 env2 newBuilder s3 rc2 client rs2 Hc2 Hk2 Hclient Hs2 Hw2
             Hstop).
  cbn [snd].
  match goal with
  | |- context [dispose ?t] => set (s4 := t)
  end.
  assert (Hcalls : executorCalls (effects s4)
                   = executorCalls (effects s)
                     ++ [CalledStart; CalledSummarizeOnDemand (rs_id rs1);
                         CalledStart; CalledSummarizeOnDemand (rs_id rs2)]).
  { subst s4 s3 s2 s1.
    cbn [effects emit set_opListener set_systemOpListener set_runningSummarizer].
    rewrite !executorCalls_app. cbn. rewrite !app_nil_r, <- !app_assoc. reflexivity. }
  split; [reflexivity|]. split; [reflexivity|]. split; [reflexivity|].
  split; [exact Hcalls|]. split.
  - rewrite dispose_executorCalls. reflexivity.
  - rewrite dispose_inboundOffs. subst s4 s3 s2 s1.
    cbn [effects systemOpListener emit set_opListener set_systemOpListener
           set_runningSummarizer optList].
    unfold inboundOffs. rewrite !flat_map_app. cbn. rewrite !app_nil_r. reflexivity.
Qed.

Lemma applyEvent_only_stops (ev : ExtEvent) (x : Sess) :
  ev <> Host CallDispose -> sameButStopRequest (this x) (this (applyEvent ev x)).
Proof.
  intros Hn. rewrite applyEvent_this.
  destruct ev as [[reason|]|reason]; [repeat split| |repeat split].
  contradiction Hn. reflexivity.
Qed.

Lemma applyEvents_only_stops (evs : list ExtEvent) :
  forall x : Sess,
    noHostDispose evs -> sameButStopRequest (this x) (this (applyEvents evs x)).
Proof.
  induction evs as [|ev evs IH]; intros x Hn; [apply sameButStopRequest_refl|].
  rewrite applyEvents_cons. inversion Hn as [|ev' evs' Hev Hrest]; subst.
  apply sameButStopRequest_trans with (t := this (applyEvent ev x)).
  - apply applyEvent_only_stops. exact Hev.
  - apply IH. exact Hrest.
Qed.

(** X13.  A failure to create the cancellation token is not fatal for
    the coordinator: the builder is failed with "Failed to create
    cancellation token" and nothing else is done, so that (unless the
    host disposes it in the meantime) the coordinator is still not
    disposed, the runtime is not closed, and the next [summarizeOnDemand]
    asks for a token again. *)
Theorem onDemand_token_failure_is_not_fatal :
  forall (args args' : OnDemandArgs) env (s : State) e,
    _disposed s = false ->
    (forall elected,
        summarizerClientId (runtime s) = Some elected ->
        clientId (runtime s) = Some elected) ->
    (forall rs, runningSummarizer s = Some rs -> disposed rs = true) ->
    settled (coordinatorCreate env) = Rejects e ->
    ~ In CallDispose (during (coordinatorCreate env)) ->
    snd (fst (summarizeOnDemandSession exec_summarizeOnDemand build args env s))
    = Some (builder_fail "Failed to create cancellation token" e newBuilder)
    /\ effects (snd (summarizeOnDemandSession exec_summarizeOnDemand build args env s))
       = effects s ++ [CreateCoordinator]
    /\ _disposed (snd (summarizeOnDemandSession exec_summarizeOnDemand build args env s))
       = false
    /\ fst (summarizeOnDemand exec_summarizeOnDemand build args'
              (snd (summarizeOnDemandSession exec_summarizeOnDemand build args env s)))
       = Returned (Bootstrapping (build newBuilder) newBuilder).
Proof.
  intros args args' env s e Hd He Hrs Hcreate Hquiet.
  unfold summarizeOnDemandSession.
  rewrite (summarizeOnDemand_slow exec_summarizeOnDemand build args s Hd He Hrs).
  unfold bootstrap. rewrite Hcreate. cbn [fst snd].
  set (s1 := emit CreateCoordinator (set_runningSummarizer None s)).
  destruct (applyHostCalls_only_stops (during (coordinatorCreate env)) s1 Hquiet)
    as (Hrt & Hrun & _ & _ & Hdisp & Heff & _).
  split; [reflexivity|]. split; [rewrite Heff; reflexivity|].
  split; [rewrite Hdisp; exact Hd|].
  rewrite (summarizeOnDemand_slow exec_summarizeOnDemand build args').
  - reflexivity.
  - rewrite Hdisp. exact Hd.
  - rewrite Hrt. exact He.
  - rewrite Hrun. intros rs H. discriminate H.
Qed.

(** X14.  When [waitStop] fails in the teardown of an on-demand session,
    the teardown stops there: the builder, already told that the
    summarizer started, is failed with "Failed to start summarizer", but
    the token is not stopped, the coordinator is not disposed and the
    runtime is not closed.  Unless the host disposes the coordinator
    itself, the executor stays attached and the listeners registered. *)
Theorem onDemand_waitStop_failure_leaves_session_open :
  forall (args : OnDemandArgs) env builder (s : State) rc client rs reason e,
    settled (coordinatorCreate env) = Resolves rc ->
    clientId (runtime s) = Some client ->
    settled (runningStart env) = Resolves rs ->
    settled (waitStop env) = Rejects e ->
    ~ In CallDispose (during (coordinatorCreate env)) ->
    noHostDispose (during (runningStart env)) ->
    noHostDispose (stopWait env) ->
    noHostDispose (during (waitStop env)) ->
    firstTriggered
      (Deferred.race
         (stopRequestAfter
            (map Host (during (coordinatorCreate env)) ++ during (runningStart env))
            (stopDeferred s))
         (tokenAfter (during (runningStart env)) (waitCancelled rc)))
      (stopWait env) = Some reason ->
    fst (bootstrap args env builder s)
    = builder_fail "Failed to start summarizer" e
        (builder_resolveStarted StageSuccess builder)
    /\ effects (snd (bootstrap args env builder s))
       = effects s
         ++ [ExecStart client
               {| lastOpSequenceNumber := lastSequenceNumber (runtime s);
                  refSequenceNumber := initialSequenceNumber (runtime s);
                  summaryTime := now env |}
               (Some {| disableHeuristics := Some true |});
             InboundOn (SystemOpListener (rs_id rs));
             RuntimeOn (OpListener (rs_id rs));
             ExecSummarizeOnDemand (rs_id rs)
               (builder_resolveStarted StageSuccess builder) args;
             ExecWaitStop (rs_id rs) false]
    /\ runningSummarizer (snd (bootstrap args env builder s)) = Some rs
    /\ _disposed (snd (bootstrap args env builder s)) = _disposed s.
Proof.
  intros args env builder s rc client rs reason e
    Hcreate Hclient Hstart Hwait Hq0 Hq1 Hq2 Hq3 Hfirst.
  set (s0 := applyHostCalls (during (coordinatorCreate env)) s) in *.
  destruct (applyHostCalls_only_stops (during (coordinatorCreate env)) s Hq0)
    as (Hrt & _ & _ & _ & Hdisp0 & Heff0 & _). fold s0 in Hrt, Hdisp0, Heff0.
  assert (Hsd0 : stopDeferred s0
                 = stopRequestAfter (map Host (during (coordinatorCreate env)))
                     (stopDeferred s))
    by (subst s0; apply applyHostCalls_stopRequest).
  unfold bootstrap. fold s0. rewrite Hcreate.
  set (x0 := {| this := s0; controller := rc; raceOrder := None; stopP := None |}).
  assert (Hc0 : clientId (runtime (this x0)) = Some client)
    by (subst x0; cbn [this]; rewrite Hrt; exact Hclient).
  rewrite Hrt.
  rewrite (start_success (clientId (runtime s)) _ env x0 client rs Hc0 Hstart).
  match goal with
  | |- context [applyEvents (during (runningStart env)) ?y] => set (xa := y)
  end.
  set (xe := applyEvents (during (runningStart env)) xa).
  destruct (applyEvents_only_stops (during (runningStart env)) xa Hq1)
    as (_ & _ & _ & _ & Hdispe & Heffe & _). fold xe in Hdispe, Heffe.
  unfold bootstrapStarted.
  match goal with
  | |- context [awaitStopP (stopWait env) ?y] => set (x1 := y)
  end.
  assert (Hs1 : stopDeferred (this x1)
                = stopRequestAfter
                    (map Host (during (coordinatorCreate env)) ++ during (runningStart env))
                    (stopDeferred s)).
  { subst x1.
    cbn [this onThis createRace stopDeferred emit set_opListener
           set_systemOpListener set_runningSummarizer].
    subst xe.
    rewrite applyEvents_stopDeferred. subst xa x0.
    cbn [this onThis stopDeferred emit].
    rewrite Hsd0. unfold stopRequestAfter. symmetry. apply fold_left_app. }
  assert (Ht1 : waitCancelled (controller x1)
                = tokenAfter (during (runningStart env)) (waitCancelled rc)).
  { subst x1. cbn [controller onThis createRace]. subst xe.
    rewrite applyEvents_token. reflexivity. }
  assert (Ho1 : raceOrder x1 = Some StopThenToken) by reflexivity.
  assert (Hp1 : stopP x1
                = Deferred.race (stopDeferred (this x1)) (waitCancelled (controller x1)))
    by reflexivity.
  assert (Hopen1 : raceOpen x1).
  { intros Hp. rewrite Hp1 in Hp.
    destruct (stopDeferred (this x1)); [discriminate Hp|]. split; [reflexivity|exact Hp]. }
  pose proof (awaitStopP_spec (stopWait env) x1 StopThenToken Ho1 Hopen1) as Hspec.
  rewrite Hp1, Hs1, Ht1, Hfirst in Hspec.
  rewrite Hspec.
  destruct (applyEvents_only_stops (stopWait env) x1 Hq2)
    as (_ & Hrun2 & _ & _ & Hdisp2 & Heff2 & _).
  set (x2 := applyEvents (stopWait env) x1) in *.
  match goal with
  | |- context [applyEvents (during (waitStop env)) ?y] =>
      destruct (applyEvents_only_stops (during (waitStop env)) y Hq3)
        as (_ & Hrun3 & _ & _ & Hdisp3 & Heff3 & _)
  end.
  rewrite Hwait. cbn [fst snd].
  split; [reflexivity|].
  rewrite Heff3, Hrun3, Hdisp3. cbn [this onThis effects runningSummarizer _disposed emit].
  rewrite Heff2, Hrun2, Hdisp2. subst x1.
  cbn [this onThis createRace effects runningSummarizer _disposed emit set_opListener
         set_systemOpListener set_runningSummarizer].
  rewrite Heffe, Hdispe. subst xa x0.
  cbn [this onThis effects _disposed emit]. rewrite Heff0, Hdisp0.
  rewrite ?Hrt, <- !app_assoc. repeat split.
Qed.

(** ** The order of the calls on the executor *)

(** X15.  When the host disposes the coordinator while [run] waits, the
    wait ends with "summarizerClientDisconnected" and [run] goes on to
    call [waitStop] on the executor it holds, although that executor has
    by then been disposed: the calls on the executor are start, dispose,
    [waitStop], in this order, and [run] returns
    "summarizerClientDisconnected".  The call allows a last summary
    unless the token is cancelled as well before [run] resumes. *)
Theorem host_dispose_precedes_waitStop :
  forall onBehalfOf options env (s : State) rc client rs rest,
    runningSummarizer s = None ->
    stopDeferred s = None ->
    coordinatorCreate env = mkAwait [] (Resolves rc) ->
    cancelled rc = false ->
    clientId (runtime s) = Some client ->
    runningStart env = mkAwait [] (Resolves rs) ->
    stopWait env = Host CallDispose :: rest ->
    settled (waitStop env) = Resolves tt ->
    fst (run onBehalfOf options env s) = Returned "summarizerClientDisconnected"
    /\ executorCalls (effects (snd (run onBehalfOf options env s)))
       = executorCalls (effects s)
         ++ [CalledStart;
             CalledDispose (rs_id rs);
             CalledWaitStop (rs_id rs) (negb (tokenTriggered rest))].
Proof.
  intros onBehalfOf options env s rc client rs rest
    Hnone Hstop Hcreate Hcanc Hclient Hstart Hevs Hwait.
  assert (Htok : waitCancelled rc = None)
    by (unfold cancelled in Hcanc; destruct (waitCancelled rc); [discriminate|reflexivity]).
  assert (Hstart' : settled (runningStart env) = Resolves rs) by (rewrite Hstart; reflexivity).
  unfold run, runCore. rewrite Hcreate. cbn [during settled applyHostCalls fold_left].
  rewrite Hcanc.
  set (x0 := createRace TokenThenStop
               {| this := emit CreateCoordinator s; controller := rc;
                  raceOrder := None; stopP := None |}).
  rewrite (start_success (Some onBehalfOf) options env x0 client rs Hclient Hstart').
  rewrite Hstart. cbn [during applyEvents fold_left].
  match goal with
  | |- context [awaitStopP (stopWait env) ?y] => set (x1 := y)
  end.
  assert (Ho1 : raceOrder x1 = Some TokenThenStop) by reflexivity.
  assert (Hp1 : stopP x1 = None).
  { subst x1 x0. cbn [stopP onThis createRace observe this controller stopDeferred emit].
    rewrite Htok, Hstop. reflexivity. }
  assert (Hopen1 : raceOpen x1).
  { intros _. split; [|exact Htok]. subst x1 x0.
    cbn [this onThis createRace stopDeferred emit set_opListener set_systemOpListener
           set_runningSummarizer]. exact Hstop. }
  rewrite (awaitStopP_spec (stopWait env) x1 TokenThenStop Ho1 Hopen1).
  rewrite Hp1, Hevs. cbn [firstTriggered trigger]. rewrite applyEvents_cons.
  set (x2 := applyEvent (Host CallDispose) x1).
  set (x3 := applyEvents rest x2).
  assert (Hflag : cancelled (controller x3) = tokenTriggered rest).
  { unfold cancelled. subst x3. rewrite applyEvents_token. subst x2.
    rewrite applyEvent_controller. subst x1 x0. cbn [controller onThis createRace].
    rewrite Htok. apply tokenAfter_triggered. }
  rewrite Hflag, Hwait. cbn [fst snd this onThis onToken].
  split; [reflexivity|].
  assert (Hinv : forall L c (t : State),
             runningSummarizer t = None /\ executorCalls (effects t) = L ->
             runningSummarizer (applyHostCall c t) = None
             /\ executorCalls (effects (applyHostCall c t)) = L).
  { intros L [reason|] t [Hr Hc]; [split; assumption|]. cbn [applyHostCall].
    destruct (dispose_fields t) as (_ & Hn & _).
    split; [exact Hn|]. rewrite dispose_executorCalls, Hr, Hc. apply app_nil_r. }
  set (L0 := executorCalls (effects s) ++ [CalledStart; CalledDispose (rs_id rs)]).
  assert (H3 : runningSummarizer (this x3) = None
               /\ executorCalls (effects (this x3)) = L0).
  { subst x3.
    apply (applyEvents_inv
             (fun t => runningSummarizer t = None /\ executorCalls (effects t) = L0)
             (Hinv L0)).
    subst x2. rewrite applyEvent_this. cbn [applyHostCall].
    destruct (dispose_fields (this x1)) as (_ & Hn & _).
    split; [exact Hn|].
    rewrite dispose_executorCalls. subst x1 x0.
    cbn [this onThis createRace runningSummarizer effects emit set_opListener
           set_systemOpListener set_runningSummarizer optList map].
    rewrite !executorCalls_app. unfold L0. cbn.
    rewrite <- !app_assoc. reflexivity. }
  set (L := L0 ++ [CalledWaitStop (rs_id rs) (negb (tokenTriggered rest))]).
  match goal with
  | |- context [applyEvents (during (waitStop env)) ?y] =>
      assert (H4 : runningSummarizer (this (applyEvents (during (waitStop env)) y)) = None
                   /\ executorCalls
                        (effects (this (applyEvents (during (waitStop env)) y)))
                      = L)
  end.
  { apply (applyEvents_inv
             (fun t => runningSummarizer t = None /\ executorCalls (effects t) = L)
             (Hinv L)).
    cbn [this onThis runningSummarizer effects emit].
    destruct H3 as [Hn3 Hc3]. split; [exact Hn3|].
    rewrite executorCalls_app, Hc3. reflexivity. }
  destruct H4 as [Hn4 Hc4].
  unfold closeFn. cbn [effects emit].
  rewrite executorCalls_app, dispose_executorCalls.
  cbn [runningSummarizer effects emit]. rewrite Hn4, executorCalls_app, Hc4.
  subst L L0. cbn. rewrite !app_nil_r, <- !app_assoc. reflexivity.
Qed.

End Lifecycle.

(** * The ink stream and its canvas: properties *)

Section InkProperties.

Local Open Scope list_scope.

Context {number IPen : Type}.
Variable number_sub : number -> number -> number.
Variable processOperation :
  @IInkOperation number IPen -> @IInkSnapshot number IPen -> @IInkSnapshot number IPen.
Variable getShapes :
  option (@IInkOperation number IPen) -> option (@IInkOperation number IPen)
  -> option IPen -> bool.

Local Abbreviation Op := (@IInkOperation number IPen).
Local Abbreviation Stroke := (@IInkStroke number IPen).
Local Abbreviation Canvas := (@InkCanvas number IPen).

(** ** The stream *)

(** X5.  Whatever the order in which operations are submitted and
    sequenced messages are delivered, the snapshot ends as the operations
    submitted here and the remote messages of type [Operation], applied
    once each in that order: a local message coming back, or a message of
    another type, changes nothing.  What is sent out is exactly what was
    submitted. *)
Theorem stream_applies_each_operation_once :
  forall (acts : list StreamAction) (st : Stream),
    inkSnapshot (applyStreamActions processOperation acts st)
    = fold_left (fun snap op => processOperation op snap)
        (appliedOperations acts) (inkSnapshot st)
    /\ localMessages (applyStreamActions processOperation acts st)
       = localMessages st ++ submittedOperations acts.
Proof.
  induction acts as [|a acts IH]; intros st.
  - split; [reflexivity|]. simpl. rewrite app_nil_r. reflexivity.
  - unfold applyStreamActions in *. cbn [fold_left].
    destruct (IH (applyStreamAction processOperation a st)) as [Hs Hl].
    rewrite Hs, Hl. clear IH Hs Hl.
    destruct a as [op|message local]; cbn [applyStreamAction].
    + cbn [appliedOperations submittedOperations flat_map app].
      unfold submitOperation. cbn [inkSnapshot localMessages fold_left].
      rewrite <- app_assoc. split; reflexivity.
    + cbn [appliedOperations submittedOperations flat_map app].
      unfold processCore.
      destruct (isOperation (msg_type message) && negb local);
        cbn [inkSnapshot localMessages fold_left app]; split; reflexivity.
Qed.

(** ** Rendering *)

Lemma drawAll_fields (calls : list CanvasCall) (c : Canvas) :
  model (drawAll calls c) = model c
  /\ image (drawAll calls c) = image c
  /\ penID (drawAll calls c) = penID c
  /\ currentStrokeId (drawAll calls c) = currentStrokeId c
  /\ currentPen (drawAll calls c) = currentPen c
  /\ lastStrokeRenderOp (drawAll calls c) = lastStrokeRenderOp c
  /\ drawn (drawAll calls c) = drawn c ++ calls.
Proof.
  revert c. induction calls as [|call calls IH]; intros c.
  - cbn. rewrite app_nil_r. repeat split.
  - change (drawAll (call :: calls) c) with (drawAll calls (draw call c)).
    destruct (IH (draw call c)) as (H1 & H2 & H3 & H4 & H5 & H6 & H7).
    rewrite H1, H2, H3, H4, H5, H6, H7. cbn [drawn draw].
    rewrite <- app_assoc. repeat split.
Qed.

Lemma drawAll_app (l1 l2 : list CanvasCall) (c : Canvas) :
  drawAll (l1 ++ l2) c = drawAll l2 (drawAll l1 c).
Proof. unfold drawAll. apply fold_left_app. Qed.

Lemma first_operation (stroke : Stroke) (i : nat) :
  (i < length (operations stroke))%nat ->
  exists first, nth_error (operations stroke) 0 = Some first.
Proof.
  destruct (operations stroke) as [|first ops]; simpl; [lia|].
  intros _. exists first. reflexivity.
Qed.

Lemma penless_segments (stroke : Stroke) (index : nat) :
  strokePen stroke = None -> segmentsFrom getShapes index stroke = [].
Proof.
  intros Hpen. unfold segmentsFrom.
  induction (seq index (length (operations stroke) - index)) as [|i l IH];
    cbn [flat_map]; [reflexivity|].
  unfold segmentFor at 1. rewrite Hpen. exact IH.
Qed.

Lemma blocked_is_penless (stroke : Stroke) (index : nat) :
  blocked getShapes index stroke = true -> strokePen stroke = None.
Proof. unfold blocked. destruct (strokePen stroke); [discriminate|reflexivity]. Qed.

Lemma blocked_past_the_end (stroke : Stroke) (index : nat) :
  (length (operations stroke) <= index)%nat -> blocked getShapes index stroke = false.
Proof.
  intros Hge. unfold blocked.
  replace (length (operations stroke) - index)%nat with 0%nat by lia.
  destruct (strokePen stroke); reflexivity.
Qed.

Lemma segmentsFrom_past_the_end (stroke : Stroke) (index : nat) :
  (length (operations stroke) <= index)%nat -> segmentsFrom getShapes index stroke = [].
Proof.
  intros Hge. unfold segmentsFrom.
  replace (length (operations stroke) - index)%nat with 0%nat by lia. reflexivity.
Qed.

Lemma segmentsFrom_step (stroke : Stroke) (index : nat) :
  (index < length (operations stroke))%nat ->
  segmentsFrom getShapes index stroke
  = segmentFor getShapes stroke index ++ segmentsFrom getShapes (index + 1) stroke.
Proof.
  intros Hlt. unfold segmentsFrom.
  replace (length (operations stroke) - index)%nat
    with (S (length (operations stroke) - (index + 1)))%nat by lia.
  cbn [seq flat_map]. rewrite Nat.add_1_r. reflexivity.
Qed.

Lemma blocked_step (stroke : Stroke) (index : nat) :
  (index < length (operations stroke))%nat ->
  strokePen stroke = None ->
  blocked getShapes index stroke
  = getShapes (operationBefore stroke index) (nth_error (operations stroke) index) None
    || blocked getShapes (index + 1) stroke.
Proof.
  intros Hlt Hpen. unfold blocked. rewrite Hpen.
  replace (length (operations stroke) - index)%nat
    with (S (length (operations stroke) - (index + 1)))%nat by lia.
  cbn [seq existsb]. rewrite Nat.add_1_r. reflexivity.
Qed.

(** What one call of [drawStroke] does for operation [i] of the stroke. *)
Lemma drawStroke_at (stroke : Stroke) (i : nat) (c : Canvas) :
  (i < length (operations stroke))%nat ->
  drawStroke getShapes stroke (nth_error (operations stroke) i)
    (operationBefore stroke i) c
  = match strokePen stroke with
    | Some _ => (Returned tt, drawAll (segmentFor getShapes stroke i) c)
    | None =>
        if getShapes (operationBefore stroke i) (nth_error (operations stroke) i) None
        then (Threw (CannotReadProperty "color"), c)
        else (Returned tt, c)
    end.
Proof.
  intros Hi. destruct (first_operation stroke i Hi) as [first Hfirst].
  unfold drawStroke, segmentFor, strokePen. rewrite Hfirst.
  destruct (op_pen first) as [pen|];
    destruct (getShapes (operationBefore stroke i) (nth_error (operations stroke) i) _);
    reflexivity.
Qed.

Lemma renderFrom_spec (stroke : Stroke) :
  forall (n fuel index : nat) (c : Canvas),
    (length (operations stroke) - index = n)%nat ->
    (n < fuel)%nat ->
    if blocked getShapes index stroke
    then exists i,
           renderFrom getShapes fuel stroke index c
           = (Threw (CannotReadProperty "color"), i, c)
    else renderFrom getShapes fuel stroke index c
         = (Returned tt, Nat.max index (length (operations stroke)),
            drawAll (segmentsFrom getShapes index stroke) c).
Proof.
  induction n as [|n IH]; intros fuel index c Hn Hfuel;
    (destruct fuel as [|fuel]; [lia|]); cbn [renderFrom].
  - assert (Hge : (length (operations stroke) <= index)%nat) by lia.
    rewrite (proj2 (Nat.ltb_ge _ _) Hge), blocked_past_the_end by exact Hge.
    rewrite segmentsFrom_past_the_end by exact Hge.
    rewrite Nat.max_l by lia. reflexivity.
  - assert (Hlt : (index < length (operations stroke))%nat) by lia.
    rewrite (proj2 (Nat.ltb_lt _ _) Hlt).
    change (nth_error (operations stroke) (Nat.max 0 (index - 1)))
      with (operationBefore stroke index).
    rewrite (drawStroke_at stroke index c Hlt).
    rewrite (segmentsFrom_step stroke index Hlt).
    assert (Hn' : (length (operations stroke) - (index + 1) = n)%nat) by lia.
    assert (Hfuel' : (n < fuel)%nat) by lia.
    destruct (strokePen stroke) as [pen|] eqn:Hpen.
    + pose proof (IH fuel (index + 1)%nat
                    (drawAll (segmentFor getShapes stroke index) c) Hn' Hfuel') as IH'.
      unfold blocked in IH' |- *. rewrite Hpen in IH' |- *.
      rewrite IH', drawAll_app. f_equal. f_equal. lia.
    + rewrite (blocked_step stroke index Hlt Hpen).
      destruct (getShapes (operationBefore stroke index)
                  (nth_error (operations stroke) index) None) eqn:Hshapes;
        cbn [orb]; [eexists; reflexivity|].
      pose proof (IH fuel (index + 1)%nat c Hn' Hfuel') as IH'.
      destruct (blocked getShapes (index + 1) stroke); [exact IH'|].
      rewrite IH'. unfold segmentFor. rewrite Hpen. cbn [app]. f_equal. f_equal. lia.
Qed.

Lemma handleStylusOp_unfold (operation : Op) (c : Canvas) :
  handleStylusOp getShapes operation c
  = match getStroke (propertyKey (op_id operation)) (model c) with
    | None => (Threw (CannotReadProperty "operations"), c)
    | Some stroke =>
        if readsInherited (propertyKey (op_id operation)) c then (Returned tt, c)
        else if blocked getShapes (renderedUpTo (propertyKey (op_id operation)) c) stroke
        then (Threw (CannotReadProperty "color"), c)
        else
          (Returned tt,
           set_lastStrokeRenderOp
             (setRendered (propertyKey (op_id operation))
                (Nat.max (renderedUpTo (propertyKey (op_id operation)) c)
                   (length (operations stroke)))
                (lastStrokeRenderOp c))
             (drawAll
                (segmentsFrom getShapes (renderedUpTo (propertyKey (op_id operation)) c)
                   stroke)
                c))
    end.
Proof.
  unfold handleStylusOp.
  destruct (getStroke (propertyKey (op_id operation)) (model c)) as [stroke|];
    [|reflexivity].
  assert (Hidx : match lastStrokeRenderOp c (propertyKey (op_id operation)) with
                 | Some n => Some (if Nat.eqb n 0 then 0%nat else n)
                 | None =>
                     if inObjectPrototype (propertyKey (op_id operation))
                     then None else Some 0%nat
                 end
                 = if readsInherited (propertyKey (op_id operation)) c
                   then None
                   else Some (renderedUpTo (propertyKey (op_id operation)) c)).
  { unfold readsInherited, renderedUpTo.
    destruct (lastStrokeRenderOp c (propertyKey (op_id operation))) as [[|n]|];
      reflexivity. }
  rewrite Hidx.
  destruct (readsInherited (propertyKey (op_id operation)) c); [reflexivity|].
  pose proof (renderFrom_spec stroke
                (length (operations stroke)
                 - renderedUpTo (propertyKey (op_id operation)) c)%nat
                (S (length (operations stroke)))
                (renderedUpTo (propertyKey (op_id operation)) c) c eq_refl) as Hspec.
  destruct (blocked getShapes (renderedUpTo (propertyKey (op_id operation)) c) stroke).
  - destruct Hspec as [i Hi]; [lia|]. rewrite Hi. reflexivity.
  - rewrite Hspec by lia.
    destruct (drawAll_fields
                (segmentsFrom getShapes (renderedUpTo (propertyKey (op_id operation)) c)
                   stroke) c)
      as (_ & _ & _ & _ & _ & Hl & _).
    rewrite Hl. reflexivity.
Qed.

Lemma setRendered_same (key : string) (index : nat) (m : string -> option nat) :
  setRendered key index m key = Some index.
Proof. unfold setRendered. rewrite String.eqb_refl. reflexivity. Qed.

Lemma setRendered_other (key k : string) (index : nat) (m : string -> option nat) :
  k <> key -> setRendered key index m k = m k.
Proof.
  intros Hk. unfold setRendered.
  destruct (String.eqb k key) eqn:E; [|reflexivity].
  apply String.eqb_eq in E. contradiction.
Qed.

(** What [handleStylusOp] leaves, for a stroke the model knows and a key
    that reads no inherited property. *)
Lemma handleStylusOp_effect (operation : Op) (c : Canvas) (stroke : Stroke) :
  getStroke (propertyKey (op_id operation)) (model c) = Some stroke ->
  readsInherited (propertyKey (op_id operation)) c = false ->
  drawn (snd (handleStylusOp getShapes operation c))
  = drawn c ++ segmentsFrom getShapes (renderedUpTo (propertyKey (op_id operation)) c) stroke
  /\ model (snd (handleStylusOp getShapes operation c)) = model c
  /\ readsInherited (propertyKey (op_id operation))
       (snd (handleStylusOp getShapes operation c)) = false
  /\ renderedUpTo (propertyKey (op_id operation))
       (snd (handleStylusOp getShapes operation c))
     = if blocked getShapes (renderedUpTo (propertyKey (op_id operation)) c) stroke
       then renderedUpTo (propertyKey (op_id operation)) c
       else Nat.max (renderedUpTo (propertyKey (op_id operation)) c)
              (length (operations stroke)).
Proof.
  intros Hsome Hown. rewrite handleStylusOp_unfold, Hsome, Hown.
  destruct (blocked getShapes (renderedUpTo (propertyKey (op_id operation)) c) stroke)
    eqn:Hb; cbn [snd].
  - rewrite (penless_segments stroke _ (blocked_is_penless stroke _ Hb)), app_nil_r.
    repeat split. exact Hown.
  - destruct (drawAll_fields
                (segmentsFrom getShapes (renderedUpTo (propertyKey (op_id operation)) c)
                   stroke) c)
      as (Hm & _ & _ & _ & _ & _ & Hd).
    cbn [drawn model set_lastStrokeRenderOp]. rewrite Hm, Hd.
    unfold readsInherited, renderedUpTo.
    cbn [lastStrokeRenderOp set_lastStrokeRenderOp]. rewrite setRendered_same.
    repeat split.
Qed.

(** X6.  [handleStylusOp] draws the operations of the stroke that have
    not been rendered yet, in order, and nothing else: from the index
    remembered for the stroke to the end.  It then remembers the end, so
    that a second call on an unchanged stroke draws nothing; the model and
    what is remembered for the other strokes are left alone.  This is so
    unless the drawing runs into a stroke that has no pen, because its
    first operation is not a down operation: then the call throws at the
    first operation [getShapes] gives shapes for, and has changed nothing.
    For a stroke the model does not know it throws as well; and under a
    key that names a property inherited from [Object.prototype] it
    neither draws nor remembers anything. *)
Theorem handleStylusOp_renders_what_is_new :
  forall (operation : Op) (c : Canvas),
    let key := propertyKey (op_id operation) in
    (getStroke key (model c) = None ->
     handleStylusOp getShapes operation c = (Threw (CannotReadProperty "operations"), c))
    /\ (forall stroke,
           getStroke key (model c) = Some stroke ->
           (readsInherited key c = true ->
            handleStylusOp getShapes operation c = (Returned tt, c))
           /\ (readsInherited key c = false ->
               blocked getShapes (renderedUpTo key c) stroke = true ->
               strokePen stroke = None
               /\ handleStylusOp getShapes operation c
                  = (Threw (CannotReadProperty "color"), c))
           /\ (readsInherited key c = false ->
               blocked getShapes (renderedUpTo key c) stroke = false ->
               let c' := snd (handleStylusOp getShapes operation c) in
               fst (handleStylusOp getShapes operation c) = Returned tt
               /\ drawn c' = drawn c ++ segmentsFrom getShapes (renderedUpTo key c) stroke
               /\ renderedUpTo key c'
                  = Nat.max (renderedUpTo key c) (length (operations stroke))
               /\ (forall k, k <> key -> lastStrokeRenderOp c' k = lastStrokeRenderOp c k)
               /\ model c' = model c
               /\ fst (handleStylusOp getShapes operation c') = Returned tt
               /\ drawn (snd (handleStylusOp getShapes operation c')) = drawn c')).
Proof.
  intros operation c key. split.
  - intros Hnone. rewrite handleStylusOp_unfold. fold key. rewrite Hnone. reflexivity.
  - intros stroke Hsome. split; [|split].
    + intros Hinh. rewrite handleStylusOp_unfold. fold key. rewrite Hsome, Hinh.
      reflexivity.
    + intros Hown Hb. split; [exact (blocked_is_penless stroke _ Hb)|].
      rewrite handleStylusOp_unfold. fold key. rewrite Hsome, Hown, Hb. reflexivity.
    + intros Hown Hb. cbn zeta.
      destruct (handleStylusOp_effect operation c stroke Hsome Hown)
        as (Hd & Hm & Hown' & Hr).
      fold key in Hd, Hm, Hown', Hr. rewrite Hb in Hr.
      assert (Hfst : fst (handleStylusOp getShapes operation c) = Returned tt).
      { rewrite handleStylusOp_unfold. fold key. rewrite Hsome, Hown, Hb. reflexivity. }
      split; [exact Hfst|]. split; [exact Hd|]. split; [exact Hr|].
      split; [|split; [exact Hm|]].
      * intros k Hk. rewrite handleStylusOp_unfold. fold key.
        rewrite Hsome, Hown, Hb. cbn [snd lastStrokeRenderOp set_lastStrokeRenderOp].
        apply setRendered_other. exact Hk.
      * set (c' := snd (handleStylusOp getShapes operation c)) in *.
        assert (Hsome' : getStroke key (model c') = Some stroke)
          by (rewrite Hm; exact Hsome).
        assert (Hpast : (length (operations stroke) <= renderedUpTo key c')%nat)
          by (rewrite Hr; lia).
        split.
        -- rewrite (handleStylusOp_unfold operation c'). fold key.
           rewrite Hsome', Hown', (blocked_past_the_end stroke _ Hpast). reflexivity.
        -- destruct (handleStylusOp_effect operation c' stroke Hsome' Hown')
             as (Hd' & _).
           fold key in Hd'.
           rewrite Hd', (segmentsFrom_past_the_end stroke _ Hpast). apply app_nil_r.
Qed.

Lemma redrawOperations_spec (stroke : Stroke) :
  forall (rest done : list Op) (c : Canvas),
    operations stroke = done ++ rest ->
    redrawOperations getShapes stroke rest (operationBefore stroke (length done)) c
    = if blocked getShapes (length done) stroke
      then (Threw (CannotReadProperty "color"), c)
      else (Returned tt, drawAll (segmentsFrom getShapes (length done) stroke) c).
Proof.
  induction rest as [|current rest IH]; intros done c Hops.
  - cbn [redrawOperations].
    assert (Hge : (length (operations stroke) <= length done)%nat)
      by (rewrite Hops, app_nil_r; lia).
    rewrite blocked_past_the_end, segmentsFrom_past_the_end by exact Hge.
    reflexivity.
  - cbn [redrawOperations].
    assert (Hcur : nth_error (operations stroke) (length done) = Some current).
    { rewrite Hops, nth_error_app2 by lia. rewrite Nat.sub_diag. reflexivity. }
    assert (Hlen : (length done < length (operations stroke))%nat).
    { rewrite Hops, length_app. cbn [length]. lia. }
    rewrite <- Hcur, (drawStroke_at stroke (length done) c Hlen).
    rewrite (segmentsFrom_step stroke (length done) Hlen).
    assert (Hops' : operations stroke = (done ++ [current]) ++ rest)
      by (rewrite <- app_assoc; exact Hops).
    assert (Hnext : forall c' : Canvas,
               redrawOperations getShapes stroke rest
                 (nth_error (operations stroke) (length done)) c'
               = if blocked getShapes (length done + 1) stroke
                 then (Threw (CannotReadProperty "color"), c')
                 else (Returned tt,
                       drawAll (segmentsFrom getShapes (length done + 1) stroke) c')).
    { intros c'. pose proof (IH (done ++ [current]) c' Hops') as IH'.
      rewrite length_app in IH'. cbn [length] in IH'.
      unfold operationBefore in IH'.
      replace (Nat.max 0 (length done + 1 - 1))%nat with (length done) in IH' by lia.
      exact IH'. }
    destruct (strokePen stroke) as [pen|] eqn:Hpen.
    + rewrite Hnext. unfold blocked. rewrite Hpen, drawAll_app. reflexivity.
    + rewrite (blocked_step stroke (length done) Hlen Hpen).
      destruct (getShapes (operationBefore stroke (length done))
                  (nth_error (operations stroke) (length done)) None);
        cbn [orb]; [reflexivity|].
      rewrite Hnext. unfold segmentFor. rewrite Hpen. reflexivity.
Qed.

Lemma redrawStrokes_spec (ss : list Stroke) :
  forall c : Canvas,
    redrawStrokes getShapes ss c
    = (if existsb (blocked getShapes 0) ss
       then Threw (CannotReadProperty "color") else Returned tt,
       drawAll (flat_map (segmentsFrom getShapes 0) (untilBlocked getShapes ss)) c).
Proof.
  induction ss as [|stroke ss IH]; intros c; [reflexivity|].
  cbn [redrawStrokes existsb untilBlocked].
  pose proof (redrawOperations_spec stroke (operations stroke) [] c eq_refl) as H.
  cbn [length] in H. unfold operationBefore in H. cbn [Nat.sub Nat.max] in H.
  rewrite H.
  destruct (blocked getShapes 0 stroke); [reflexivity|].
  cbn [orb flat_map]. rewrite IH, drawAll_app. reflexivity.
Qed.

Lemma untilBlocked_all (ss : list Stroke) :
  existsb (blocked getShapes 0) ss = false -> untilBlocked getShapes ss = ss.
Proof.
  induction ss as [|stroke ss IH]; [reflexivity|].
  cbn [existsb untilBlocked]. intros H. apply orb_false_iff in H.
  destruct H as [H1 H2]. rewrite H1, (IH H2). reflexivity.
Qed.

(** X7.  [redraw] clears the canvas and draws the strokes of the model
    one after the other, each operation once, from the operation before
    it.  A stroke without operation is passed over.  The only thing that
    stops it is a stroke without pen for which [getShapes] gives shapes:
    [redraw] throws there, and has drawn the strokes in front of it. *)
Theorem redraw_draws_every_stroke :
  forall c : Canvas,
    fst (redraw getShapes c)
    = (if existsb (blocked getShapes 0) (getStrokes (model c))
       then Threw (CannotReadProperty "color") else Returned tt)
    /\ drawn (snd (redraw getShapes c))
       = drawn c ++ clearCalls c
         ++ flat_map (segmentsFrom getShapes 0)
              (untilBlocked getShapes (getStrokes (model c)))
    /\ (existsb (blocked getShapes 0) (getStrokes (model c)) = false ->
        untilBlocked getShapes (getStrokes (model c)) = getStrokes (model c))
    /\ model (snd (redraw getShapes c)) = model c
    /\ lastStrokeRenderOp (snd (redraw getShapes c)) = lastStrokeRenderOp c.
Proof.
  intros c.
  assert (Hclear : model (clearCanvas c) = model c
                   /\ lastStrokeRenderOp (clearCanvas c) = lastStrokeRenderOp c
                   /\ drawn (clearCanvas c) = drawn c ++ clearCalls c).
  { unfold clearCanvas, clearCalls. cbn [image draw].
    destruct (image c); cbn [model lastStrokeRenderOp drawn draw];
      rewrite <- ?app_assoc; repeat split. }
  destruct Hclear as (Hm0 & Hl0 & Hd0).
  unfold redraw. rewrite redrawStrokes_spec, Hm0. cbn [fst snd].
  match goal with
  | |- context [drawAll ?l ?t] =>
      destruct (drawAll_fields l t) as (Hm & _ & _ & _ & _ & Hl & Hd)
  end.
  rewrite Hm, Hl, Hd, Hm0, Hl0, Hd0, <- app_assoc.
  split; [reflexivity|]. split; [reflexivity|].
  split; [apply untilBlocked_all|split; reflexivity].
Qed.

Lemma segmentsFrom_grown (a b : list Op) :
  segmentsFrom getShapes 0 (mkStroke a)
  ++ segmentsFrom getShapes (length a) (mkStroke (a ++ b))
  = segmentsFrom getShapes 0 (mkStroke (a ++ b)).
Proof.
  unfold segmentsFrom. cbn [operations].
  rewrite length_app, !Nat.sub_0_r.
  replace (length a + length b - length a)%nat with (length b) by lia.
  rewrite seq_app, flat_map_app. cbn [Nat.add]. f_equal.
  rewrite !flat_map_concat_map. f_equal.
  apply map_ext_in. intros i Hi. apply in_seq in Hi.
  unfold segmentFor, strokePen, operationBefore. cbn [operations].
  rewrite !(nth_error_app1 a b) by lia.
  reflexivity.
Qed.

(** X8.  Drawing a stroke as it grows gives what [redraw] gives for the
    stroke in the end: when [handleStylusOp] has been called for a stroke
    not rendered before, and is called again once operations have been
    added to the stroke, the canvas has received exactly the segments that
    the loop of [redraw] draws for the grown stroke (none at all for a
    stroke without pen, whichever of the calls throw). *)
Theorem incremental_rendering_is_redraw :
  forall (op1 op2 : Op) (c : Canvas) (m2 : Stream) (a b : list Op),
    propertyKey (op_id op2) = propertyKey (op_id op1) ->
    readsInherited (propertyKey (op_id op1)) c = false ->
    renderedUpTo (propertyKey (op_id op1)) c = 0%nat ->
    getStroke (propertyKey (op_id op1)) (model c) = Some (mkStroke a) ->
    getStroke (propertyKey (op_id op1)) m2 = Some (mkStroke (a ++ b)) ->
    drawn (snd (handleStylusOp getShapes op2
                  (set_model m2 (snd (handleStylusOp getShapes op1 c)))))
    = drawn (snd (redrawOperations getShapes (mkStroke (a ++ b)) (a ++ b)
                    (nth_error (a ++ b) 0) c))
    /\ drawn (snd (redrawOperations getShapes (mkStroke (a ++ b)) (a ++ b)
                     (nth_error (a ++ b) 0) c))
       = drawn c ++ segmentsFrom getShapes 0 (mkStroke (a ++ b)).
Proof.
  intros op1 op2 c m2 a b Hkey Hown Hzero H1 H2.
  set (key := propertyKey (op_id op1)) in *.
  assert (Hre : drawn (snd (redrawOperations getShapes (mkStroke (a ++ b)) (a ++ b)
                              (nth_error (a ++ b) 0) c))
                = drawn c ++ segmentsFrom getShapes 0 (mkStroke (a ++ b))).
  { pose proof (redrawOperations_spec (mkStroke (a ++ b)) (a ++ b) [] c eq_refl) as Hre.
    cbn [length] in Hre. unfold operationBefore in Hre.
    cbn [Nat.sub Nat.max operations] in Hre. rewrite Hre.
    destruct (blocked getShapes 0 (mkStroke (a ++ b))) eqn:Hb; cbn [snd].
    - rewrite (penless_segments _ _ (blocked_is_penless _ _ Hb)), app_nil_r.
      reflexivity.
    - destruct (drawAll_fields (segmentsFrom getShapes 0 (mkStroke (a ++ b))) c)
        as (_ & _ & _ & _ & _ & _ & Hd).
      exact Hd. }
  split; [|exact Hre]. rewrite Hre.
  destruct (handleStylusOp_effect op1 c (mkStroke a) H1 Hown) as (Hd1 & Hm1 & Hown1 & Hr1).
  fold key in Hd1, Hm1, Hown1, Hr1. rewrite Hzero in Hd1, Hr1.
  set (c1 := snd (handleStylusOp getShapes op1 c)) in *.
  assert (H2' : getStroke (propertyKey (op_id op2)) (model (set_model m2 c1))
                = Some (mkStroke (a ++ b)))
    by (rewrite Hkey; exact H2).
  assert (Hown2 : readsInherited (propertyKey (op_id op2)) (set_model m2 c1) = false)
    by (rewrite Hkey; exact Hown1).
  destruct (handleStylusOp_effect op2 (set_model m2 c1) (mkStroke (a ++ b)) H2' Hown2)
    as (Hd2 & _).
  rewrite Hd2, Hkey. fold key.
  change (drawn (set_model m2 c1)) with (drawn c1).
  change (renderedUpTo key (set_model m2 c1)) with (renderedUpTo key c1).
  rewrite Hd1, Hr1, <- app_assoc. f_equal.
  destruct (blocked getShapes 0 (mkStroke a)) eqn:Hb.
  - assert (Hpa : strokePen (mkStroke a) = None) by exact (blocked_is_penless _ _ Hb).
    assert (Hpab : strokePen (mkStroke (a ++ b)) = None).
    { unfold strokePen in *. cbn [operations] in *.
      destruct a as [|first a']; [|exact Hpa].
      unfold blocked in Hb. cbn in Hb. discriminate Hb. }
    rewrite (penless_segments _ _ Hpa), !(penless_segments _ _ Hpab). reflexivity.
  - cbn [operations Nat.max]. apply segmentsFrom_grown.
Qed.

(** ** Replay *)

Lemma clearCanvas_model (c : Canvas) : model (clearCanvas c) = model c.
Proof. unfold clearCanvas. cbn [image draw]. destruct (image c); reflexivity. Qed.

(** The timer that shows operation [i] of a stroke. *)
Lemma animateStroke_at (stroke : Stroke) (startTime : Z) (i : nat) :
  (i < length (operations stroke))%nat ->
  animateStroke stroke i startTime
  = (Returned tt,
     [ {| delay := delayFor stroke startTime i;
          timer_stroke := stroke;
          timer_current := nth_error (operations stroke) i;
          timer_previous := operationBefore stroke i;
          timer_next := (i + 1)%nat;
          timer_startTime := startTime |} ]).
Proof.
  intros Hlt. unfold animateStroke, delayFor, timeAt, operationBefore.
  rewrite (proj2 (Nat.leb_gt _ _)) by lia.
  destruct (nth_error (operations stroke) i) as [cur|] eqn:Hcur;
    [|apply nth_error_None in Hcur; lia].
  destruct i as [|i]; cbn [Nat.eqb]; [reflexivity|].
  replace (Nat.max 0 (S i - 1))%nat with (S i - 1)%nat by lia.
  destruct (nth_error (operations stroke) (S i - 1)) as [prev|] eqn:Hprev;
    [reflexivity|apply nth_error_None in Hprev; lia].
Qed.

Lemma animateStroke_first (stroke : Stroke) (startTime : Z) :
  animateStroke stroke 0 startTime = (Returned tt, firstTimer startTime stroke).
Proof.
  unfold firstTimer.
  destruct (operations stroke) as [|first ops] eqn:Hops.
  - unfold animateStroke. rewrite Hops. reflexivity.
  - rewrite animateStroke_at by (rewrite Hops; cbn; lia).
    unfold delayFor, timeAt, operationBefore. rewrite Hops. reflexivity.
Qed.

Lemma animateStrokes_spec (ss : list Stroke) (startTime : Z) :
  animateStrokes ss startTime = (Returned tt, flat_map (firstTimer startTime) ss).
Proof.
  induction ss as [|stroke ss IH]; [reflexivity|].
  cbn [animateStrokes flat_map]. rewrite animateStroke_first, IH. reflexivity.
Qed.

Lemma runChain_spec (stroke : Stroke) (startTime : Z) :
  forall (n fuel i : nat) (c : Canvas),
    (length (operations stroke) - i = S n)%nat ->
    (n < fuel)%nat ->
    let t := {| delay := delayFor stroke startTime i;
                timer_stroke := stroke;
                timer_current := nth_error (operations stroke) i;
                timer_previous := operationBefore stroke i;
                timer_next := (i + 1)%nat;
                timer_startTime := startTime |} in
    fst (fst (runChain getShapes fuel t c))
    = (if blocked getShapes i stroke
       then Threw (CannotReadProperty "color") else Returned tt)
    /\ snd (runChain getShapes fuel t c) = drawAll (segmentsFrom getShapes i stroke) c
    /\ (blocked getShapes i stroke = false ->
        snd (fst (runChain getShapes fuel t c))
        = map (delayFor stroke startTime) (seq i (S n))).
Proof.
  induction n as [|n IH]; intros fuel i c Hn Hfuel t;
    (destruct fuel as [|fuel]; [lia|]);
    assert (Hlt : (i < length (operations stroke))%nat) by lia;
    cbn [runChain]; unfold fire; subst t;
    cbn [timer_stroke timer_current timer_previous timer_next timer_startTime delay];
    rewrite (drawStroke_at stroke i c Hlt), (segmentsFrom_step stroke i Hlt).
  - assert (Hend : animateStroke stroke (i + 1) startTime = (Returned tt, [])).
    { unfold animateStroke. rewrite (proj2 (Nat.leb_le _ _)) by lia. reflexivity. }
    rewrite (segmentsFrom_past_the_end stroke (i + 1)) by lia. rewrite app_nil_r.
    destruct (strokePen stroke) as [pen|] eqn:Hpen.
    + rewrite Hend. cbn [fst snd]. unfold blocked. rewrite Hpen.
      repeat split.
    + rewrite (blocked_step stroke i Hlt Hpen).
      rewrite (blocked_past_the_end stroke (i + 1)) by lia. rewrite orb_false_r.
      unfold segmentFor. rewrite Hpen.
      destruct (getShapes (operationBefore stroke i) (nth_error (operations stroke) i) None);
        [|rewrite Hend]; cbn [fst snd drawAll fold_left]; repeat split;
        try (intros H; discriminate H).
  - assert (Hlt' : (i + 1 < length (operations stroke))%nat) by lia.
    assert (Hn' : (length (operations stroke) - (i + 1) = S n)%nat) by lia.
    assert (Hfuel' : (n < fuel)%nat) by lia.
    rewrite (animateStroke_at stroke startTime (i + 1) Hlt').
    destruct (strokePen stroke) as [pen|] eqn:Hpen.
    + destruct (IH fuel (i + 1)%nat (drawAll (segmentFor getShapes stroke i) c)
                  Hn' Hfuel') as (Ho & Hc & Hd).
      cbn zeta in Ho, Hc, Hd.
      destruct (runChain getShapes fuel _ _) as [[o delays] c'] eqn:Hrun.
      cbn [fst snd] in *. unfold blocked in *. rewrite Hpen in *.
      rewrite Hc, drawAll_app. split; [exact Ho|]. split; [reflexivity|].
      intros _. rewrite (Hd eq_refl). cbn [seq map]. rewrite Nat.add_1_r. reflexivity.
    + rewrite (blocked_step stroke i Hlt Hpen).
      unfold segmentFor at 1. rewrite Hpen. cbn [app].
      destruct (getShapes (operationBefore stroke i) (nth_error (operations stroke) i) None).
      * cbn [fst snd orb].
        rewrite (penless_segments stroke (i + 1) Hpen). cbn [drawAll fold_left].
        repeat split; try (intros H; discriminate H).
      * destruct (IH fuel (i + 1)%nat c Hn' Hfuel') as (Ho & Hc & Hd).
        cbn zeta in Ho, Hc, Hd.
        destruct (runChain getShapes fuel _ _) as [[o delays] c'] eqn:Hrun.
        cbn [fst snd orb] in *.
        split; [exact Ho|]. split; [exact Hc|].
        intros Hb. rewrite (Hd Hb). cbn [seq map]. rewrite Nat.add_1_r. reflexivity.
Qed.

Lemma total_snoc (delays : list Z) (d : Z) : total (delays ++ [d]) = total delays + d.
Proof.
  unfold total.
  induction delays as [|d0 delays IH]; cbn [app fold_right]; [lia|].
  rewrite IH. lia.
Qed.

Lemma total_telescopes (stroke : Stroke) (startTime : Z) (k : nat) :
  total (map (delayFor stroke startTime) (seq 0 (S k))) = timeAt stroke k - startTime.
Proof.
  induction k as [|k IH].
  - cbn. lia.
  - rewrite seq_S, map_app.
    change (map (delayFor stroke startTime) [(0 + S k)%nat])
      with [delayFor stroke startTime (S k)].
    rewrite total_snoc, IH. unfold delayFor. cbn [Nat.eqb].
    replace (S k - 1)%nat with k by lia. lia.
Qed.

Lemma firstn_of_seq (n : nat) :
  forall start len, firstn n (seq start len) = seq start (Nat.min n len).
Proof.
  induction n as [|n IH]; intros start len; [reflexivity|].
  destruct len as [|len]; [reflexivity|].
  cbn [seq firstn Nat.min]. rewrite IH. reflexivity.
Qed.

(** X9.  [replay] clears the canvas and throws when the model has no
    stroke, or when its first stroke has no operation; otherwise it sets
    one timer for each stroke that has an operation.  The chain of timers
    that such a timer starts draws what [redraw] draws for the stroke,
    unless it runs into a stroke without pen, where it ends with the
    error.  The delays it asks for are the times between consecutive
    operations, so that up to operation [k] they add up to the time
    between the first operation of the first stroke and operation [k];
    none of them is negative when the times do not decrease. *)
Theorem replay_keeps_the_timing :
  (forall c : Canvas,
      getStrokes (model c) = [] ->
      replay c = (Threw (CannotReadProperty "operations"), [], clearCanvas c))
  /\ (forall (c : Canvas) stroke0 rest,
         getStrokes (model c) = stroke0 :: rest ->
         operations stroke0 = [] ->
         replay c = (Threw (CannotReadProperty "time"), [], clearCanvas c))
  /\ (forall (c : Canvas) stroke0 rest op0 ops0,
         getStrokes (model c) = stroke0 :: rest ->
         operations stroke0 = op0 :: ops0 ->
         replay c
         = (Returned tt,
            flat_map (firstTimer (op_time op0)) (getStrokes (model c)),
            clearCanvas c))
  /\ (forall (stroke : Stroke) startTime t (c : Canvas),
         In t (firstTimer startTime stroke) ->
         fst (fst (runChain getShapes (length (operations stroke)) t c))
         = (if blocked getShapes 0 stroke
            then Threw (CannotReadProperty "color") else Returned tt)
         /\ snd (runChain getShapes (length (operations stroke)) t c)
            = drawAll (segmentsFrom getShapes 0 stroke) c
         /\ (blocked getShapes 0 stroke = false ->
             snd (fst (runChain getShapes (length (operations stroke)) t c))
             = delaysOf stroke startTime))
  /\ (forall (stroke : Stroke) startTime k,
         (k < length (operations stroke))%nat ->
         total (firstn (S k) (delaysOf stroke startTime))
         = timeAt stroke k - startTime)
  /\ (forall (stroke : Stroke) startTime,
         startTime <= timeAt stroke 0 ->
         (forall k, (S k < length (operations stroke))%nat ->
                    timeAt stroke k <= timeAt stroke (S k)) ->
         Forall (fun d => 0 <= d) (delaysOf stroke startTime)).
Proof.
  split; [|split; [|split; [|split; [|split]]]].
  - intros c Hnone. unfold replay. rewrite clearCanvas_model, Hnone. reflexivity.
  - intros c stroke0 rest Hss Hops. unfold replay.
    rewrite clearCanvas_model, Hss. cbn [nth_error]. rewrite Hops. reflexivity.
  - intros c stroke0 rest op0 ops0 Hss Hops. unfold replay.
    rewrite clearCanvas_model, Hss. cbn [nth_error]. rewrite Hops. cbn [nth_error].
    rewrite animateStrokes_spec. reflexivity.
  - intros stroke startTime t c Hin.
    assert (Hlt : (0 < length (operations stroke))%nat).
    { unfold firstTimer in Hin.
      destruct (operations stroke); [contradiction Hin|cbn; lia]. }
    pose proof (animateStroke_first stroke startTime) as Hf.
    rewrite (animateStroke_at stroke startTime 0 Hlt) in Hf.
    inversion Hf as [Hf']. rewrite <- Hf' in Hin. destruct Hin as [Ht|[]]. subst t.
    destruct (runChain_spec stroke startTime (length (operations stroke) - 1)
                (length (operations stroke)) 0%nat c) as (Ho & Hc & Hd); [lia|lia|].
    split; [exact Ho|]. split; [exact Hc|].
    intros Hb. etransitivity; [exact (Hd Hb)|]. unfold delaysOf.
    replace (S (length (operations stroke) - 1)) with (length (operations stroke)) by lia.
    reflexivity.
  - intros stroke startTime k Hk. unfold delaysOf.
    rewrite firstn_map, firstn_of_seq, Nat.min_l by lia.
    apply total_telescopes.
  - intros stroke startTime H0 Hmono. unfold delaysOf.
    apply Forall_forall. intros d Hd. apply in_map_iff in Hd.
    destruct Hd as (i & Hi & Hin). apply in_seq in Hin. subst d.
    unfold delayFor. destruct i as [|i]; cbn [Nat.eqb]; [lia|].
    replace (S i - 1)%nat with i by lia.
    specialize (Hmono i). lia.
Qed.

(** ** Pointer events *)

Lemma submitAndApplyOp_submits (operation : Op) (c : Canvas) :
  localMessages (model (snd (submitAndApplyOp processOperation getShapes operation true c)))
  = localMessages (model c) ++ [operation]
  /\ penID (snd (submitAndApplyOp processOperation getShapes operation true c)) = penID c
  /\ currentStrokeId (snd (submitAndApplyOp processOperation getShapes operation true c))
     = currentStrokeId c
  /\ currentPen (snd (submitAndApplyOp processOperation getShapes operation true c))
     = currentPen c.
Proof.
  unfold submitAndApplyOp.
  set (c1 := set_model (submitOperation processOperation operation (model c)) c).
  destruct (isClear operation).
  - cbn [snd]. unfold handleClearOp, clearCanvas. cbn [image draw].
    destruct (image c1); repeat split.
  - rewrite handleStylusOp_unfold.
    destruct (getStroke (propertyKey (op_id operation)) (model c1)) as [stroke|];
      [|repeat split].
    destruct (readsInherited (propertyKey (op_id operation)) c1); [repeat split|].
    destruct (blocked getShapes (renderedUpTo (propertyKey (op_id operation)) c1) stroke);
      cbn [snd]; [repeat split|].
    match goal with
    | |- context [drawAll ?l ?t] =>
        destruct (drawAll_fields l t) as (Hm & _ & Hp & Hs & Hc & _)
    end.
    cbn [model penID currentStrokeId currentPen set_lastStrokeRenderOp].
    rewrite Hm, Hp, Hs, Hc. repeat split.
Qed.

Lemma moves_are_filtered (moves : list PointerEvent) :
  forall c : Canvas,
    let c' := handleEvents number_sub processOperation getShapes (map PointerMove moves) c in
    localMessages (model c')
    = localMessages (model c)
      ++ movesOf number_sub (penID c) (currentStrokeId c) moves
    /\ penID c' = penID c
    /\ currentStrokeId c' = currentStrokeId c
    /\ currentPen c' = currentPen c.
Proof.
  induction moves as [|evt moves IH]; intros c; cbn zeta.
  - cbn. rewrite app_nil_r. repeat split.
  - unfold handleEvents in *. cbn [map fold_left].
    destruct (IH (handleEvent number_sub processOperation getShapes (PointerMove evt) c))
      as (Hl & Hp & Hs & Hc).
    rewrite Hl, Hp, Hs, Hc. clear IH Hl Hp Hs Hc.
    unfold handleEvent, handlePointerMove. cbn [movesOf flat_map].
    destruct (Z.eqb (pointerId evt) (penID c)).
    + match goal with
      | |- context [submitAndApplyOp processOperation getShapes ?op true c] =>
          destruct (submitAndApplyOp_submits op c) as (Hl & Hp & Hs & Hc)
      end.
      rewrite Hl, Hp, Hs, Hc, <- app_assoc. repeat split.
    + cbn [snd app]. repeat split.
Qed.

(** X10.  A stroke is submitted under one id.  When a pen or the left
    mouse button goes down, moves any number of times and goes up, the
    canvas submits a down operation with a fresh id, one move operation
    with that id for each move of that pointer, none for the moves of any
    other pointer, and an up operation with that id; it then tracks no
    pointer and no stroke.  This holds whether or not the drawing throws
    on the way. *)
Theorem stroke_is_submitted_under_one_id :
  forall (c : Canvas) (down up : PointerEvent) (moves : list PointerEvent),
    startsStroke down = true ->
    pointerId up = pointerId down ->
    let c' := handleEvents number_sub processOperation getShapes
                (PointerDown down :: map PointerMove moves ++ [PointerUp up]) c in
    localMessages (model c')
    = localMessages (model c)
      ++ makeDownOperation (rawPosition number_sub down) (pressure down)
           (currentPen c) (uuid down) (timeNow down)
         :: movesOf number_sub (pointerId down) (Some (uuid down)) moves
      ++ [makeUpOperation (rawPosition number_sub up) (pressure up)
            (Some (uuid down)) (timeNow up)]
    /\ penID c' = -1
    /\ currentStrokeId c' = None.
Proof.
  intros c down up moves Hstarts Hup. cbn zeta.
  unfold handleEvents. cbn [fold_left]. rewrite fold_left_app. cbn [fold_left].
  set (c1 := handleEvent number_sub processOperation getShapes (PointerDown down) c).
  assert (H1 : localMessages (model c1)
               = localMessages (model c)
                 ++ [makeDownOperation (rawPosition number_sub down) (pressure down)
                       (currentPen c) (uuid down) (timeNow down)]
               /\ penID c1 = pointerId down
               /\ currentStrokeId c1 = Some (uuid down)
               /\ currentPen c1 = currentPen c).
  { subst c1. unfold handleEvent, handlePointerDown. rewrite Hstarts.
    match goal with
    | |- context [submitAndApplyOp processOperation getShapes ?op true ?t] =>
        destruct (submitAndApplyOp_submits op t) as (Hl & Hp & Hs & Hc)
    end.
    rewrite Hl, Hp, Hs, Hc. repeat split. }
  destruct H1 as (Hl1 & Hp1 & Hs1 & Hc1).
  destruct (moves_are_filtered moves c1) as (Hl2 & Hp2 & Hs2 & Hc2).
  fold (handleEvents number_sub processOperation getShapes (map PointerMove moves) c1).
  set (c2 := handleEvents number_sub processOperation getShapes (map PointerMove moves) c1) in *.
  unfold handleEvent, handlePointerUp.
  rewrite Hp2, Hp1, Hup, Z.eqb_refl.
  match goal with
  | |- context [submitAndApplyOp processOperation getShapes ?op true ?t] =>
      destruct (submitAndApplyOp_submits op t) as (Hl & Hp & Hs & Hc)
  end.
  rewrite Hl, Hp, Hs. cbn [model penID currentStrokeId set_currentStrokeId set_penID].
  rewrite Hl2, Hl1, Hs2, Hs1, Hp1, <- !app_assoc. repeat split.
Qed.

(** X11.  Any pointer that goes down is tracked, also one that starts no
    stroke (a touch, a mouse button other than the left one): no down
    operation is submitted for it, but its moves are, under the id of the
    stroke that was current before, which is [undefined] once that stroke
    has ended. *)
Theorem pointer_without_stroke_still_submits_moves :
  forall (c : Canvas) (down : PointerEvent) (moves : list PointerEvent),
    startsStroke down = false ->
    let c' := handleEvents number_sub processOperation getShapes
                (PointerDown down :: map PointerMove moves) c in
    localMessages (model c')
    = localMessages (model c)
      ++ movesOf number_sub (pointerId down) (currentStrokeId c) moves
    /\ penID c' = pointerId down
    /\ currentStrokeId c' = currentStrokeId c.
Proof.
  intros c down moves Hstarts. cbn zeta.
  unfold handleEvents. cbn [fold_left].
  fold (handleEvents number_sub processOperation getShapes (map PointerMove moves)
          (handleEvent number_sub processOperation getShapes (PointerDown down) c)).
  destruct (moves_are_filtered moves
              (handleEvent number_sub processOperation getShapes (PointerDown down) c))
    as (Hl & Hp & Hs & _).
  rewrite Hl, Hp, Hs. unfold handleEvent, handlePointerDown. rewrite Hstarts.
  repeat split.
Qed.

End InkProperties.

(** * The documents route: properties *)

Section Documents.

(** X16.  The handler of [GET /:tenantId/:id] never answers 404.  A
    body is sent with status 200 when the lookup resolves, whatever it
    resolves to (also no document, or one scheduled for deletion), and
    with status 400 when the lookup fails; the lookup is made for the
    tenant of the route, or for the first application tenant when the
    route gives none. *)
Theorem getDocument_never_answers_404 :
  forall tenantParam idParam appTenants documentP response call,
    fst (getDocumentHandler tenantParam idParam appTenants documentP response)
    = Returned call ->
    tenantOrFirst tenantParam appTenants = inr (fst call)
    /\ snd call = idParam
    /\ snd (getDocumentHandler tenantParam idParam appTenants documentP response)
       = match documentP with
         | Resolves document => mkResponse 200 (Some (DocumentBody document))
         | Rejects e => mkResponse 400 (Some (ErrorBody e))
         end
    /\ statusCode
         (snd (getDocumentHandler tenantParam idParam appTenants documentP response))
       <> 404.
Proof.
  intros tenantParam idParam appTenants documentP response call.
  unfold getDocumentHandler.
  destruct (tenantOrFirst tenantParam appTenants) as [e|tenantId]; cbn [fst snd];
    [discriminate|].
  intros H. inversion H; subst call. cbn [fst snd].
  split; [reflexivity|]. split; [reflexivity|].
  destruct documentP as [document|e].
  - destruct (match document with
              | None => true
              | Some d => truthy (scheduledDeletionTime d)
              end); (split; [reflexivity|cbn; discriminate]).
  - split; [reflexivity|cbn; discriminate].
Qed.

End Documents.

(** * The further properties at work on the fixtures *)

(** The host disposes the coordinator while [run] waits: the executor
    is disposed once, and the session ends with the listeners removed and
    the runtime closed. *)
Lemma run_hostDispose_releases_once :
  executorDisposals (effects (snd (run "client-A" None hostDisposeEnv freshSummarizer)))
  = executorDisposals (effects freshSummarizer) ++ [(rs_id testExecutor, true)]
  /\ runningSummarizer (snd (run "client-A" None hostDisposeEnv freshSummarizer)) = None
  /\ exists es,
       effects (snd (run "client-A" None hostDisposeEnv freshSummarizer))
       = es ++ [InboundOff (SystemOpListener (rs_id testExecutor));
                RuntimeRemoveListener (OpListener (rs_id testExecutor));
                CloseFn].
Proof.
  apply (run_releases_executor_and_listeners "client-A" None hostDisposeEnv
           freshSummarizer (mkController Deferred.create) "summarizer-1" testExecutor);
    try reflexivity.
  vm_compute. discriminate.
Defined.

(** After the session that ends with the loss of connectivity, the
    coordinator refuses to enqueue a summary. *)
Lemma run_connectivityLoss_spends_coordinator :
  exists e,
    enqueueSummarize (fun _ _ => tt) tt
      (snd (run "client-A" None connectivityLossEnv freshSummarizer))
    = (Threw e, snd (run "client-A" None connectivityLossEnv freshSummarizer)).
Proof.
  assert (H : fst (run "client-A" None connectivityLossEnv freshSummarizer) <> Pending)
    by (vm_compute; discriminate).
  exact (proj1 (coordinator_is_spent_after_run (fun _ _ => tt) (fun _ b _ => b)
                  (fun b => b) "client-A" None connectivityLossEnv freshSummarizer H)
           tt).
Defined.

(** The host disposes the coordinator while the loop waits for the ack
    at cursor 0: ack 5 is still refreshed, ack 9 is not waited for. *)
Lemma ack_loop_disposed_during_wait :
  exists s',
    handleSummaryAcksFrom
      [AckArrives [CallDispose] (testAck 5) (mkAwait [] (Resolves tt));
       AckArrives [] (testAck 9) (mkAwait [] (Resolves tt))] 0 startedSummarizer
    = (Returned tt, 5 + 1, s')
    /\ refreshCursors (effects s') = refreshCursors (effects startedSummarizer) ++ [5]
    /\ waitCursors (effects s') = waitCursors (effects startedSummarizer) ++ [0].
Proof.
  exact (proj1 (proj2 ack_loop_ends_when_executor_is_detached)
           [CallDispose] (testAck 5) (mkAwait [] (Resolves tt))
           [AckArrives [] (testAck 9) (mkAwait [] (Resolves tt))]
           0 startedSummarizer testExecutor eq_refl (or_introl eq_refl)).
Defined.

(** Two on-demand summaries asked for back to back on a fresh
    coordinator: two executors are started, and [dispose] reaches the
    second one only. *)
Lemma summarizeOnDemand_twice_starts_two_executors :
  executorCalls
    (effects
       (snd (bootstrap tt (waitingEnv secondExecutor) newBuilder
               (snd (bootstrap tt (waitingEnv testExecutor) newBuilder
                       (snd (summarizeOnDemand (fun _ b _ => b) (fun b => b) tt
                               (snd (summarizeOnDemand (fun _ b _ => b) (fun b => b) tt
                                       freshSummarizer)))))))))
  = [CalledStart; CalledSummarizeOnDemand 1; CalledStart; CalledSummarizeOnDemand 2]
  /\ executorCalls
       (effects
          (dispose
             (snd (bootstrap tt (waitingEnv secondExecutor) newBuilder
                     (snd (bootstrap tt (waitingEnv testExecutor) newBuilder
                             (snd (summarizeOnDemand (fun _ b _ => b) (fun b => b) tt
                                     (snd (summarizeOnDemand (fun _ b _ => b)
                                             (fun b => b) tt freshSummarizer))))))))))
     = [CalledStart; CalledSummarizeOnDemand 1; CalledStart; CalledSummarizeOnDemand 2;
        CalledDispose 2].
Proof.
  assert (He : forall elected,
             summarizerClientId (runtime freshSummarizer) = Some elected ->
             clientId (runtime freshSummarizer) = Some elected)
    by (intros elected H; discriminate H).
  assert (Hr : forall rs0,
             runningSummarizer freshSummarizer = Some rs0 -> disposed rs0 = true)
    by (intros rs0 H; discriminate H).
  destruct (onDemand_second_bootstrap_replaces_executor (fun _ b _ => b) (fun b => b)
              tt tt (waitingEnv testExecutor) (waitingEnv secondExecutor)
              freshSummarizer (mkController Deferred.create)
              (mkController Deferred.create) "summarizer-1" testExecutor secondExecutor
              eq_refl He Hr eq_refl eq_refl eq_refl eq_refl eq_refl eq_refl
              eq_refl eq_refl eq_refl eq_refl)
    as (_ & _ & _ & H4 & H5 & _).
  exact (conj H4 H5).
Defined.

(** An on-demand summary when the token factory fails, and the next one. *)
Lemma summarizeOnDemand_noToken_then_again :
  snd (fst (summarizeOnDemandSession (fun _ b _ => b) (fun b => b) tt noTokenEnv
              freshSummarizer))
  = Some (builder_fail "Failed to create cancellation token" (mkError "no token")
            newBuilder)
  /\ fst (summarizeOnDemand (fun _ b _ => b) (fun b => b) tt
            (snd (summarizeOnDemandSession (fun _ b _ => b) (fun b => b) tt noTokenEnv
                    freshSummarizer)))
     = Returned (Bootstrapping newBuilder newBuilder).
Proof.
  assert (He : forall elected,
             summarizerClientId (runtime freshSummarizer) = Some elected ->
             clientId (runtime freshSummarizer) = Some elected)
    by (intros elected H; discriminate H).
  assert (Hr : forall rs0,
             runningSummarizer freshSummarizer = Some rs0 -> disposed rs0 = true)
    by (intros rs0 H; discriminate H).
  destruct (onDemand_token_failure_is_not_fatal (fun _ b _ => b) (fun b => b) tt tt
              noTokenEnv freshSummarizer (mkError "no token")
              eq_refl He Hr eq_refl (fun H : False => H))
    as (Hb & _ & _ & Hn).
  exact (conj Hb Hn).
Defined.

(** A stop request ends an on-demand session whose [waitStop] fails: the
    executor stays attached. *)
Lemma bootstrap_waitStop_fails :
  fst (bootstrap tt waitStopFailsEnv newBuilder freshSummarizer)
  = builder_fail "Failed to start summarizer" (mkError "waitStop failed")
      (builder_resolveStarted StageSuccess newBuilder)
  /\ runningSummarizer (snd (bootstrap tt waitStopFailsEnv newBuilder freshSummarizer))
     = Some testExecutor
  /\ _disposed (snd (bootstrap tt waitStopFailsEnv newBuilder freshSummarizer)) = false.
Proof.
  assert (Hq : noHostDispose (stopWait waitStopFailsEnv))
    by (repeat constructor; discriminate).
  destruct (onDemand_waitStop_failure_leaves_session_open tt waitStopFailsEnv
              newBuilder freshSummarizer (mkController Deferred.create)
              "summarizer-1" testExecutor "parentShouldNotSummarize"
              (mkError "waitStop failed")
              eq_refl eq_refl eq_refl eq_refl (fun H : False => H)
              (Forall_nil _) Hq (Forall_nil _) eq_refl)
    as (Hb & _ & Hr & Hd).
  exact (conj Hb (conj Hr Hd)).
Defined.

(** The host disposes the coordinator while [run] waits: the executor
    is asked for a last summary after it has been disposed. *)
Lemma run_hostDispose_waitStop_after_dispose :
  fst (run "client-A" None hostDisposeEnv freshSummarizer)
  = Returned "summarizerClientDisconnected"
  /\ executorCalls (effects (snd (run "client-A" None hostDisposeEnv freshSummarizer)))
     = [CalledStart; CalledDispose 1; CalledWaitStop 1 true].
Proof.
  exact (host_dispose_precedes_waitStop "client-A" None hostDisposeEnv freshSummarizer
           (mkController Deferred.create) "summarizer-1" testExecutor []
           eq_refl eq_refl eq_refl eq_refl eq_refl eq_refl eq_refl eq_refl).
Defined.

(** A stroke of two operations, not rendered yet, is drawn in two
    segments. *)
Lemma handleStylusOp_draws_two_segments :
  fst (handleStylusOp alwaysShapes penMoveOp (canvasOf (modelOf [penDownOp; penMoveOp])))
  = Returned tt
  /\ drawn (snd (handleStylusOp alwaysShapes penMoveOp
                   (canvasOf (modelOf [penDownOp; penMoveOp]))))
     = [DrawSegment (Some penDownOp) (Some penDownOp) 7;
        DrawSegment (Some penDownOp) (Some penMoveOp) 7].
Proof.
  destruct (proj2 (proj2 (proj2 (handleStylusOp_renders_what_is_new alwaysShapes penMoveOp
                                   (canvasOf (modelOf [penDownOp; penMoveOp])))
                            (mkStroke [penDownOp; penMoveOp]) eq_refl))
              eq_refl eq_refl)
    as (H1 & H2 & _).
  exact (conj H1 H2).
Defined.

(** A stroke that begins with a move has no pen: drawing it throws and
    leaves the canvas as it was. *)
Lemma handleStylusOp_without_pen :
  handleStylusOp alwaysShapes penMoveOp (canvasOf (modelOf [penMoveOp; penUpOp]))
  = (Threw (CannotReadProperty "color"), canvasOf (modelOf [penMoveOp; penUpOp])).
Proof. reflexivity. Qed.

(** Under the id "constructor" nothing is drawn, although the model has
    a stroke under that id. *)
Lemma handleStylusOp_inherited_key :
  let m := {| inkSnapshot :=
                {| strokes := [penStroke];
                   strokeIndex := fun k => if String.eqb k "constructor"
                                           then Some 0%nat else None |};
              localMessages := [] |} in
  handleStylusOp alwaysShapes
    (makeMoveOperation (mkPoint 12 11) 1 (Some "constructor") 130) (canvasOf m)
  = (Returned tt, canvasOf m).
Proof. reflexivity. Qed.

(** [redraw] of the stroke of three operations. *)
Lemma redraw_of_one_stroke :
  fst (redraw alwaysShapes (canvasOf (modelOf [penDownOp; penMoveOp; penUpOp])))
  = Returned tt
  /\ drawn (snd (redraw alwaysShapes (canvasOf (modelOf [penDownOp; penMoveOp; penUpOp]))))
     = [ClearRect;
        DrawSegment (Some penDownOp) (Some penDownOp) 7;
        DrawSegment (Some penDownOp) (Some penMoveOp) 7;
        DrawSegment (Some penMoveOp) (Some penUpOp) 7].
Proof.
  destruct (redraw_draws_every_stroke alwaysShapes
              (canvasOf (modelOf [penDownOp; penMoveOp; penUpOp])))
    as (H1 & H2 & _).
  exact (conj H1 H2).
Defined.

(** The down is rendered, then the move and the up arrive. *)
Lemma stroke_rendered_in_two_steps :
  drawn (snd (handleStylusOp alwaysShapes penMoveOp
                (set_model (modelOf [penDownOp; penMoveOp; penUpOp])
                   (snd (handleStylusOp alwaysShapes penDownOp
                           (canvasOf (modelOf [penDownOp])))))))
  = drawn (snd (redrawOperations alwaysShapes (mkStroke [penDownOp; penMoveOp; penUpOp])
                  [penDownOp; penMoveOp; penUpOp] (Some penDownOp)
                  (canvasOf (modelOf [penDownOp])))).
Proof.
  exact (proj1 (incremental_rendering_is_redraw alwaysShapes penDownOp penMoveOp
                  (canvasOf (modelOf [penDownOp]))
                  (modelOf [penDownOp; penMoveOp; penUpOp])
                  [penDownOp] [penMoveOp; penUpOp]
                  eq_refl eq_refl eq_refl eq_refl eq_refl)).
Defined.

(** The replay of the stroke drawn at times 100, 130 and 190: one timer
    is set, and its chain asks for the delays 0, 30 and 60. *)
Lemma replay_of_one_stroke :
  replay (canvasOf (modelOf [penDownOp; penMoveOp; penUpOp]))
  = (Returned tt, firstTimer 100 penStroke,
     clearCanvas (canvasOf (modelOf [penDownOp; penMoveOp; penUpOp])))
  /\ (forall t,
         In t (firstTimer 100 penStroke) ->
         snd (fst (runChain alwaysShapes 3 t
                     (clearCanvas (canvasOf (modelOf [penDownOp; penMoveOp; penUpOp])))))
         = [0; 30; 60]).
Proof.
  split.
  - exact (proj1 (proj2 (proj2 (replay_keeps_the_timing alwaysShapes)))
             (canvasOf (modelOf [penDownOp; penMoveOp; penUpOp]))
             penStroke [] penDownOp [penMoveOp; penUpOp] eq_refl eq_refl).
  - intros t Hin.
    exact (proj2 (proj2 (proj1 (proj2 (proj2 (proj2 (replay_keeps_the_timing alwaysShapes))))
                           penStroke 100 t
                           (clearCanvas (canvasOf (modelOf [penDownOp; penMoveOp; penUpOp])))
                           Hin))
             eq_refl).
Defined.

(** A pen goes down, moves while a finger moves too, and goes up. *)
Lemma pen_stroke_is_submitted :
  localMessages
    (model (handleEvents Z.sub ignoreOperation alwaysShapes
              [PointerDown (pointerAt 1 "pen" 18 18 100);
               PointerMove (pointerAt 1 "pen" 20 19 130);
               PointerMove (pointerAt 2 "touch" 50 50 140);
               PointerUp (pointerAt 1 "pen" 23 23 190)]
              (canvasOf (modelOf []))))
  = [makeDownOperation (mkPoint 10 10) 1 7 "stroke-2" 100;
     makeMoveOperation (mkPoint 12 11) 1 (Some "stroke-2") 130;
     makeUpOperation (mkPoint 15 15) 1 (Some "stroke-2") 190].
Proof.
  exact (proj1 (stroke_is_submitted_under_one_id Z.sub ignoreOperation alwaysShapes
                  (canvasOf (modelOf []))
                  (pointerAt 1 "pen" 18 18 100) (pointerAt 1 "pen" 23 23 190)
                  [pointerAt 1 "pen" 20 19 130; pointerAt 2 "touch" 50 50 140]
                  eq_refl eq_refl)).
Defined.

(** A finger goes down and moves: the move is submitted without a
    stroke. *)
Lemma touch_moves_without_stroke :
  localMessages
    (model (handleEvents Z.sub ignoreOperation alwaysShapes
              [PointerDown (pointerAt 2 "touch" 50 50 100);
               PointerMove (pointerAt 2 "touch" 51 50 110)]
              (canvasOf (modelOf []))))
  = [makeMoveOperation (mkPoint 43 42) 1 None 110].
Proof.
  exact (proj1 (pointer_without_stroke_still_submits_moves Z.sub ignoreOperation alwaysShapes
                  (canvasOf (modelOf []))
                  (pointerAt 2 "touch" 50 50 100)
                  [pointerAt 2 "touch" 51 50 110] eq_refl)).
Defined.

(** A document that is scheduled for deletion is served with status 200. *)
Lemma getDocument_expiring_is_served :
  snd (getDocumentHandler (Some "tenant-1") (Some "doc-1") []
         (Resolves (Some expiringDocument)) (mkResponse 200 None))
  = mkResponse 200 (Some (DocumentBody (Some expiringDocument))).
Proof.
  exact (proj1 (proj2 (proj2
           (getDocument_never_answers_404 (Some "tenant-1") (Some "doc-1") []
              (Resolves (Some expiringDocument)) (mkResponse 200 None)
              ("tenant-1", Some "doc-1") eq_refl)))).
Defined.
